(** * 5Head: boards, timelines and positions of a multiverse chess variant

    A shallow embedding of [types.h], [position.h] and [position.cpp]:
    the 2D board with its piece lists ([Board2D]), the timeline of boards
    ([Timeline]) and the multiverse container ([Position]) with its
    branch-creation routine [new_timeline].

    Conventions of the embedding.
    - [int] values ([Time], [L], array indices, [Piece], [Square2D]) are
      integers of [Z].  Signed overflow of [int] is undefined behaviour in
      C++ and is not modelled: times and counts stay far inside the range.
    - The two active-line counters of [Position] are [short]; an increment
      and a conversion to [short] reduce the value to 16 bits ([to_short]).
    - Every array or vector access is checked by the model: an index out
      of range is undefined behaviour in the source and gives [Undefined]
      here.  A failed [assert] gives [AssertFail] (assertions enabled).
    - A board held through [std::shared_ptr] in a timeline is modelled by
      its value. *)

From Stdlib Require Import ZArith List Lia Bool String Ascii.
From stdpp Require Import base list.

Open Scope Z_scope.

(** ** Outcomes of a call *)

Inductive outcome (A : Type) : Type :=
| Ok (a : A)
| AssertFail
| Undefined.

Arguments Ok {A} a.
Arguments AssertFail {A}.
Arguments Undefined {A}.

Definition obind {A B : Type} (m : outcome A) (k : A -> outcome B) : outcome B :=
  match m with
  | Ok a => k a
  | AssertFail => AssertFail
  | Undefined => Undefined
  end.

#[global] Instance outcome_ret : MRet outcome := fun A a => Ok a.
#[global] Instance outcome_bind : MBind outcome := fun A B k m => obind m k.
#[global] Instance outcome_fmap : FMap outcome :=
  fun A B f m => obind m (fun a => Ok (f a)).

(** [rd a i] is the read [a[i]] and [wr a i x] the write [a[i] = x] of an
    array or vector of the source. *)
Definition rd {A : Type} (a : list A) (i : Z) : outcome A :=
  if 0 <=? i then
    match a !! Z.to_nat i with
    | Some x => Ok x
    | None => Undefined
    end
  else Undefined.

Definition wr {A : Type} (a : list A) (i : Z) (x : A) : outcome (list A) :=
  if (0 <=? i) && (i <? Z.of_nat (length a))
  then Ok (<[Z.to_nat i := x]> a)
  else Undefined.

(** Conversion to [short] (16 bits, two's complement). *)
Definition to_short (z : Z) : Z := (z + 32768) mod 65536 - 32768.

(** Conversion to [unsigned char]. *)
Definition to_uchar (z : Z) : Z := z mod 256.

(** ** types.h *)

Inductive Color : Type := WHITE | BLACK.

Definition Color_to_int (c : Color) : Z :=
  match c with WHITE => 0 | BLACK => 1 end.

(** The cast [Color(z)]; the source applies it to 0 and 1 only. *)
Definition Color_of_int (z : Z) : Color :=
  if z =? 0 then WHITE else BLACK.

Definition Color_eqb (a b : Color) : bool :=
  match a, b with
  | WHITE, WHITE | BLACK, BLACK => true
  | _, _ => false
  end.

Abbreviation PieceType := Z (only parsing).
Definition NO_PIECE_TYPE : PieceType := 0.
Definition PAWN : PieceType := 1.
Definition KNIGHT : PieceType := 2.
Definition BISHOP : PieceType := 3.
Definition ROOK : PieceType := 4.
Definition QUEEN : PieceType := 5.
Definition KING : PieceType := 6.
Definition ALL_PIECES : PieceType := 0.
Definition PIECE_TYPE_NB : Z := 8.

Abbreviation Piece := Z (only parsing).
Definition NO_PIECE : Piece := 0.
Definition W_PAWN : Piece := 1.
Definition W_KNIGHT : Piece := 2.
Definition W_BISHOP : Piece := 3.
Definition W_ROOK : Piece := 4.
Definition W_QUEEN : Piece := 5.
Definition W_KING : Piece := 6.
Definition B_PAWN : Piece := 9.
Definition B_KNIGHT : Piece := 10.
Definition B_BISHOP : Piece := 11.
Definition B_ROOK : Piece := 12.
Definition B_QUEEN : Piece := 13.
Definition B_KING : Piece := 14.
Definition PIECE_NB : Z := 16.

Abbreviation Square2D := Z (only parsing).
Definition SQ_A1 : Square2D := 0.
Definition SQ_B1 : Square2D := 1.
Definition SQ_C1 : Square2D := 2.
Definition SQ_A2 : Square2D := 8.
Definition SQ_A3 : Square2D := 16.
Definition SQ_C4 : Square2D := 26.
Definition SQ_D4 : Square2D := 27.
Definition SQ_H8 : Square2D := 63.
Definition SQ_NONE : Square2D := 64.
Definition SQUARE_NB : Z := 64.

Definition NORTH : Z := 8.
Definition EAST : Z := 1.
Definition SOUTH : Z := - NORTH.
Definition WEST : Z := - EAST.

Definition other_color (c : Color) : Color :=
  Color_of_int (1 - Color_to_int c).

Definition make_square2d (f r : Z) : Square2D := Z.shiftl r 3 + f.

Definition make_piece (c : Color) (pt : PieceType) : Piece :=
  Z.shiftl (Color_to_int c) 3 + pt.

Definition type_of (pc : Piece) : PieceType := Z.land pc 7.

Definition color_of (pc : Piece) : Color := Color_of_int (Z.shiftr pc 3).

Definition is_ok_square2d (s : Square2D) : bool :=
  (SQ_A1 <=? s) && (s <=? SQ_H8).

Abbreviation File := Z (only parsing).
Abbreviation Rank := Z (only parsing).

Definition file_of (s : Square2D) : File := Z.land s 7.

Definition rank_of (s : Square2D) : Rank := Z.shiftr s 3.

Definition pawn_push (c : Color) : Z :=
  match c with WHITE => NORTH | BLACK => SOUTH end.

(** The twelve pieces of the table [Pieces] of position.cpp. *)
Definition Pieces : list Piece :=
  [W_PAWN; W_KNIGHT; W_BISHOP; W_ROOK; W_QUEEN; W_KING;
   B_PAWN; B_KNIGHT; B_BISHOP; B_ROOK; B_QUEEN; B_KING].

Definition PieceToChar : string := " PNBRQK  pnbrqk".

(** ** Board2D *)

Module Board2D.

Record t : Type := Build {
  boardWidth : Z;
  board : list Piece;            (* Piece board[SQUARE_NB] *)
  pieceCount : list Z;           (* int pieceCount[PIECE_NB] *)
  pieceList : list (list Square2D); (* Square2D pieceList[PIECE_NB][16] *)
  index : list Z;                (* int index[SQUARE_NB] *)
  sideToMove : Color
}.

Definition board_width (b : t) : Z := boardWidth b.

Definition side_to_move (b : t) : Color := sideToMove b.

Definition piece_on (b : t) (s : Square2D) : outcome Piece := rd (board b) s.

Definition empty (b : t) (s : Square2D) : outcome bool :=
  pc ← piece_on b s; Ok (pc =? NO_PIECE).

Definition put_piece (b : t) (pc : Piece) (s : Square2D) : outcome t :=
  board1 ← wr (board b) s pc;
  n ← rd (pieceCount b) pc;
  pieceCount1 ← wr (pieceCount b) pc (n + 1);
  index1 ← wr (index b) s n;
  i ← rd index1 s;
  row ← rd (pieceList b) pc;
  row1 ← wr row i s;
  pieceList1 ← wr (pieceList b) pc row1;
  let all := make_piece (color_of pc) ALL_PIECES in
  m ← rd pieceCount1 all;
  pieceCount2 ← wr pieceCount1 all (m + 1);
  Ok (Build (boardWidth b) board1 pieceCount2 pieceList1 index1 (sideToMove b)).

Definition remove_piece (b : t) (s : Square2D) : outcome t :=
  pc ← rd (board b) s;
  board1 ← wr (board b) s NO_PIECE;
  n ← rd (pieceCount b) pc;
  pieceCount1 ← wr (pieceCount b) pc (n - 1);
  row ← rd (pieceList b) pc;
  lastSquare ← rd row (n - 1);
  i ← rd (index b) s;
  index1 ← wr (index b) lastSquare i;
  j ← rd index1 lastSquare;
  row1 ← wr row j lastSquare;
  k ← rd pieceCount1 pc;
  row2 ← wr row1 k SQ_NONE;
  pieceList1 ← wr (pieceList b) pc row2;
  let all := make_piece (color_of pc) ALL_PIECES in
  m ← rd pieceCount1 all;
  pieceCount2 ← wr pieceCount1 all (m - 1);
  Ok (Build (boardWidth b) board1 pieceCount2 pieceList1 index1 (sideToMove b)).

Definition passTurn (b : t) : t :=
  Build (boardWidth b) (board b) (pieceCount b) (pieceList b) (index b)
        (other_color (sideToMove b)).

(** The board after [std::memset(this, 0, sizeof(Board2D))] and the
    [std::fill_n] of [pieceList] with [SQ_NONE]. *)
Definition cleared : t :=
  Build 0 (replicate 64 NO_PIECE) (replicate 16 0)
        (replicate 16 (replicate 16 SQ_NONE)) (replicate 64 0) WHITE.

(** The value-initialised board of [new Board2D()]: all zero. *)
Definition zeroed : t :=
  Build 0 (replicate 64 NO_PIECE) (replicate 16 0)
        (replicate 16 (replicate 16 SQ_A1)) (replicate 64 0) WHITE.

(** *** Board2D::set: a board from its FEN text *)

Definition code (c : ascii) : Z := Z.of_N (N_of_ascii c).

(** [isspace] and [isdigit] of the C locale. *)
Definition isspace (c : ascii) : bool :=
  ((9 <=? code c) && (code c <=? 13)) || (code c =? 32).

Definition isdigit (c : ascii) : bool :=
  (48 <=? code c) && (code c <=? 57).

(** [std::string::find(char)]: the first position of [c] from [i] on. *)
Fixpoint find_from (s : string) (c : ascii) (i : Z) : option Z :=
  match s with
  | EmptyString => None
  | String d r => if Ascii.eqb d c then Some i else find_from r c (i + 1)
  end.

(** Step 0, the width of the board: the loop over [fenStr[idx]] up to the
    first white space or slash.  [token] is [None] while it is not
    initialised.  Past the end of the text the loop reads the
    terminator, counts it and then reads out of the string. *)
Fixpoint scan_width (fen : list ascii) (token : option ascii) (width : Z)
  : outcome (Z * option ascii) :=
  match fen with
  | [] => Undefined
  | c :: r =>
      if isspace c then Ok (width, token)
      else if isdigit c then scan_width r (Some c) (to_uchar (width + (code c - 48)))
      else if Ascii.eqb c "/" then Ok (width, Some c)
      else scan_width r (Some c) (to_uchar (width + 1))
  end.

(** Step 1, the pieces: the loop [while ((ss >> token) && !isspace(token))].
    The result holds the board, the square, the last token read and the
    text left in the stream. *)
Fixpoint parse_pieces (ss : list ascii) (width : Z) (sq : Square2D) (b : t)
  (token : option ascii) : outcome (t * option ascii * list ascii) :=
  match ss with
  | [] => Ok (b, token, [])
  | c :: r =>
      if isspace c then Ok (b, Some c, r)
      else if isdigit c then
        parse_pieces r width (sq + (code c - 48) * EAST) b (Some c)
      else if Ascii.eqb c "/" then
        parse_pieces r width (sq + width * WEST + SOUTH) b (Some c)
      else
        match find_from PieceToChar c 0 with
        | Some idx =>
            b1 ← put_piece b idx sq;
            parse_pieces r width (sq + 1) b1 (Some c)
        | None => parse_pieces r width sq b (Some c)
        end
  end.

(** [set] overwrites the whole object, so the model takes the text only.
    [boardWidth] is a [char] and keeps the width as it is: the class
    asks for a width of at most 8. *)
Definition set (fenStr : string) : outcome t :=
  let fen := list_ascii_of_string fenStr in
  '(width, token0) ← scan_width fen None 0;
  let b0 := Build width (board cleared) (pieceCount cleared)
                  (pieceList cleared) (index cleared) (sideToMove cleared) in
  let sq := SQ_A1 + (width - 1) * NORTH in
  '(b1, token1, rest) ← parse_pieces fen width sq b0 token0;
  let token2 := match rest with [] => token1 | c :: _ => Some c end in
  match token2 with
  | None => Undefined
  | Some c =>
      Ok (Build (boardWidth b1) (board b1) (pieceCount b1) (pieceList b1)
                (index b1) (if Ascii.eqb c "w" then WHITE else BLACK))
  end.

End Board2D.

(** ** Timeline *)

Abbreviation Time := Z (only parsing).
Abbreviation L := Z (only parsing).

Module Timeline.

Record t : Type := Build {
  startTime : Time;
  startColor : Color;
  active : bool;
  boards : list Board2D.t;
  printIndented : bool
}.

(** [Timeline(Time, Color)]: not active, no board, printed indented. *)
Definition make (setStartTime : Time) (setStartColor : Color) : t :=
  Build setStartTime setStartColor false [] true.

Definition start_time (tl : t) : Time := startTime tl.
Definition start_color (tl : t) : Color := startColor tl.
Definition is_active (tl : t) : bool := active tl.

Definition activate (tl : t) : t :=
  Build (startTime tl) (startColor tl) true (boards tl) (printIndented tl).

Definition first_board (tl : t) : outcome Board2D.t :=
  match boards tl with
  | [] => Undefined
  | b :: _ => Ok b
  end.

Definition last_board (tl : t) : outcome Board2D.t :=
  match last (boards tl) with
  | None => Undefined
  | Some b => Ok b
  end.

Definition plyToBoardIdx (tl : t) (time : Time) (c : Color) : Z :=
  let dt := time - startTime tl in
  let dc := Color_to_int c - Color_to_int (startColor tl) in
  2 * dt + dc.

Definition has_board_on_turn (tl : t) (time : Time) (c : Color) : bool :=
  let idx := plyToBoardIdx tl time c in
  idx <? 0.

Definition board_on_turn (tl : t) (time : Time) (c : Color) : outcome Board2D.t :=
  rd (boards tl) (plyToBoardIdx tl time c).

Definition append_board (tl : t) (newBoard : Board2D.t) : t :=
  Build (startTime tl) (startColor tl) (active tl) (boards tl ++ [newBoard])
        (printIndented tl).

Definition set_print_indented (tl : t) (pi : bool) : t :=
  Build (startTime tl) (startColor tl) (active tl) (boards tl) pi.

End Timeline.

(** ** Position *)

Module Position.

Record t : Type := Build {
  negativeLines : list Timeline.t;
  positiveLines : list Timeline.t;   (* the central line is positiveLines[0] *)
  activePositiveLines : Z;           (* short *)
  activeNegativeLines : Z;           (* short *)
  timeOfPresent : Time;
  sideToMove : Color
}.

Definition negative_timeline_count (p : t) : L :=
  Z.of_nat (length (negativeLines p)).

Definition positive_timeline_count (p : t) : L :=
  Z.of_nat (length (positiveLines p)) - 1.

Definition timeline (p : t) (timeline : L) : outcome Timeline.t :=
  if 0 <=? timeline then rd (positiveLines p) timeline
  else rd (negativeLines p) (- timeline - 1).

Definition side_to_move (p : t) : Color := sideToMove p.
Definition time_of_present (p : t) : Time := timeOfPresent p.

(** The body of both loops of [set]: one timeline from one FEN text. *)
Definition line_of_fen (fen : string) : outcome Timeline.t :=
  board ← Board2D.set fen;
  let tl := Timeline.make 1 (Board2D.side_to_move board) in
  let tl := Timeline.append_board tl board in
  Ok (Timeline.activate tl).

Fixpoint lines_of_fens (fens : list string) : outcome (list Timeline.t) :=
  match fens with
  | [] => Ok []
  | fen :: r =>
      tl ← line_of_fen fen;
      tls ← lines_of_fens r;
      Ok (tl :: tls)
  end.

(** [set] overwrites every field of the position.  The first loop walks
    [negativeFENs] from its last entry down to its first one. *)
Definition set (negativeFENs positiveFENs : list string) : outcome t :=
  negativeLines1 ← lines_of_fens (rev negativeFENs);
  positiveLines1 ← lines_of_fens positiveFENs;
  let activePositiveLines1 := to_short (Z.of_nat (length positiveFENs) - 1) in
  let activeNegativeLines1 := to_short (Z.of_nat (length negativeFENs)) in
  central ← rd positiveLines1 0;
  first ← Timeline.first_board central;
  Ok (Build negativeLines1 positiveLines1 activePositiveLines1
            activeNegativeLines1 1 (Board2D.side_to_move first)).

(** [++x] on a [short]. *)
Definition incr_short (x : Z) : Z := to_short (x + 1).

Definition new_timeline (p : t) (branchLine : L) (branchTime : Time)
  : outcome (t * Board2D.t) :=
  targetLine ← timeline p branchLine;
  targetBoard ← Timeline.board_on_turn targetLine branchTime (sideToMove p);
  let newBoard := Board2D.passTurn targetBoard in
  let newTimeline :=
    Timeline.make (branchTime + Color_to_int (sideToMove p))
                  (Board2D.side_to_move newBoard) in
  let newTimeline := Timeline.append_board newTimeline newBoard in
  let pos_cnt := positive_timeline_count p in
  let neg_cnt := negative_timeline_count p in
  match sideToMove p with
  | WHITE =>
      if (pos_cnt =? neg_cnt) || (pos_cnt =? neg_cnt - 1) then
        let newTimeline := Timeline.activate newTimeline in
        Ok (Build (negativeLines p)
                  (positiveLines p ++ [newTimeline])
                  (incr_short (activePositiveLines p))
                  (activeNegativeLines p)
                  (Z.min (timeOfPresent p) (Timeline.start_time newTimeline))
                  (sideToMove p),
            newBoard)
      else if pos_cnt <? neg_cnt - 1 then
        let newTimeline := Timeline.activate newTimeline in
        other ← rd (negativeLines p) (pos_cnt + 1);
        if Timeline.is_active other then AssertFail else
        negativeLines1 ← wr (negativeLines p) (pos_cnt + 1) (Timeline.activate other);
        other1 ← rd negativeLines1 (pos_cnt + 1);
        Ok (Build negativeLines1
                  (positiveLines p ++ [newTimeline])
                  (incr_short (activePositiveLines p))
                  (incr_short (activeNegativeLines p))
                  (Z.min (timeOfPresent p)
                         (Z.min (Timeline.start_time newTimeline)
                                (Timeline.start_time other1)))
                  (sideToMove p),
            newBoard)
      else
        Ok (Build (negativeLines p)
                  (positiveLines p ++ [newTimeline])
                  (activePositiveLines p)
                  (activeNegativeLines p)
                  (timeOfPresent p)
                  (sideToMove p),
            newBoard)
  | BLACK =>
      if (neg_cnt =? pos_cnt) || (neg_cnt =? pos_cnt - 1) then
        let newTimeline := Timeline.activate newTimeline in
        Ok (Build (negativeLines p ++ [newTimeline])
                  (positiveLines p)
                  (activePositiveLines p)
                  (incr_short (activeNegativeLines p))
                  (Z.min (timeOfPresent p) (Timeline.start_time newTimeline))
                  (sideToMove p),
            newBoard)
      else if neg_cnt <? pos_cnt - 1 then
        let newTimeline := Timeline.activate newTimeline in
        other ← rd (positiveLines p) (neg_cnt + 2);
        if Timeline.is_active other then AssertFail else
        positiveLines1 ← wr (positiveLines p) (neg_cnt + 2) (Timeline.activate other);
        other1 ← rd positiveLines1 (neg_cnt + 2);
        Ok (Build (negativeLines p ++ [newTimeline])
                  positiveLines1
                  (activePositiveLines p)
                  (incr_short (activeNegativeLines p))
                  (Z.min (timeOfPresent p)
                         (Z.min (Timeline.start_time newTimeline)
                                (Timeline.start_time other1)))
                  (sideToMove p),
            newBoard)
      else
        Ok (Build (negativeLines p ++ [newTimeline])
                  (positiveLines p)
                  (activePositiveLines p)
                  (activeNegativeLines p)
                  (timeOfPresent p)
                  (sideToMove p),
            newBoard)
  end.

End Position.

(** ** Vocabulary of the properties *)

(** *** Branch creation *)

(** The mover's side and the opposing side of a position: White branches
    into the positive lines, Black into the negative lines. *)
Definition own_count (p : Position.t) : L :=
  match Position.sideToMove p with
  | WHITE => Position.positive_timeline_count p
  | BLACK => Position.negative_timeline_count p
  end.

Definition opp_count (p : Position.t) : L :=
  match Position.sideToMove p with
  | WHITE => Position.negative_timeline_count p
  | BLACK => Position.positive_timeline_count p
  end.

Definition own_lines (p : Position.t) : list Timeline.t :=
  match Position.sideToMove p with
  | WHITE => Position.positiveLines p
  | BLACK => Position.negativeLines p
  end.

Definition opp_lines (p : Position.t) : list Timeline.t :=
  match Position.sideToMove p with
  | WHITE => Position.negativeLines p
  | BLACK => Position.positiveLines p
  end.

Definition own_active (p : Position.t) : Z :=
  match Position.sideToMove p with
  | WHITE => Position.activePositiveLines p
  | BLACK => Position.activeNegativeLines p
  end.

Definition opp_active (p : Position.t) : Z :=
  match Position.sideToMove p with
  | WHITE => Position.activeNegativeLines p
  | BLACK => Position.activePositiveLines p
  end.

(** The slot, in the opposing side's vector, of the line that the
    second case of [new_timeline] activates. *)
Definition balancing_slot (p : Position.t) : Z :=
  match Position.sideToMove p with
  | WHITE => Position.positive_timeline_count p + 1
  | BLACK => Position.negative_timeline_count p + 2
  end.

(** The assertion of [new_timeline] is not reached or holds. *)
Definition assertion_holds (p : Position.t) : bool :=
  if own_count p <? opp_count p - 1 then
    match rd (opp_lines p) (balancing_slot p) with
    | Ok other => negb (Timeline.is_active other)
    | _ => true
    end
  else true.

(** The balance rule on the two counters. *)
Definition balanced (p : Position.t) : bool :=
  Z.abs (Position.activePositiveLines p - Position.activeNegativeLines p) <=? 1.

(** The timeline that a call of [new_timeline] at time [t] builds from
    the source board [src], before it is activated or not. *)
Definition fresh_line (p : Position.t) (t : Time) (src : Board2D.t) : Timeline.t :=
  Timeline.Build (t + Color_to_int (Position.sideToMove p))
                 (other_color (Board2D.sideToMove src)) false
                 [Board2D.passTurn src] true.

(** [Position] has no operation that changes [sideToMove] after [set]:
    between two branch calls the turn is passed by the caller.  A call of
    a sequence names its mover, and [turn_of] writes the field. *)
Record Call : Type := MkCall {
  mover : Color;
  branchLine : L;
  branchTime : Time
}.

Definition turn_of (c : Color) (p : Position.t) : Position.t :=
  Position.Build (Position.negativeLines p) (Position.positiveLines p)
                 (Position.activePositiveLines p) (Position.activeNegativeLines p)
                 (Position.timeOfPresent p) c.

Fixpoint branch_calls (calls : list Call) (p : Position.t) : outcome Position.t :=
  match calls with
  | [] => Ok p
  | c :: r =>
      '(p1, _) ← Position.new_timeline (turn_of (mover c) p) (branchLine c) (branchTime c);
      branch_calls r p1
  end.

(** A position with the central line only and both counters at 0. *)
Definition central_only (p : Position.t) : Prop :=
  Position.positive_timeline_count p = 0 ∧
  Position.negative_timeline_count p = 0 ∧
  Position.activePositiveLines p = 0 ∧
  Position.activeNegativeLines p = 0.

(** *** Positions of the examples *)

Definition ok_or {A : Type} (d : A) (o : outcome A) : A :=
  match o with
  | Ok a => a
  | _ => d
  end.

(** The board and the position of test.cpp. *)
Definition test_fen : string := "3k/4/4/KN2 w".

Definition test_board : Board2D.t := ok_or Board2D.cleared (Board2D.set test_fen).

Definition no_position : Position.t := Position.Build [] [] 0 0 0 WHITE.

Definition test_position : Position.t :=
  ok_or no_position (Position.set [] [test_fen]).

(** The same position with Black to move on the central line. *)
Definition test_position_black : Position.t :=
  ok_or no_position (Position.set [] ["3k/4/4/KN2 b"%string]).

(** A central line and one positive line that starts on Black's ply;
    White is to move, and the counters are 1 and 0. *)
Definition two_line_position : Position.t :=
  ok_or no_position (Position.set [] [test_fen; "3k/4/4/KN2 b"%string]).

(** White has branched twice from the central line, so that the second
    positive line is not active, and the turn has passed to Black. *)
Definition black_behind_position : Position.t :=
  turn_of BLACK
    (ok_or no_position
       (branch_calls [MkCall WHITE 0 1; MkCall WHITE 0 1] test_position)).

(** The mirror image: Black has branched twice, White is to move. *)
Definition white_behind_position : Position.t :=
  turn_of WHITE
    (ok_or no_position
       (branch_calls [MkCall BLACK 0 1; MkCall BLACK 0 1] test_position_black)).



(** What a position shows of its bookkeeping: the two counters and the
    active flags of the positive and of the negative lines. *)
Definition counters_and_flags (p : Position.t) : Z * Z * list bool * list bool :=
  (Position.activePositiveLines p, Position.activeNegativeLines p,
   map Timeline.is_active (Position.positiveLines p),
   map Timeline.is_active (Position.negativeLines p)).

(** The same of the position that a call of [new_timeline] returns. *)
Definition counters_after (r : Position.t * Board2D.t) : Z * Z * list bool * list bool :=
  counters_and_flags (fst r).

(** A timeline that starts at time 1 with White and holds one board. *)
Definition one_board_line : Timeline.t :=
  Timeline.append_board (Timeline.make 1 WHITE) test_board.

(** White has branched once from the central line of [test_position]. *)
Definition white_ahead_position : Position.t :=
  ok_or no_position (branch_calls [MkCall WHITE 0 1] test_position).

(** A value-initialised board with the white king put on a1. *)
Definition king_on_zeroed : Board2D.t :=
  ok_or Board2D.zeroed (Board2D.put_piece Board2D.zeroed W_KING SQ_A1).

(** The central line of [test_position]. *)
Definition test_central_line : Timeline.t := Timeline.activate one_board_line.

(** The position of test.cpp after its two [append_board] calls on the
    central line. *)
Definition test_cpp_position : Position.t :=
  Position.Build []
    [Timeline.append_board (Timeline.append_board test_central_line test_board)
                           test_board]
    0 0 1 WHITE.

(** *** Initialisation *)

(** The FEN text goes through [Board2D::set] without undefined behaviour. *)
Definition fen_decodes (fen : string) : bool :=
  match Board2D.set fen with
  | Ok _ => true
  | _ => false
  end.

(** [tl] is the timeline that [set] creates for [fen]: it starts at time
    1 with the side to move of the decoded board, holds that board only
    and is active. *)
Definition line_decodes (fen : string) (tl : Timeline.t) : Prop :=
  ∃ b, Board2D.set fen = Ok b ∧
       Timeline.start_time tl = 1 ∧
       Timeline.start_color tl = Board2D.side_to_move b ∧
       Timeline.boards tl = [b] ∧
       Timeline.is_active tl = true.

(** 32769 copies of the FEN text of test.cpp. *)
Definition many_fens : list string := replicate (Z.to_nat 32769) test_fen.

(** *** Operations of a timeline *)

(** The member functions of [Timeline] that change the object. *)
Inductive TimelineOp : Type :=
| OpActivate
| OpAppendBoard (newBoard : Board2D.t)
| OpSetPrintIndented (pi : bool).

Definition apply_timeline_op (op : TimelineOp) (tl : Timeline.t) : Timeline.t :=
  match op with
  | OpActivate => Timeline.activate tl
  | OpAppendBoard newBoard => Timeline.append_board tl newBoard
  | OpSetPrintIndented pi => Timeline.set_print_indented tl pi
  end.

(** *** Piece bookkeeping of a board *)

Inductive BoardOp : Type :=
| Put (pc : Piece) (s : Square2D)
| Remove (s : Square2D).

Definition do_op (b : Board2D.t) (op : BoardOp) : outcome Board2D.t :=
  match op with
  | Put pc s => Board2D.put_piece b pc s
  | Remove s => Board2D.remove_piece b s
  end.

Fixpoint run_ops (ops : list BoardOp) (b : Board2D.t) : outcome Board2D.t :=
  match ops with
  | [] => Ok b
  | op :: r => b1 ← do_op b op; run_ops r b1
  end.

Definition is_piece (pc : Piece) : bool := existsb (Z.eqb pc) Pieces.

(** The number of squares of the board that hold [pc]. *)
Definition occurrences (b : Board2D.t) (pc : Piece) : Z :=
  Z.of_nat (count_occ Z.eq_dec (Board2D.board b) pc).

Definition is_empty_square (b : Board2D.t) (s : Square2D) : bool :=
  match Board2D.empty b s with
  | Ok e => e
  | _ => false
  end.

Definition is_occupied_square (b : Board2D.t) (s : Square2D) : bool :=
  match Board2D.empty b s with
  | Ok e => negb e
  | _ => false
  end.

(** The arrays of a board have the sizes of their declarations. *)
Definition board_wf (b : Board2D.t) : bool :=
  (length (Board2D.board b) =? 64)%nat &&
  (length (Board2D.pieceCount b) =? 16)%nat &&
  (length (Board2D.pieceList b) =? 16)%nat &&
  forallb (fun row => (length row =? 16)%nat) (Board2D.pieceList b) &&
  (length (Board2D.index b) =? 64)%nat.

(** The precondition of the claim: a piece goes onto an empty square, a
    removal takes a piece from an occupied square. *)
Definition op_allowed (b : Board2D.t) (op : BoardOp) : bool :=
  match op with
  | Put pc s => is_piece pc && is_empty_square b s
  | Remove s => is_occupied_square b s
  end.

(** The same with the bound of the piece lists: a row of [pieceList] has
    16 slots, so a piece goes onto the board only while fewer than 16
    squares hold that piece. *)
Definition op_fits (b : Board2D.t) (op : BoardOp) : bool :=
  match op with
  | Put pc s => op_allowed b op && (occurrences b pc <? 16)
  | Remove s => op_allowed b op
  end.

(** Every operation of the sequence meets [ok] in the state in which it
    is issued. *)
Fixpoint all_ops (ok : Board2D.t -> BoardOp -> bool) (ops : list BoardOp)
  (b : Board2D.t) : bool :=
  match ops with
  | [] => true
  | op :: r =>
      ok b op &&
      match do_op b op with
      | Ok b1 => all_ops ok r b1
      | _ => true
      end
  end.

(** The location collection of a piece: the entries of its row of
    [pieceList] up to its [pieceCount]. *)
Definition locations (b : Board2D.t) (pc : Piece) : list Square2D :=
  match rd (Board2D.pieceCount b) pc, rd (Board2D.pieceList b) pc with
  | Ok n, Ok row => take (Z.to_nat n) row
  | _, _ => []
  end.

(** Square contents and piece lists agree: for each of the twelve pieces
    the collection has no duplicate, holds exactly the squares on which
    [piece_on] reports the piece, and [index] leads back from a square to
    its slot. *)
Definition bookkeeping_agrees (b : Board2D.t) : Prop :=
  ∀ pc : Piece, is_piece pc = true →
    NoDup (locations b pc) ∧
    (∀ s : Square2D, s ∈ locations b pc ↔ Board2D.piece_on b s = Ok pc) ∧
    (∀ (i : nat) (s : Square2D),
        locations b pc !! i = Some s → rd (Board2D.index b) s = Ok (Z.of_nat i)).

(** The invariant behind [bookkeeping_agrees].  For a piece [pc], the
    count is the number of squares that hold [pc]; each slot below the
    count names a square that holds [pc] and whose [index] is the slot;
    each square that holds [pc] has its [index] below the count, and the
    slot of that index names the square. *)
Definition piece_tracked (b : Board2D.t) (pc : Piece) : Prop :=
  ∃ (n : Z) (row : list Square2D),
    rd (Board2D.pieceCount b) pc = Ok n ∧
    rd (Board2D.pieceList b) pc = Ok row ∧
    n = occurrences b pc ∧
    (∀ i : Z, 0 <= i < n →
       ∃ q : Square2D, rd row i = Ok q ∧ rd (Board2D.board b) q = Ok pc ∧
                       rd (Board2D.index b) q = Ok i) ∧
    (∀ s : Square2D, rd (Board2D.board b) s = Ok pc →
       ∃ i : Z, 0 <= i < n ∧ rd (Board2D.index b) s = Ok i ∧ rd row i = Ok s).

Definition board_inv (b : Board2D.t) : Prop :=
  board_wf b = true ∧
  (∀ (s : Square2D) (pc : Piece),
      rd (Board2D.board b) s = Ok pc → pc = NO_PIECE ∨ is_piece pc = true) ∧
  (∀ pc : Piece, is_piece pc = true → piece_tracked b pc).

(** Seventeen white pawns, one on each of the squares 0 to 16. *)
Definition seventeen_pawns : list BoardOp :=
  map (fun s => Put W_PAWN (Z.of_nat s)) (seq 0 17).

(** The moves of test.cpp on its board, and then the two undone. *)
Definition test_ops : list BoardOp :=
  [Put W_KING SQ_A1; Put W_KNIGHT SQ_B1; Put B_KING SQ_D4;
   Remove SQ_D4; Put B_KING SQ_C4; Remove SQ_A1; Put W_KING SQ_A2].

(** *** The counters and the lines they count *)

(** The number of active lines of a vector of lines. *)
Definition active_lines (ls : list Timeline.t) : Z :=
  Z.of_nat (length (List.filter Timeline.is_active ls)).

(** The position has its central line, and each counter holds, as a
    [short], the number of active lines of its side, the central line
    not counted. *)
Definition counters_track (p : Position.t) : Prop :=
  Position.positiveLines p ≠ [] ∧
  Position.activePositiveLines p
    = to_short (active_lines (tail (Position.positiveLines p))) ∧
  Position.activeNegativeLines p
    = to_short (active_lines (Position.negativeLines p)).

(** Two negative lines and the central line, built by [set]: White is
    to move and is behind by two lines. *)
Definition unbalanced_position : Position.t :=
  ok_or no_position
    (Position.set ["3k/4/4/KN2 b"%string; "3k/4/4/KN2 b"%string] [test_fen]).

(** White has branched twice from the central line of [test_position]. *)
Definition white_twice_position : Position.t :=
  ok_or no_position
    (branch_calls [MkCall WHITE 0 1; MkCall WHITE 0 1] test_position).

(** [two_line_position] after one more board has been appended to its
    line 1 in the manner of test.cpp ([append_board] on the line that
    [pos.timeline(1)] returns, with a copy of [board]), where [board]
    is the board of that line at (1, Black): the line starts
    on Black's ply, so the copy sits at (2, White) and has Black to
    move. *)
Definition copied_board_position : Position.t :=
  let p := two_line_position in
  Position.Build (Position.negativeLines p)
    (alter (fun tl => Timeline.append_board tl
                        (ok_or test_board (Timeline.board_on_turn tl 1 BLACK)))
           1%nat (Position.positiveLines p))
    (Position.activePositiveLines p) (Position.activeNegativeLines p)
    (Position.timeOfPresent p) (Position.sideToMove p).

(** *** The ply index in [int] *)

(** The values of a 32-bit [int]. *)
Definition in_int (z : Z) : bool := (-2147483648 <=? z) && (z <=? 2147483647).

(** The result of a signed [int] operation whose mathematical value is
    [z]: overflow is undefined behaviour. *)
Definition int_op (z : Z) : outcome Z := if in_int z then Ok z else Undefined.

(** [Timeline::plyToBoardIdx] with each of its [int] operations checked:
    [time - startTime], [c - startColor], [2 * dt] and [2 * dt + dc]. *)
Definition plyToBoardIdx_int (tl : Timeline.t) (time : Time) (c : Color) : outcome Z :=
  dt ← int_op (time - Timeline.startTime tl);
  dc ← int_op (Color_to_int c - Color_to_int (Timeline.startColor tl));
  twice ← int_op (2 * dt);
  int_op (twice + dc).

(** *** The counts of a colour *)

(** The pieces of a colour among the twelve pieces. *)
Definition pieces_of (c : Color) : list Piece :=
  List.filter (fun pc => Color_eqb (color_of pc) c) Pieces.

(** The number of squares that hold a piece of the colour. *)
Definition colour_total (b : Board2D.t) (c : Color) : Z :=
  fold_right (fun pc acc => occurrences b pc + acc) 0 (pieces_of c).

(** The slot [make_piece(c, ALL_PIECES)] of [pieceCount] holds the number
    of pieces of colour [c] on the board. *)
Definition colour_counted (b : Board2D.t) : Prop :=
  ∀ c : Color,
    rd (Board2D.pieceCount b) (make_piece c ALL_PIECES) = Ok (colour_total b c).

(** *** Decoding a FEN text *)

(** The text holds neither white space nor a slash. *)
Definition no_separator (fen : string) : bool :=
  forallb (fun c => negb (Board2D.isspace c) && negb (Ascii.eqb c "/"))
          (list_ascii_of_string fen).

(** The [put_piece] calls of the piece loop of [Board2D::set], in their
    order: the loop of [Board2D.parse_pieces] without the board. *)
Fixpoint fen_puts (ss : list ascii) (width : Z) (sq : Square2D) : list BoardOp :=
  match ss with
  | [] => []
  | c :: r =>
      if Board2D.isspace c then []
      else if Board2D.isdigit c then
        fen_puts r width (sq + (Board2D.code c - 48) * EAST)
      else if Ascii.eqb c "/" then
        fen_puts r width (sq + width * WEST + SOUTH)
      else
        match Board2D.find_from PieceToChar c 0 with
        | Some idx => Put idx sq :: fen_puts r width (sq + 1)
        | None => fen_puts r width sq
        end
  end.

(** The assignment [boardWidth = width]. *)
Definition with_width (width : Z) (b : Board2D.t) : Board2D.t :=
  Board2D.Build width (Board2D.board b) (Board2D.pieceCount b)
                (Board2D.pieceList b) (Board2D.index b) (Board2D.sideToMove b).

Definition fen_ops (fen : string) : list BoardOp :=
  let ss := list_ascii_of_string fen in
  match Board2D.scan_width ss None 0 with
  | Ok (width, _) => fen_puts ss width (SQ_A1 + (width - 1) * NORTH)
  | _ => []
  end.

(** * Properties *)

(** ** Array reads and writes *)

Lemma rd_Ok_iff {A : Type} (a : list A) (i : Z) (x : A) :
  rd a i = Ok x ↔ 0 <= i ∧ a !! Z.to_nat i = Some x.
Proof.
  unfold rd. destruct (Z.leb_spec 0 i) as [Hi | Hi].
  - destruct (a !! Z.to_nat i) as [y |] eqn:E; split.
    + intros [= ->]. auto.
    + intros [_ [= ->]]. reflexivity.
    + discriminate.
    + intros [_ [=]].
  - split; [discriminate | lia].
Qed.

Lemma rd_in_range {A : Type} (a : list A) (i : Z) :
  0 <= i < Z.of_nat (length a) → ∃ x, rd a i = Ok x.
Proof.
  intros Hi. destruct (lookup_lt_is_Some_2 a (Z.to_nat i)) as [x Hx]; [lia |].
  exists x. apply rd_Ok_iff. split; [lia | exact Hx].
Qed.

Lemma rd_out_of_range {A : Type} (a : list A) (i : Z) :
  ¬ (0 <= i < Z.of_nat (length a)) → rd a i = Undefined.
Proof.
  intros Hi. unfold rd. destruct (Z.leb_spec 0 i) as [H0 | H0]; [| reflexivity].
  rewrite lookup_ge_None_2; [reflexivity | lia].
Qed.

Lemma rd_not_AssertFail {A : Type} (a : list A) (i : Z) : rd a i ≠ AssertFail.
Proof.
  unfold rd. destruct (0 <=? i); [| discriminate].
  destruct (a !! Z.to_nat i); discriminate.
Qed.

Lemma wr_in_range {A : Type} (a : list A) (i : Z) (x : A) :
  0 <= i < Z.of_nat (length a) → wr a i x = Ok (<[Z.to_nat i := x]> a).
Proof.
  intros Hi. unfold wr.
  destruct (Z.leb_spec 0 i); [| lia].
  destruct (Z.ltb_spec i (Z.of_nat (length a))); [reflexivity | lia].
Qed.

Lemma wr_Ok_inv {A : Type} (a b : list A) (i : Z) (x : A) :
  wr a i x = Ok b → 0 <= i < Z.of_nat (length a) ∧ b = <[Z.to_nat i := x]> a.
Proof.
  unfold wr. destruct (Z.leb_spec 0 i); [| discriminate].
  destruct (Z.ltb_spec i (Z.of_nat (length a))); [| discriminate].
  intros [= <-]. split; [lia | reflexivity].
Qed.

Lemma wr_not_AssertFail {A : Type} (a : list A) (i : Z) (x : A) :
  wr a i x ≠ AssertFail.
Proof. unfold wr. destruct ((0 <=? i) && _); discriminate. Qed.

Lemma rd_wr_same {A : Type} (a : list A) (i : Z) (x : A) :
  0 <= i < Z.of_nat (length a) → rd (<[Z.to_nat i := x]> a) i = Ok x.
Proof.
  intros Hi. apply rd_Ok_iff. split; [lia |].
  apply list_lookup_insert_eq. lia.
Qed.

Lemma obind_not_AssertFail {A B : Type} (m : outcome A) (k : A → outcome B) :
  m ≠ AssertFail → (∀ a, k a ≠ AssertFail) → obind m k ≠ AssertFail.
Proof. intros Hm Hk. destruct m; simpl; [apply Hk | congruence | discriminate]. Qed.

(** ** Branch creation: the shape of a call *)

Section NewTimeline.

Variables (p : Position.t) (l : L) (t : Time).
Variables (tl : Timeline.t) (src : Board2D.t).
Hypothesis Hline : Position.timeline p l = Ok tl.
Hypothesis Hsrc : Timeline.board_on_turn tl t (Position.sideToMove p) = Ok src.

(** First case: the own side has as many lines as the other side, or
    one less. *)
Lemma new_timeline_level :
  own_count p = opp_count p ∨ own_count p = opp_count p - 1 →
  ∃ p', Position.new_timeline p l t = Ok (p', Board2D.passTurn src) ∧
    own_lines p' = own_lines p ++ [Timeline.activate (fresh_line p t src)] ∧
    opp_lines p' = opp_lines p ∧
    own_active p' = Position.incr_short (own_active p) ∧
    opp_active p' = opp_active p ∧
    Position.timeOfPresent p' =
      Z.min (Position.timeOfPresent p) (Timeline.start_time (fresh_line p t src)) ∧
    Position.sideToMove p' = Position.sideToMove p.
Proof.
  intros Hcase. unfold Position.new_timeline.
  rewrite Hline. simpl. rewrite Hsrc. simpl.
  unfold own_count, opp_count, own_lines, opp_lines, own_active, opp_active in *.
  destruct (Position.sideToMove p) eqn:Hmover.
  - destruct (Z.eqb_spec (Position.positive_timeline_count p)
                         (Position.negative_timeline_count p));
      destruct (Z.eqb_spec (Position.positive_timeline_count p)
                           (Position.negative_timeline_count p - 1));
      simpl; try lia;
      (eexists; split; [reflexivity |]; simpl; unfold fresh_line;
       rewrite ?Hmover; auto 10).
  - destruct (Z.eqb_spec (Position.negative_timeline_count p)
                         (Position.positive_timeline_count p));
      destruct (Z.eqb_spec (Position.negative_timeline_count p)
                           (Position.positive_timeline_count p - 1));
      simpl; try lia;
      (eexists; split; [reflexivity |]; simpl; unfold fresh_line;
       rewrite ?Hmover; auto 10).
Qed.

(** Third case: the own side has more lines than the other side. *)
Lemma new_timeline_ahead :
  own_count p > opp_count p →
  ∃ p', Position.new_timeline p l t = Ok (p', Board2D.passTurn src) ∧
    own_lines p' = own_lines p ++ [fresh_line p t src] ∧
    opp_lines p' = opp_lines p ∧
    Position.activePositiveLines p' = Position.activePositiveLines p ∧
    Position.activeNegativeLines p' = Position.activeNegativeLines p ∧
    Position.timeOfPresent p' = Position.timeOfPresent p ∧
    Position.sideToMove p' = Position.sideToMove p.
Proof.
  intros Hcase. unfold Position.new_timeline.
  rewrite Hline. simpl. rewrite Hsrc. simpl.
  unfold own_count, opp_count, own_lines, opp_lines in *.
  destruct (Position.sideToMove p) eqn:Hmover.
  - destruct (Z.eqb_spec (Position.positive_timeline_count p)
                         (Position.negative_timeline_count p));
      destruct (Z.eqb_spec (Position.positive_timeline_count p)
                           (Position.negative_timeline_count p - 1));
      destruct (Z.ltb_spec (Position.positive_timeline_count p)
                           (Position.negative_timeline_count p - 1));
      simpl; try lia.
    eexists; split; [reflexivity |]; simpl; unfold fresh_line;
      rewrite ?Hmover; auto 10.
  - destruct (Z.eqb_spec (Position.negative_timeline_count p)
                         (Position.positive_timeline_count p));
      destruct (Z.eqb_spec (Position.negative_timeline_count p)
                           (Position.positive_timeline_count p - 1));
      destruct (Z.ltb_spec (Position.negative_timeline_count p)
                           (Position.positive_timeline_count p - 1));
      simpl; try lia.
    eexists; split; [reflexivity |]; simpl; unfold fresh_line;
      rewrite ?Hmover; auto 10.
Qed.

(** Second case: the own side is behind by two lines or more.  The
    line in the balancing slot exists; the call stops on the assertion
    when that line is active already.  Otherwise it activates the new
    line and that line; White's branch counts both, Black's branch
    counts its own line only. *)
Lemma new_timeline_behind :
  own_count p < opp_count p - 1 →
  ∃ other, rd (opp_lines p) (balancing_slot p) = Ok other ∧
    if Timeline.is_active other
    then Position.new_timeline p l t = AssertFail
    else
      ∃ p', Position.new_timeline p l t = Ok (p', Board2D.passTurn src) ∧
        own_lines p' = own_lines p ++ [Timeline.activate (fresh_line p t src)] ∧
        opp_lines p' =
          <[Z.to_nat (balancing_slot p) := Timeline.activate other]> (opp_lines p) ∧
        own_active p' = Position.incr_short (own_active p) ∧
        opp_active p' =
          match Position.sideToMove p with
          | WHITE => Position.incr_short (opp_active p)
          | BLACK => opp_active p
          end ∧
        Position.timeOfPresent p' =
          Z.min (Position.timeOfPresent p)
                (Z.min (Timeline.start_time (fresh_line p t src))
                       (Timeline.start_time other)) ∧
        Position.sideToMove p' = Position.sideToMove p.
Proof.
  intros Hcase.
  assert (Hrange : 0 <= balancing_slot p < Z.of_nat (length (opp_lines p))).
  { unfold own_count, opp_count, balancing_slot, opp_lines,
      Position.positive_timeline_count, Position.negative_timeline_count in *.
    destruct (Position.sideToMove p); lia. }
  destruct (rd_in_range _ _ Hrange) as [other Hother].
  exists other. split; [exact Hother |].
  unfold Position.new_timeline.
  rewrite Hline. simpl. rewrite Hsrc. simpl.
  unfold own_count, opp_count, own_lines, opp_lines, own_active, opp_active,
    balancing_slot in *.
  destruct (Position.sideToMove p) eqn:Hmover.
  - destruct (Z.eqb_spec (Position.positive_timeline_count p)
                         (Position.negative_timeline_count p));
      destruct (Z.eqb_spec (Position.positive_timeline_count p)
                           (Position.negative_timeline_count p - 1));
      destruct (Z.ltb_spec (Position.positive_timeline_count p)
                           (Position.negative_timeline_count p - 1));
      simpl; try lia.
    rewrite Hother. simpl.
    destruct (Timeline.is_active other); [reflexivity |].
    rewrite (wr_in_range _ _ _ Hrange). simpl.
    rewrite (rd_wr_same _ _ _ Hrange). simpl.
    eexists; split; [reflexivity |]; simpl; unfold fresh_line;
      rewrite ?Hmover; auto 10.
  - destruct (Z.eqb_spec (Position.negative_timeline_count p)
                         (Position.positive_timeline_count p));
      destruct (Z.eqb_spec (Position.negative_timeline_count p)
                           (Position.positive_timeline_count p - 1));
      destruct (Z.ltb_spec (Position.negative_timeline_count p)
                           (Position.positive_timeline_count p - 1));
      simpl; try lia.
    rewrite Hother. simpl.
    destruct (Timeline.is_active other); [reflexivity |].
    rewrite (wr_in_range _ _ _ Hrange). simpl.
    rewrite (rd_wr_same _ _ _ Hrange). simpl.
    eexists; split; [reflexivity |]; simpl; unfold fresh_line;
      rewrite ?Hmover; auto 10.
Qed.

End NewTimeline.

(** ** Branch creation: the claims *)

Lemma assertion_holds_behind (p : Position.t) (other : Timeline.t) :
  own_count p < opp_count p - 1 →
  rd (opp_lines p) (balancing_slot p) = Ok other →
  assertion_holds p = true →
  Timeline.is_active other = false.
Proof.
  intros Hcase Hother. unfold assertion_holds.
  destruct (Z.ltb_spec (own_count p) (opp_count p - 1)); [| lia].
  rewrite Hother. destruct (Timeline.is_active other); [discriminate | reflexivity].
Qed.

(** A call on an existing board whose assertion holds returns, and the
    own side gains exactly one line, built from the source board. *)
Lemma new_timeline_returns (p : Position.t) (l : L) (t : Time)
  (tl : Timeline.t) (src : Board2D.t) :
  Position.timeline p l = Ok tl →
  Timeline.board_on_turn tl t (Position.sideToMove p) = Ok src →
  assertion_holds p = true →
  ∃ p' nt, Position.new_timeline p l t = Ok (p', Board2D.passTurn src) ∧
    own_lines p' = own_lines p ++ [nt] ∧
    (nt = fresh_line p t src ∨ nt = Timeline.activate (fresh_line p t src)) ∧
    Position.timeOfPresent p' <= Position.timeOfPresent p ∧
    Position.sideToMove p' = Position.sideToMove p.
Proof.
  intros Hline Hsrc Hassert.
  destruct (Z.lt_trichotomy (own_count p) (opp_count p)) as [Hlt | [Heq | Hgt]].
  - destruct (Z.eq_dec (own_count p) (opp_count p - 1)) as [Heq1 | Hne].
    + destruct (new_timeline_level p l t tl src Hline Hsrc) as (p' & Hp' & Hown & _ & _ & _ & Htop & Hside);
        [right; exact Heq1 |].
      exists p', (Timeline.activate (fresh_line p t src)).
      repeat split; auto; lia.
    + destruct (new_timeline_behind p l t tl src Hline Hsrc) as (other & Hother & Hres);
        [lia |].
      rewrite (assertion_holds_behind p other) in Hres; [| lia | exact Hother | exact Hassert].
      destruct Hres as (p' & Hp' & Hown & _ & _ & _ & Htop & Hside).
      exists p', (Timeline.activate (fresh_line p t src)).
      repeat split; auto; lia.
  - destruct (new_timeline_level p l t tl src Hline Hsrc) as (p' & Hp' & Hown & _ & _ & _ & Htop & Hside);
      [left; exact Heq |].
    exists p', (Timeline.activate (fresh_line p t src)).
    repeat split; auto; lia.
  - destruct (new_timeline_ahead p l t tl src Hline Hsrc) as (p' & Hp' & Hown & _ & _ & _ & Htop & Hside);
      [lia |].
    exists p', (fresh_line p t src).
    repeat split; auto; lia.
Qed.

(** C3, as stated, fails where the source board does not have the mover
    to move.  In [copied_board_position] White is to move, line 1 exists
    and has a board at time 2 on White's ply, and that board has Black
    to move.  The call [new_timeline(1, 2)] returns; the board of the
    new line has White to move, who is the mover and not the opponent,
    and the new line starts at (2, White). *)
Lemma new_board_can_have_the_mover_to_move :
  Position.side_to_move copied_board_position = WHITE ∧
  Board2D.side_to_move <$>
    (tl ← Position.timeline copied_board_position 1;
     Timeline.board_on_turn tl 2 WHITE) = Ok BLACK ∧
  (λ r, (Board2D.side_to_move r.2,
         Board2D.side_to_move <$>
           (tl ← Position.timeline r.1 2; Timeline.first_board tl),
         map Timeline.start_time (Position.positiveLines r.1),
         map Timeline.start_color (Position.positiveLines r.1)))
    <$> Position.new_timeline copied_board_position 1 2
  = Ok (WHITE, Ok WHITE, [1; 1; 2], [WHITE; BLACK; WHITE]).
Proof. vm_compute. repeat split; reflexivity. Qed.

(** C3, amended.  A call [new_timeline(branchLine, branchTime)] on a
    board that exists (and whose assertion, if reached, holds) returns
    and appends one timeline to the mover's side.  Its start time is the
    branch time for White and the branch time plus one for Black.  Its
    only board is the source board copied with the side to move flipped:
    Black for a source board with White to move, White for one with
    Black to move.  That side is the opponent of the mover exactly when
    the source board has the mover to move.  The start colour of the new
    line is the side to move of that board.  The call returns that
    board. *)
Theorem new_timeline_coordinates (p : Position.t) (l : L) (t : Time)
  (tl : Timeline.t) (src : Board2D.t) :
  Position.timeline p l = Ok tl →
  Timeline.board_on_turn tl t (Position.sideToMove p) = Ok src →
  assertion_holds p = true →
  ∃ p' nt newBoard,
    Position.new_timeline p l t = Ok (p', newBoard) ∧
    own_lines p' = own_lines p ++ [nt] ∧
    Timeline.start_time nt =
      t + match Position.sideToMove p with WHITE => 0 | BLACK => 1 end ∧
    Timeline.boards nt = [newBoard] ∧
    Timeline.first_board nt = Ok newBoard ∧
    Board2D.boardWidth newBoard = Board2D.boardWidth src ∧
    Board2D.board newBoard = Board2D.board src ∧
    Board2D.pieceCount newBoard = Board2D.pieceCount src ∧
    Board2D.pieceList newBoard = Board2D.pieceList src ∧
    Board2D.index newBoard = Board2D.index src ∧
    Board2D.side_to_move newBoard =
      match Board2D.side_to_move src with WHITE => BLACK | BLACK => WHITE end ∧
    (Board2D.side_to_move newBoard =
       match Position.sideToMove p with WHITE => BLACK | BLACK => WHITE end
     ↔ Board2D.side_to_move src = Position.sideToMove p) ∧
    Timeline.start_color nt = Board2D.side_to_move newBoard.
Proof.
  intros Hline Hsrc Hassert.
  destruct (new_timeline_returns p l t tl src Hline Hsrc Hassert)
    as (p' & nt & Hp' & Hown & Hnt & _ & _).
  exists p', nt, (Board2D.passTurn src).
  split; [exact Hp' |]. split; [exact Hown |].
  assert (Hstart : Timeline.start_time nt = t + Color_to_int (Position.sideToMove p))
    by (destruct Hnt as [-> | ->]; reflexivity).
  assert (Hboards : Timeline.boards nt = [Board2D.passTurn src])
    by (destruct Hnt as [-> | ->]; reflexivity).
  assert (Hcolor : Timeline.start_color nt = other_color (Board2D.sideToMove src))
    by (destruct Hnt as [-> | ->]; reflexivity).
  split; [rewrite Hstart; destruct (Position.sideToMove p); reflexivity |].
  split; [exact Hboards |].
  split; [unfold Timeline.first_board; rewrite Hboards; reflexivity |].
  do 5 (split; [reflexivity |]).
  split; [destruct src as [w bd cnt pl idx [|]]; reflexivity |].
  split; [| exact Hcolor].
  destruct src as [w bd cnt pl idx [|]]; destruct (Position.sideToMove p);
    split; intros H; try reflexivity; discriminate H.
Qed.

Lemma new_timeline_coordinates_witness :
  ∃ p' nt newBoard,
    Position.new_timeline test_position 0 1 = Ok (p', newBoard) ∧
    own_lines p' = own_lines test_position ++ [nt] ∧
    Timeline.start_time nt = 1 + 0 ∧
    Timeline.boards nt = [newBoard] ∧
    Timeline.first_board nt = Ok newBoard ∧
    Board2D.boardWidth newBoard = Board2D.boardWidth test_board ∧
    Board2D.board newBoard = Board2D.board test_board ∧
    Board2D.pieceCount newBoard = Board2D.pieceCount test_board ∧
    Board2D.pieceList newBoard = Board2D.pieceList test_board ∧
    Board2D.index newBoard = Board2D.index test_board ∧
    Board2D.side_to_move newBoard = BLACK ∧
    (Board2D.side_to_move newBoard = BLACK ↔ Board2D.side_to_move test_board = WHITE) ∧
    Timeline.start_color nt = Board2D.side_to_move newBoard.
Proof.
  apply (new_timeline_coordinates test_position 0 1 test_central_line test_board);
    vm_compute; reflexivity.
Defined.

(** The run of test.cpp: White branches from the central line at time 1,
    takes the black king from d4 and puts it on c4.  The new line starts
    at (1, Black) and is active, and the counters are 1 and 0. *)
Example test_cpp_run :
  ('(p, newBoard) ← Position.new_timeline test_cpp_position 0 1;
   b1 ← Board2D.remove_piece newBoard SQ_D4;
   b2 ← Board2D.put_piece b1 B_KING SQ_C4;
   Ok (counters_and_flags p, Position.time_of_present p,
       map Timeline.start_time (Position.positiveLines p),
       map Timeline.start_color (Position.positiveLines p),
       Board2D.piece_on b2 SQ_D4, Board2D.piece_on b2 SQ_C4,
       locations b2 B_KING, Board2D.side_to_move b2))
  = Ok ((1, 0, [true; true], []), 1, [1; 1], [WHITE; BLACK],
        Ok NO_PIECE, Ok B_KING, [SQ_C4], BLACK).
Proof. vm_compute. reflexivity. Qed.

(** C4, as stated, fails where the two sides are level.  On the position
    of test.cpp (the central line only, White to move) the own count 0
    exceeds the opposing count minus one, and yet the new line is active
    and the positive counter goes from 0 to 1. *)
Lemma surplus_claim_fails_when_level :
  own_count test_position > opp_count test_position - 1 ∧
  counters_and_flags test_position = (0, 0, [true], []) ∧
  counters_after <$> Position.new_timeline test_position 0 1
    = Ok (1, 0, [true; true], []).
Proof. vm_compute. repeat split; reflexivity. Qed.

(** C4, amended.  When the mover's side has more lines than the opposing
    side, a call on an existing board returns, appends the new line to
    the mover's side with its active flag false, and leaves the opposing
    lines, both counters and the time of the present unchanged. *)
Theorem surplus_side_stays_inactive (p : Position.t) (l : L) (t : Time)
  (tl : Timeline.t) (src : Board2D.t) :
  Position.timeline p l = Ok tl →
  Timeline.board_on_turn tl t (Position.sideToMove p) = Ok src →
  own_count p > opp_count p →
  ∃ p' nt newBoard,
    Position.new_timeline p l t = Ok (p', newBoard) ∧
    own_lines p' = own_lines p ++ [nt] ∧
    Timeline.is_active nt = false ∧
    opp_lines p' = opp_lines p ∧
    Position.activePositiveLines p' = Position.activePositiveLines p ∧
    Position.activeNegativeLines p' = Position.activeNegativeLines p ∧
    Position.timeOfPresent p' = Position.timeOfPresent p.
Proof.
  intros Hline Hsrc Hcase.
  destruct (new_timeline_ahead p l t tl src Hline Hsrc Hcase)
    as (p' & Hp' & Hown & Hopp & Hpos & Hneg & Htop & _).
  exists p', (fresh_line p t src), (Board2D.passTurn src).
  repeat split; assumption || reflexivity.
Qed.

Lemma surplus_side_stays_inactive_witness :
  ∃ p' nt newBoard,
    Position.new_timeline white_ahead_position 0 1 = Ok (p', newBoard) ∧
    own_lines p' = own_lines white_ahead_position ++ [nt] ∧
    Timeline.is_active nt = false ∧
    opp_lines p' = opp_lines white_ahead_position ∧
    Position.activePositiveLines p' = Position.activePositiveLines white_ahead_position ∧
    Position.activeNegativeLines p' = Position.activeNegativeLines white_ahead_position ∧
    Position.timeOfPresent p' = Position.timeOfPresent white_ahead_position.
Proof.
  apply (surplus_side_stays_inactive white_ahead_position 0 1
           test_central_line test_board);
    vm_compute; reflexivity.
Defined.

(** C10.  A call of [new_timeline] on an existing board (whose
    assertion, if reached, holds) returns, and the time of the present
    after the call is at most the time of the present before it. *)
Theorem time_of_present_never_grows (p : Position.t) (l : L) (t : Time)
  (tl : Timeline.t) (src : Board2D.t) :
  Position.timeline p l = Ok tl →
  Timeline.board_on_turn tl t (Position.sideToMove p) = Ok src →
  assertion_holds p = true →
  ∃ p' newBoard,
    Position.new_timeline p l t = Ok (p', newBoard) ∧
    Position.time_of_present p' <= Position.time_of_present p.
Proof.
  intros Hline Hsrc Hassert.
  destruct (new_timeline_returns p l t tl src Hline Hsrc Hassert)
    as (p' & nt & Hp' & _ & _ & Htop & _).
  exists p', (Board2D.passTurn src). split; [exact Hp' | exact Htop].
Qed.

Lemma time_of_present_never_grows_witness :
  ∃ p' newBoard,
    Position.new_timeline test_position 0 1 = Ok (p', newBoard) ∧
    Position.time_of_present p' <= Position.time_of_present test_position.
Proof.
  apply (time_of_present_never_grows test_position 0 1 test_central_line test_board);
    vm_compute; reflexivity.
Defined.



(** ** The query [has_board_on_turn] *)

Lemma has_board_on_turn_spec (tl : Timeline.t) (time : Time) (c : Color) :
  Timeline.has_board_on_turn tl time c = true ↔ Timeline.plyToBoardIdx tl time c < 0.
Proof. unfold Timeline.has_board_on_turn. apply Z.ltb_lt. Qed.

Lemma board_on_turn_exists (tl : Timeline.t) (time : Time) (c : Color) :
  (∃ b, Timeline.board_on_turn tl time c = Ok b) ↔
  0 <= Timeline.plyToBoardIdx tl time c < Z.of_nat (length (Timeline.boards tl)).
Proof.
  unfold Timeline.board_on_turn. split.
  - intros [b Hb]. apply rd_Ok_iff in Hb as [H0 Hb].
    apply lookup_lt_Some in Hb. lia.
  - apply rd_in_range.
Qed.

(** C5.  The code on a timeline that starts at (1, White) and holds one
    board.  At (1, White) the ply index is 0 and the board is there, and
    the query answers false.  At (0, Black) the ply index is -1, no board
    is there, and the query answers true. *)
Theorem has_board_on_turn_is_inverted :
  Timeline.plyToBoardIdx one_board_line 1 WHITE = 0 ∧
  Timeline.board_on_turn one_board_line 1 WHITE = Ok test_board ∧
  Timeline.has_board_on_turn one_board_line 1 WHITE = false ∧
  Timeline.plyToBoardIdx one_board_line 0 BLACK = -1 ∧
  Timeline.board_on_turn one_board_line 0 BLACK = Undefined ∧
  Timeline.has_board_on_turn one_board_line 0 BLACK = true.
Proof. vm_compute. repeat split; reflexivity. Qed.

(** ** Activation is permanent *)

Lemma activate_active (tl : Timeline.t) :
  Timeline.is_active tl = true → Timeline.activate tl = tl.
Proof. destruct tl as [st sc a bs pi]. simpl. intros ->. reflexivity. Qed.

Lemma rd_app_l {A : Type} (a b : list A) (i : Z) (x : A) :
  rd a i = Ok x → rd (a ++ b) i = Ok x.
Proof.
  intros H. apply rd_Ok_iff in H as [H0 H]. apply rd_Ok_iff. split; [exact H0 |].
  rewrite lookup_app_l; [exact H | eapply lookup_lt_Some; exact H].
Qed.

Lemma rd_insert {A : Type} (a : list A) (i : Z) (j : nat) (x y : A) :
  rd a i = Ok x →
  rd (<[j := y]> a) i = Ok (if decide (j = Z.to_nat i) then y else x).
Proof.
  intros H. apply rd_Ok_iff in H as [H0 H]. apply rd_Ok_iff. split; [exact H0 |].
  destruct (decide (j = Z.to_nat i)) as [-> | Hne].
  - apply list_lookup_insert_eq. eapply lookup_lt_Some; exact H.
  - rewrite list_lookup_insert_ne; [exact H | exact Hne].
Qed.

Lemma new_timeline_Ok_inv (p p' : Position.t) (l : L) (t : Time) (b : Board2D.t) :
  Position.new_timeline p l t = Ok (p', b) →
  ∃ tl src, Position.timeline p l = Ok tl ∧
            Timeline.board_on_turn tl t (Position.sideToMove p) = Ok src.
Proof.
  unfold Position.new_timeline.
  destruct (Position.timeline p l) as [tl | |] eqn:Hline; simpl; try discriminate.
  destruct (Timeline.board_on_turn tl t (Position.sideToMove p)) as [src | |] eqn:Hsrc;
    simpl; try discriminate.
  intros _. exists tl, src. split; [reflexivity | exact Hsrc].
Qed.

(** A call keeps every line in its place, unchanged or activated. *)
Lemma new_timeline_keeps_lines (p p' : Position.t) (l : L) (t : Time)
  (b : Board2D.t) (k : L) (tl : Timeline.t) :
  Position.new_timeline p l t = Ok (p', b) →
  Position.timeline p k = Ok tl →
  Position.timeline p' k = Ok tl ∨ Position.timeline p' k = Ok (Timeline.activate tl).
Proof.
  intros Hcall Hk.
  destruct (new_timeline_Ok_inv _ _ _ _ _ Hcall) as (tl0 & src & Hline & Hsrc).
  assert (Hlines :
    (own_lines p' = own_lines p ++ [fresh_line p t src] ∨
     own_lines p' = own_lines p ++ [Timeline.activate (fresh_line p t src)]) ∧
    (opp_lines p' = opp_lines p ∨
     ∃ other, rd (opp_lines p) (balancing_slot p) = Ok other ∧
       opp_lines p' =
         <[Z.to_nat (balancing_slot p) := Timeline.activate other]> (opp_lines p)) ∧
    Position.sideToMove p' = Position.sideToMove p).
  { destruct (Z.lt_trichotomy (own_count p) (opp_count p)) as [Hlt | [Heq | Hgt]].
    - destruct (Z.eq_dec (own_count p) (opp_count p - 1)) as [Heq1 | Hne].
      + destruct (new_timeline_level p l t tl0 src Hline Hsrc)
          as (q & Hq & Hown & Hopp & _ & _ & _ & Hside); [right; exact Heq1 |].
        rewrite Hcall in Hq. injection Hq as <- _. auto.
      + destruct (new_timeline_behind p l t tl0 src Hline Hsrc)
          as (other & Hother & Hres); [lia |].
        destruct (Timeline.is_active other); [congruence |].
        destruct Hres as (q & Hq & Hown & Hopp & _ & _ & _ & Hside).
        rewrite Hcall in Hq. injection Hq as <- _.
        split; [right; exact Hown |]. split; [right; exists other; auto | exact Hside].
    - destruct (new_timeline_level p l t tl0 src Hline Hsrc)
        as (q & Hq & Hown & Hopp & _ & _ & _ & Hside); [left; exact Heq |].
      rewrite Hcall in Hq. injection Hq as <- _. auto.
    - destruct (new_timeline_ahead p l t tl0 src Hline Hsrc)
        as (q & Hq & Hown & Hopp & _ & _ & _ & Hside); [lia |].
      rewrite Hcall in Hq. injection Hq as <- _. auto. }
  destruct Hlines as (Hown & Hopp & Hside).
  assert (Hown' : ∀ i x, rd (own_lines p) i = Ok x → rd (own_lines p') i = Ok x).
  { intros i x Hx. destruct Hown as [-> | ->]; apply rd_app_l; exact Hx. }
  assert (Hopp' : ∀ i x, rd (opp_lines p) i = Ok x →
            rd (opp_lines p') i = Ok x ∨ rd (opp_lines p') i = Ok (Timeline.activate x)).
  { intros i x Hx. destruct Hopp as [-> | (other & Hother & ->)]; [left; exact Hx |].
    rewrite (rd_insert _ _ _ _ (Timeline.activate other) Hx).
    destruct (decide (Z.to_nat (balancing_slot p) = Z.to_nat i)) as [Heq | Hne];
      [| left; reflexivity].
    right. apply rd_Ok_iff in Hx as [Hi Hx]. apply rd_Ok_iff in Hother as [Hs Hother].
    rewrite Heq in Hother. congruence. }
  unfold Position.timeline, own_lines, opp_lines in *. rewrite Hside in *.
  destruct (Position.sideToMove p); destruct (0 <=? k); auto.
Qed.

Lemma new_timeline_keeps_active (p p' : Position.t) (l : L) (t : Time)
  (b : Board2D.t) (k : L) (tl : Timeline.t) :
  Position.new_timeline p l t = Ok (p', b) →
  Position.timeline p k = Ok tl →
  Timeline.is_active tl = true →
  Position.timeline p' k = Ok tl.
Proof.
  intros Hcall Hk Hactive.
  destruct (new_timeline_keeps_lines _ _ _ _ _ _ _ Hcall Hk) as [H | H]; [exact H |].
  rewrite (activate_active _ Hactive) in H. exact H.
Qed.

Lemma branch_calls_keep_active (calls : list Call) :
  ∀ (p p' : Position.t) (k : L) (tl : Timeline.t),
    branch_calls calls p = Ok p' →
    Position.timeline p k = Ok tl →
    Timeline.is_active tl = true →
    Position.timeline p' k = Ok tl.
Proof.
  induction calls as [| c r IH]; intros p p' k tl Hrun Hk Hactive.
  - injection Hrun as <-. exact Hk.
  - simpl in Hrun.
    destruct (Position.new_timeline (turn_of (mover c) p) (branchLine c) (branchTime c))
      as [[p1 b] | |] eqn:Hcall; simpl in Hrun; try discriminate.
    apply (IH p1 p' k tl Hrun); [| exact Hactive].
    apply (new_timeline_keeps_active _ _ _ _ _ _ _ Hcall); [| exact Hactive].
    exact Hk.
Qed.

Lemma lines_of_fens_active (fens : list string) :
  ∀ tls, Position.lines_of_fens fens = Ok tls →
         Forall (fun tl => Timeline.is_active tl = true) tls.
Proof.
  induction fens as [| fen r IH]; intros tls H; simpl in H.
  - injection H as <-. constructor.
  - unfold Position.line_of_fen in H.
    destruct (Board2D.set fen) as [board | |]; simpl in H; try discriminate.
    destruct (Position.lines_of_fens r) as [tls' | |]; simpl in H; try discriminate.
    injection H as <-. constructor; [reflexivity | apply IH; reflexivity].
Qed.

Lemma set_all_active (negativeFENs positiveFENs : list string) (p : Position.t)
  (k : L) (tl : Timeline.t) :
  Position.set negativeFENs positiveFENs = Ok p →
  Position.timeline p k = Ok tl →
  Timeline.is_active tl = true.
Proof.
  unfold Position.set. intros Hset Hk.
  destruct (Position.lines_of_fens (rev negativeFENs)) as [nl | |] eqn:Hn;
    simpl in Hset; try discriminate.
  destruct (Position.lines_of_fens positiveFENs) as [pl | |] eqn:Hp;
    simpl in Hset; try discriminate.
  destruct (rd pl 0) as [central | |]; simpl in Hset; try discriminate.
  destruct (Timeline.first_board central) as [first | |]; simpl in Hset; try discriminate.
  injection Hset as <-.
  apply lines_of_fens_active in Hn, Hp.
  unfold Position.timeline in Hk. simpl in Hk.
  destruct (0 <=? k); apply rd_Ok_iff in Hk as [_ Hk];
    apply list_elem_of_lookup_2 in Hk.
  - rewrite Forall_forall in Hp. apply Hp. exact Hk.
  - rewrite Forall_forall in Hn. apply Hn. exact Hk.
Qed.

(** C9.  [activate] sets the flag and is idempotent; each operation of
    [Timeline] that changes the object leaves an active timeline active;
    one call and any sequence of calls of [new_timeline] leave every
    active timeline in its place and unchanged, hence active; and every
    timeline of a position that [set] has built is active. *)
Theorem once_active_always_active :
  (∀ tl, Timeline.is_active (Timeline.activate tl) = true) ∧
  (∀ tl, Timeline.activate (Timeline.activate tl) = Timeline.activate tl) ∧
  (∀ op tl, Timeline.is_active tl = true →
            Timeline.is_active (apply_timeline_op op tl) = true) ∧
  (∀ p p' l t b k tl,
      Position.new_timeline p l t = Ok (p', b) →
      Position.timeline p k = Ok tl →
      Timeline.is_active tl = true →
      Position.timeline p' k = Ok tl) ∧
  (∀ calls p p' k tl,
      branch_calls calls p = Ok p' →
      Position.timeline p k = Ok tl →
      Timeline.is_active tl = true →
      Position.timeline p' k = Ok tl) ∧
  (∀ negativeFENs positiveFENs p k tl,
      Position.set negativeFENs positiveFENs = Ok p →
      Position.timeline p k = Ok tl →
      Timeline.is_active tl = true).
Proof.
  split; [reflexivity |]. split; [reflexivity |].
  split; [intros [| nb | pi] tl H; simpl; [reflexivity | exact H | exact H] |].
  split; [intros p p' l t b k tl; apply new_timeline_keeps_active |].
  split; [intros calls p p' k tl; apply branch_calls_keep_active |].
  intros n ps p k tl. apply set_all_active.
Qed.

Lemma once_active_always_active_witness :
  Position.timeline white_ahead_position 0 = Ok test_central_line.
Proof.
  apply (proj1 (proj2 (proj2 (proj2 once_active_always_active)))
           test_position white_ahead_position 0 1 (Board2D.passTurn test_board)
           0 test_central_line);
    vm_compute; reflexivity.
Defined.

(** ** Balance without a change of the turn *)

(** From a position with the central line only, the first branch of the
    mover is activated and counted, and every later one stays inactive:
    while the turn does not change, the counters keep the balance rule. *)

Lemma turn_of_same (p : Position.t) : turn_of (Position.sideToMove p) p = p.
Proof. destruct p. reflexivity. Qed.

Lemma own_count_length (p : Position.t) :
  own_count p =
  Z.of_nat (length (own_lines p))
  - match Position.sideToMove p with WHITE => 1 | BLACK => 0 end.
Proof.
  unfold own_count, own_lines, Position.positive_timeline_count,
    Position.negative_timeline_count.
  destruct (Position.sideToMove p); lia.
Qed.

Lemma opp_count_length (p : Position.t) :
  opp_count p =
  Z.of_nat (length (opp_lines p))
  - match Position.sideToMove p with WHITE => 0 | BLACK => 1 end.
Proof.
  unfold opp_count, opp_lines, Position.positive_timeline_count,
    Position.negative_timeline_count.
  destruct (Position.sideToMove p); lia.
Qed.

Lemma one_mover_step (p p' : Position.t) (l : L) (t : Time) (b : Board2D.t) :
  opp_count p = 0 → opp_active p = 0 →
  (own_count p = 0 ∧ own_active p = 0) ∨ (1 <= own_count p ∧ own_active p = 1) →
  Position.new_timeline p l t = Ok (p', b) →
  Position.sideToMove p' = Position.sideToMove p ∧
  opp_count p' = 0 ∧ opp_active p' = 0 ∧
  1 <= own_count p' ∧ own_active p' = 1.
Proof.
  intros Hopp Hoa Hown Hcall.
  destruct (new_timeline_Ok_inv _ _ _ _ _ Hcall) as (tl & src & Hline & Hsrc).
  destruct Hown as [[Hown Hact] | [Hown Hact]].
  - destruct (new_timeline_level p l t tl src Hline Hsrc)
      as (q & Hq & Hol & Hpl & Hoa' & Hpa' & _ & Hside); [left; lia |].
    rewrite Hcall in Hq. injection Hq as <- _.
    rewrite (own_count_length p'), (opp_count_length p'), Hol, Hpl, Hside,
      length_app, Hoa', Hpa', Hact.
    rewrite (own_count_length p) in Hown. rewrite (opp_count_length p) in Hopp.
    simpl. repeat split; try lia; reflexivity.
  - destruct (new_timeline_ahead p l t tl src Hline Hsrc)
      as (q & Hq & Hol & Hpl & Hpos & Hneg & _ & Hside); [lia |].
    rewrite Hcall in Hq. injection Hq as <- _.
    rewrite (own_count_length p'), (opp_count_length p'), Hol, Hpl, Hside, length_app.
    rewrite (own_count_length p) in Hown. rewrite (opp_count_length p) in Hopp.
    unfold own_active, opp_active in *. rewrite Hside, Hpos, Hneg.
    simpl. repeat split; try lia; assumption.
Qed.

Lemma one_mover_calls (calls : list Call) :
  ∀ p p' : Position.t,
    Forall (fun c => mover c = Position.sideToMove p) calls →
    opp_count p = 0 → opp_active p = 0 →
    (own_count p = 0 ∧ own_active p = 0) ∨ (1 <= own_count p ∧ own_active p = 1) →
    branch_calls calls p = Ok p' →
    opp_active p' = 0 ∧ (own_active p' = 0 ∨ own_active p' = 1).
Proof.
  induction calls as [| c r IH]; intros p p' Hall Hopp Hoa Hown Hrun.
  - injection Hrun as <-. split; [exact Hoa | lia].
  - inversion Hall as [| c' r' Hc Hr]; subst. simpl in Hrun.
    rewrite Hc, turn_of_same in Hrun.
    destruct (Position.new_timeline p (branchLine c) (branchTime c))
      as [[p1 b] | |] eqn:Hcall; simpl in Hrun; try discriminate.
    destruct (one_mover_step p p1 _ _ _ Hopp Hoa Hown Hcall)
      as (Hside & Hopp1 & Hoa1 & Hown1 & Hact1).
    apply (IH p1 p'); auto.
    rewrite Hside. exact Hr.
Qed.

(** From a position with the central line only and both counters 0,
    calls of [new_timeline] that all have the same side to move keep the
    two counters within one of each other, however many calls return. *)
Lemma balance_kept_by_one_mover (calls : list Call) (p p' : Position.t) :
  central_only p →
  Forall (fun c => mover c = Position.sideToMove p) calls →
  branch_calls calls p = Ok p' →
  balanced p' = true.
Proof.
  intros (Hpos & Hneg & Hap & Han) Hall Hrun.
  destruct (one_mover_calls calls p p' Hall) as [Hoa Hown]; try exact Hrun.
  - unfold opp_count. destruct (Position.sideToMove p); assumption.
  - unfold opp_active. destruct (Position.sideToMove p); assumption.
  - left. unfold own_count, own_active. destruct (Position.sideToMove p); auto.
  - unfold balanced. apply Z.leb_le.
    unfold own_active, opp_active in *.
    destruct (Position.sideToMove p'); lia.
Qed.

(** ** Initialisation *)

Lemma to_short_small (z : Z) : -32768 <= z <= 32767 → to_short z = z.
Proof.
  intros Hz. unfold to_short.
  rewrite Z.mod_small; lia.
Qed.

Lemma lines_of_fens_decode (fens : list string) :
  forallb fen_decodes fens = true →
  ∃ tls, Position.lines_of_fens fens = Ok tls ∧ Forall2 line_decodes fens tls.
Proof.
  induction fens as [| fen r IH]; simpl; intros H.
  - exists []. split; [reflexivity | constructor].
  - apply andb_true_iff in H as [Hfen Hr].
    destruct (IH Hr) as (tls & Htls & Hall).
    unfold fen_decodes in Hfen. unfold Position.line_of_fen.
    destruct (Board2D.set fen) as [b | |] eqn:Hb; try discriminate.
    simpl. rewrite Htls. simpl.
    eexists. split; [reflexivity |].
    constructor; [| exact Hall].
    exists b. repeat split; try reflexivity. exact Hb.
Qed.

Lemma lines_of_fens_replicate (n : nat) (fen : string) (tl : Timeline.t) :
  Position.line_of_fen fen = Ok tl →
  Position.lines_of_fens (replicate n fen) = Ok (replicate n tl).
Proof.
  intros Hfen. induction n as [| n IH]; simpl; [reflexivity |].
  rewrite Hfen. simpl. rewrite IH. reflexivity.
Qed.

(** The positive counter after [set] on [n] copies of one FEN text. *)
Lemma set_replicate_counter (n : nat) (fen : string) (b : Board2D.t) :
  Board2D.set fen = Ok b →
  (0 < n)%nat →
  Position.activePositiveLines <$> Position.set [] (replicate n fen)
    = Ok (to_short (Z.of_nat n - 1)).
Proof.
  intros Hb Hn. unfold Position.set. simpl.
  rewrite (lines_of_fens_replicate n fen
             (Timeline.activate (Timeline.append_board
                (Timeline.make 1 (Board2D.side_to_move b)) b))).
  - destruct n as [| n]; [lia |]. simpl. rewrite length_replicate. reflexivity.
  - unfold Position.line_of_fen. rewrite Hb. reflexivity.
Qed.

(** C7, as stated, fails beyond the range of the [short] counters: with
    32769 positive FEN texts the count minus one is 32768, and the
    positive counter is -32768. *)
Lemma positive_counter_wraps_at_32768 :
  Z.of_nat (length many_fens) - 1 = 32768 ∧
  Position.activePositiveLines <$> Position.set [] many_fens = Ok (-32768).
Proof.
  unfold many_fens. split.
  - rewrite length_replicate, Z2Nat.id by lia. reflexivity.
  - rewrite (set_replicate_counter (Z.to_nat 32769) test_fen test_board).
    + rewrite Z2Nat.id by lia. reflexivity.
    + vm_compute. reflexivity.
    + lia.
Qed.

(** C7, amended.  For FEN texts that decode, a non-empty list of at most
    32768 positive texts and at most 32767 negative texts, [set] returns
    a position in which every timeline starts at time 1 with the side to
    move of its decoded board, holds that board and is active (the
    negative lines in the reverse order of their texts); the positive
    counter is the number of positive texts minus one, the negative
    counter the number of negative texts, the time of the present is 1,
    and the side to move is that of the first positive text's board. *)
Theorem set_postconditions (negativeFENs positiveFENs : list string) :
  positiveFENs ≠ [] →
  forallb fen_decodes (negativeFENs ++ positiveFENs) = true →
  Z.of_nat (length positiveFENs) <= 32768 →
  Z.of_nat (length negativeFENs) <= 32767 →
  ∃ p, Position.set negativeFENs positiveFENs = Ok p ∧
    Forall2 line_decodes (rev negativeFENs) (Position.negativeLines p) ∧
    Forall2 line_decodes positiveFENs (Position.positiveLines p) ∧
    Position.activePositiveLines p = Z.of_nat (length positiveFENs) - 1 ∧
    Position.activeNegativeLines p = Z.of_nat (length negativeFENs) ∧
    Position.time_of_present p = 1 ∧
    ∃ fen rest b, positiveFENs = fen :: rest ∧ Board2D.set fen = Ok b ∧
                  Position.side_to_move p = Board2D.side_to_move b.
Proof.
  intros Hne Hdec Hpos Hneg.
  rewrite forallb_app in Hdec. apply andb_true_iff in Hdec as [Hdn Hdp].
  assert (Hdn' : forallb fen_decodes (rev negativeFENs) = true).
  { apply forallb_forall. intros fen Hin. apply in_rev in Hin.
    rewrite forallb_forall in Hdn. apply Hdn. exact Hin. }
  destruct (lines_of_fens_decode _ Hdn') as (nl & Hnl & Hnall).
  destruct (lines_of_fens_decode _ Hdp) as (pl & Hpl & Hpall).
  unfold Position.set. rewrite Hnl. simpl. rewrite Hpl. simpl.
  destruct positiveFENs as [| fen rest]; [congruence |].
  inversion Hpall as [| fen' central rest' pl' Hcentral Hrest]; subst.
  destruct Hcentral as (b & Hb & Hst & Hsc & Hbs & Hact).
  simpl. unfold Timeline.first_board. rewrite Hbs. simpl.
  eexists. split; [reflexivity |]. simpl.
  split; [exact Hnall |].
  split; [constructor; [exists b; auto | exact Hrest] |].
  split; [apply to_short_small; simpl in Hpos; lia |].
  split; [apply to_short_small; lia |].
  split; [reflexivity |].
  exists fen, rest, b. auto.
Qed.

Lemma set_postconditions_witness :
  ∃ p, Position.set ["3k/4/4/KN2 b"%string] [test_fen; test_fen] = Ok p ∧
    Forall2 line_decodes (rev ["3k/4/4/KN2 b"%string]) (Position.negativeLines p) ∧
    Forall2 line_decodes [test_fen; test_fen] (Position.positiveLines p) ∧
    Position.activePositiveLines p = Z.of_nat (length [test_fen; test_fen]) - 1 ∧
    Position.activeNegativeLines p = Z.of_nat (length ["3k/4/4/KN2 b"%string]) ∧
    Position.time_of_present p = 1 ∧
    ∃ fen rest b, [test_fen; test_fen] = fen :: rest ∧ Board2D.set fen = Ok b ∧
                  Position.side_to_move p = Board2D.side_to_move b.
Proof.
  apply (set_postconditions ["3k/4/4/KN2 b"%string] [test_fen; test_fen]).
  - discriminate.
  - vm_compute. reflexivity.
  - simpl. lia.
  - simpl. lia.
Defined.

(** ** Reads and writes of the arrays of a board *)

(** One step of the sequencing of outcomes. *)
Ltac ostep := cbn [mbind outcome_bind obind].

Lemma rd_set {A : Type} (a : list A) (i j : Z) (x : A) :
  0 <= i < Z.of_nat (length a) →
  rd (<[Z.to_nat i := x]> a) j = if i =? j then Ok x else rd a j.
Proof.
  intros Hi. destruct (Z.eqb_spec i j) as [<- | Hne].
  - apply rd_wr_same. exact Hi.
  - unfold rd. destruct (Z.leb_spec 0 j) as [Hj | Hj]; [| reflexivity].
    rewrite list_lookup_insert_ne; [reflexivity | lia].
Qed.

Lemma rd_Ok_range {A : Type} (a : list A) (i : Z) (x : A) :
  rd a i = Ok x → 0 <= i < Z.of_nat (length a).
Proof.
  intros H. apply rd_Ok_iff in H as [H0 H]. apply lookup_lt_Some in H. lia.
Qed.

Lemma board_wf_spec (b : Board2D.t) :
  board_wf b = true ↔
  length (Board2D.board b) = 64%nat ∧
  length (Board2D.pieceCount b) = 16%nat ∧
  length (Board2D.pieceList b) = 16%nat ∧
  (∀ pc row, rd (Board2D.pieceList b) pc = Ok row → length row = 16%nat) ∧
  length (Board2D.index b) = 64%nat.
Proof.
  unfold board_wf. rewrite !andb_true_iff, !Nat.eqb_eq, forallb_forall.
  split.
  - intros ((((H1 & H2) & H3) & H4) & H5). repeat split; try assumption.
    intros pc row Hrow. apply rd_Ok_iff in Hrow as [_ Hrow].
    apply Nat.eqb_eq, H4. apply list_elem_of_In.
    eapply list_elem_of_lookup_2. exact Hrow.
  - intros (H1 & H2 & H3 & H4 & H5). repeat split; try assumption.
    intros row Hin. apply Nat.eqb_eq.
    apply list_elem_of_In, list_elem_of_lookup in Hin as [i Hi].
    apply (H4 (Z.of_nat i)). apply rd_Ok_iff. split; [lia |].
    rewrite Nat2Z.id. exact Hi.
Qed.

Lemma all_pieces_slot (pc : Piece) :
  make_piece (color_of pc) ALL_PIECES = 0 ∨ make_piece (color_of pc) ALL_PIECES = 8.
Proof.
  unfold make_piece, color_of, Color_of_int.
  destruct (Z.shiftr pc 3 =? 0); [left | right]; reflexivity.
Qed.

(** [put_piece] in closed form: with the indices in range and a free
    slot in the row of the piece, the call returns, whatever the square
    holds. *)
Lemma put_piece_result (b : Board2D.t) (pc : Piece) (s : Square2D) (n : Z)
  (row : list Square2D) :
  board_wf b = true →
  0 <= s < 64 →
  rd (Board2D.pieceCount b) pc = Ok n →
  0 <= n < 16 →
  rd (Board2D.pieceList b) pc = Ok row →
  let all := make_piece (color_of pc) ALL_PIECES in
  let pieceCount1 := <[Z.to_nat pc := n + 1]> (Board2D.pieceCount b) in
  ∃ m, rd pieceCount1 all = Ok m ∧
    Board2D.put_piece b pc s =
      Ok (Board2D.Build (Board2D.boardWidth b)
            (<[Z.to_nat s := pc]> (Board2D.board b))
            (<[Z.to_nat all := m + 1]> pieceCount1)
            (<[Z.to_nat pc := <[Z.to_nat n := s]> row]> (Board2D.pieceList b))
            (<[Z.to_nat s := n]> (Board2D.index b))
            (Board2D.sideToMove b)).
Proof.
  intros Hwf Hs Hn Hn16 Hrow all pieceCount1.
  apply board_wf_spec in Hwf as (Hb & Hc & Hl & Hrows & Hi).
  pose proof (rd_Ok_range _ _ _ Hn) as Hpc. rewrite Hc in Hpc.
  pose proof (Hrows _ _ Hrow) as Hlen.
  assert (Hall : 0 <= all < Z.of_nat (length pieceCount1)).
  { subst pieceCount1. rewrite length_insert, Hc.
    destruct (all_pieces_slot pc) as [H | H]; fold all in H; lia. }
  destruct (rd_in_range _ _ Hall) as [m Hm].
  exists m. split; [exact Hm |].
  unfold Board2D.put_piece.
  rewrite (wr_in_range (Board2D.board b)) by lia. simpl.
  rewrite Hn. simpl.
  rewrite (wr_in_range (Board2D.pieceCount b)) by lia. simpl.
  rewrite (wr_in_range (Board2D.index b)) by lia. simpl.
  rewrite rd_wr_same by lia. simpl.
  rewrite Hrow. simpl.
  rewrite (wr_in_range row) by lia. simpl.
  rewrite (wr_in_range (Board2D.pieceList b)) by lia. simpl.
  fold all. fold pieceCount1. rewrite Hm. simpl.
  rewrite (wr_in_range pieceCount1) by lia. simpl.
  reflexivity.
Qed.

(** [remove_piece] in closed form. *)
Lemma remove_piece_result (b : Board2D.t) (s : Square2D) (pc : Piece) (n : Z)
  (row : list Square2D) (lastSquare : Square2D) (i : Z) :
  board_wf b = true →
  rd (Board2D.board b) s = Ok pc →
  rd (Board2D.pieceCount b) pc = Ok n →
  rd (Board2D.pieceList b) pc = Ok row →
  rd row (n - 1) = Ok lastSquare →
  0 <= lastSquare < 64 →
  rd (Board2D.index b) s = Ok i →
  0 <= i < 16 →
  let all := make_piece (color_of pc) ALL_PIECES in
  let pieceCount1 := <[Z.to_nat pc := n - 1]> (Board2D.pieceCount b) in
  ∃ m, rd pieceCount1 all = Ok m ∧
    Board2D.remove_piece b s =
      Ok (Board2D.Build (Board2D.boardWidth b)
            (<[Z.to_nat s := NO_PIECE]> (Board2D.board b))
            (<[Z.to_nat all := m - 1]> pieceCount1)
            (<[Z.to_nat pc :=
                 <[Z.to_nat (n - 1) := SQ_NONE]> (<[Z.to_nat i := lastSquare]> row)]>
               (Board2D.pieceList b))
            (<[Z.to_nat lastSquare := i]> (Board2D.index b))
            (Board2D.sideToMove b)).
Proof.
  intros Hwf Hpc Hn Hrow Hlast Hlast64 Hi Hi16 all pieceCount1.
  apply board_wf_spec in Hwf as (Hb & Hc & Hl & Hrows & Hx).
  pose proof (rd_Ok_range _ _ _ Hpc) as Hs. rewrite Hb in Hs.
  pose proof (rd_Ok_range _ _ _ Hn) as Hpc16. rewrite Hc in Hpc16.
  pose proof (Hrows _ _ Hrow) as Hlen.
  pose proof (rd_Ok_range _ _ _ Hlast) as Hn16. rewrite Hlen in Hn16.
  assert (Hall : 0 <= all < Z.of_nat (length pieceCount1)).
  { subst pieceCount1. rewrite length_insert, Hc.
    destruct (all_pieces_slot pc) as [H | H]; fold all in H; lia. }
  destruct (rd_in_range _ _ Hall) as [m Hm].
  exists m. split; [exact Hm |].
  unfold Board2D.remove_piece.
  rewrite Hpc. ostep.
  rewrite (wr_in_range (Board2D.board b)) by lia. ostep.
  rewrite Hn. ostep.
  rewrite (wr_in_range (Board2D.pieceCount b)) by lia. ostep.
  rewrite Hrow. ostep. rewrite Hlast. ostep. rewrite Hi. ostep.
  rewrite (wr_in_range (Board2D.index b)) by lia. ostep.
  rewrite (rd_wr_same (Board2D.index b)) by lia. ostep.
  rewrite (wr_in_range row) by lia. ostep.
  rewrite (rd_wr_same (Board2D.pieceCount b)) by lia. ostep.
  rewrite (wr_in_range (<[Z.to_nat i := lastSquare]> row))
    by (rewrite length_insert; lia). ostep.
  rewrite (wr_in_range (Board2D.pieceList b)) by lia. ostep.
  fold all. fold pieceCount1. rewrite Hm. ostep.
  rewrite (wr_in_range pieceCount1) by lia. ostep.
  reflexivity.
Qed.

(** ** Precondition violations *)

Lemma put_piece_not_AssertFail (b : Board2D.t) (pc : Piece) (s : Square2D) :
  Board2D.put_piece b pc s ≠ AssertFail.
Proof.
  unfold Board2D.put_piece, mbind, outcome_bind.
  repeat (apply obind_not_AssertFail;
          [first [apply rd_not_AssertFail | apply wr_not_AssertFail] | intros ?]).
  discriminate.
Qed.

Lemma remove_piece_not_AssertFail (b : Board2D.t) (s : Square2D) :
  Board2D.remove_piece b s ≠ AssertFail.
Proof.
  unfold Board2D.remove_piece, mbind, outcome_bind.
  repeat (apply obind_not_AssertFail;
          [first [apply rd_not_AssertFail | apply wr_not_AssertFail] | intros ?]).
  discriminate.
Qed.

Lemma timeline_out_of_range (p : Position.t) (l : L) :
  ¬ (if 0 <=? l
     then l < Z.of_nat (length (Position.positiveLines p))
     else - l - 1 < Z.of_nat (length (Position.negativeLines p))) →
  Position.timeline p l = Undefined.
Proof.
  unfold Position.timeline. destruct (Z.leb_spec 0 l) as [Hl | Hl]; intros H;
    apply rd_out_of_range; lia.
Qed.

Lemma new_timeline_AssertFail_inv (p : Position.t) (l : L) (t : Time) :
  Position.new_timeline p l t = AssertFail →
  own_count p < opp_count p - 1 ∧
  ∃ other, rd (opp_lines p) (balancing_slot p) = Ok other ∧
           Timeline.is_active other = true.
Proof.
  intros Hcall.
  assert (Hinv : ∃ tl src, Position.timeline p l = Ok tl ∧
            Timeline.board_on_turn tl t (Position.sideToMove p) = Ok src).
  { unfold Position.new_timeline in Hcall.
    destruct (Position.timeline p l) as [tl | |] eqn:Hline; simpl in Hcall.
    - destruct (Timeline.board_on_turn tl t (Position.sideToMove p)) as [src | |] eqn:Hsrc;
        simpl in Hcall.
      + exists tl, src. split; [reflexivity | exact Hsrc].
      + exfalso. revert Hsrc. apply rd_not_AssertFail.
      + discriminate.
    - exfalso. revert Hline. unfold Position.timeline.
      destruct (0 <=? l); apply rd_not_AssertFail.
    - discriminate. }
  destruct Hinv as (tl & src & Hline & Hsrc).
  destruct (Z.lt_trichotomy (own_count p) (opp_count p)) as [Hlt | [Heq | Hgt]].
  - destruct (Z.eq_dec (own_count p) (opp_count p - 1)) as [Heq1 | Hne].
    + destruct (new_timeline_level p l t tl src Hline Hsrc) as (q & Hq & _);
        [right; exact Heq1 | congruence].
    + destruct (new_timeline_behind p l t tl src Hline Hsrc)
        as (other & Hother & Hres); [lia |].
      split; [lia |]. exists other. split; [exact Hother |].
      destruct (Timeline.is_active other); [reflexivity |].
      destruct Hres as (q & Hq & _). congruence.
  - destruct (new_timeline_level p l t tl src Hline Hsrc) as (q & Hq & _);
      [left; exact Heq | congruence].
  - destruct (new_timeline_ahead p l t tl src Hline Hsrc) as (q & Hq & _);
      [lia | congruence].
Qed.

(** C8, as stated, fails: [put_piece] onto an occupied square proceeds.
    On the board of test.cpp the white king stands on a1; putting the
    black king there returns a board with the black king on a1, and the
    white king is still in its piece list.  Likewise [remove_piece] from
    the empty square b1 of a value-initialised board that holds a king
    returns, with the count of white pieces at -1. *)
Lemma put_piece_on_occupied_square_proceeds :
  Board2D.piece_on test_board SQ_A1 = Ok W_KING ∧
  (fun b => (Board2D.piece_on b SQ_A1, locations b W_KING, locations b B_KING))
    <$> Board2D.put_piece test_board B_KING SQ_A1
    = Ok (Ok B_KING, [SQ_A1], [SQ_D4; SQ_A1]) ∧
  Board2D.piece_on king_on_zeroed SQ_B1 = Ok NO_PIECE ∧
  (fun b => rd (Board2D.pieceCount b) (make_piece WHITE ALL_PIECES))
    <$> Board2D.remove_piece king_on_zeroed SQ_B1
    = Ok (Ok (-1)).
Proof. vm_compute. repeat split; reflexivity. Qed.

(** C8, amended.  None of the four violations is detected.
    [put_piece] and [remove_piece] never stop on an assertion, and
    [put_piece] returns with the piece on the square whenever its
    indices are in range, whether the square was empty or not.  Reading
    a ply that does not exist, looking up a timeline that does not exist
    and branching from either are unchecked accesses: undefined
    behaviour, with no assertion and no default board.  The only
    fail-fast check is the assertion of [new_timeline] on the balancing
    line. *)
Theorem precondition_violations_unchecked :
  (∀ b pc s, Board2D.put_piece b pc s ≠ AssertFail) ∧
  (∀ b pc s n,
      board_wf b = true → 0 <= s < 64 →
      rd (Board2D.pieceCount b) pc = Ok n → 0 <= n < 16 →
      ∃ b', Board2D.put_piece b pc s = Ok b' ∧ Board2D.piece_on b' s = Ok pc) ∧
  (∀ b s, Board2D.remove_piece b s ≠ AssertFail) ∧
  (∀ tl time c,
      ¬ (0 <= Timeline.plyToBoardIdx tl time c < Z.of_nat (length (Timeline.boards tl))) →
      Timeline.board_on_turn tl time c = Undefined) ∧
  (∀ p l,
      ¬ (if 0 <=? l
         then l < Z.of_nat (length (Position.positiveLines p))
         else - l - 1 < Z.of_nat (length (Position.negativeLines p))) →
      Position.timeline p l = Undefined) ∧
  (∀ p l t, Position.timeline p l = Undefined →
            Position.new_timeline p l t = Undefined) ∧
  (∀ p l t tl,
      Position.timeline p l = Ok tl →
      Timeline.board_on_turn tl t (Position.sideToMove p) = Undefined →
      Position.new_timeline p l t = Undefined) ∧
  (∀ p l t,
      Position.new_timeline p l t = AssertFail →
      own_count p < opp_count p - 1 ∧
      ∃ other, rd (opp_lines p) (balancing_slot p) = Ok other ∧
               Timeline.is_active other = true).
Proof.
  split; [exact put_piece_not_AssertFail |].
  split.
  { intros b pc s n Hwf Hs Hn Hn16.
    pose proof Hwf as Hwf'. apply board_wf_spec in Hwf' as (Hb & Hc & Hl & _ & _).
    pose proof (rd_Ok_range _ _ _ Hn) as Hpc. rewrite Hc in Hpc.
    destruct (rd_in_range (Board2D.pieceList b) pc) as [row Hrow]; [lia |].
    destruct (put_piece_result b pc s n row Hwf Hs Hn Hn16 Hrow) as (m & _ & Hput).
    eexists. split; [exact Hput |].
    unfold Board2D.piece_on. simpl. apply rd_wr_same. lia. }
  split; [exact remove_piece_not_AssertFail |].
  split; [intros tl time c; apply rd_out_of_range |].
  split; [exact timeline_out_of_range |].
  split.
  { intros p l t H. unfold Position.new_timeline. rewrite H. reflexivity. }
  split.
  { intros p l t tl Hline H. unfold Position.new_timeline.
    rewrite Hline. simpl. rewrite H. reflexivity. }
  exact new_timeline_AssertFail_inv.
Qed.

Lemma precondition_violations_unchecked_witness :
  ∃ b', Board2D.put_piece test_board B_KING SQ_A1 = Ok b' ∧
        Board2D.piece_on b' SQ_A1 = Ok B_KING.
Proof.
  apply (proj1 (proj2 precondition_violations_unchecked) test_board B_KING SQ_A1 1).
  - vm_compute. reflexivity.
  - unfold SQ_A1. lia.
  - vm_compute. reflexivity.
  - lia.
Defined.

(** ** Piece bookkeeping *)

Lemma is_piece_range (pc : Piece) :
  is_piece pc = true → 0 < pc < 16 ∧ pc ≠ 8.
Proof.
  unfold is_piece, Pieces. simpl.
  rewrite !orb_true_iff, !Z.eqb_eq.
  unfold W_PAWN, W_KNIGHT, W_BISHOP, W_ROOK, W_QUEEN, W_KING,
    B_PAWN, B_KNIGHT, B_BISHOP, B_ROOK, B_QUEEN, B_KING.
  intros H. lia.
Qed.

Lemma all_pieces_slot_not_piece (pc0 pc : Piece) :
  is_piece pc = true → make_piece (color_of pc0) ALL_PIECES ≠ pc.
Proof.
  intros Hpc. apply is_piece_range in Hpc.
  destruct (all_pieces_slot pc0) as [-> | ->]; lia.
Qed.

Lemma count_occ_insert (l : list Z) (z old new : Z) :
  ∀ i : nat, l !! i = Some old →
    (count_occ Z.eq_dec (<[i := new]> l) z + (if Z.eq_dec old z then 1 else 0)
     = count_occ Z.eq_dec l z + (if Z.eq_dec new z then 1 else 0))%nat.
Proof.
  induction l as [| x l IH]; intros i Hi; [discriminate |].
  destruct i as [| i]; simpl in *.
  - injection Hi as ->.
    destruct (Z.eq_dec new z), (Z.eq_dec old z); lia.
  - specialize (IH i Hi). destruct (Z.eq_dec x z); lia.
Qed.

Lemma occurrences_set (b b' : Board2D.t) (s : Square2D) (old new z : Piece) :
  rd (Board2D.board b) s = Ok old →
  Board2D.board b' = <[Z.to_nat s := new]> (Board2D.board b) →
  occurrences b' z =
    occurrences b z - (if old =? z then 1 else 0) + (if new =? z then 1 else 0).
Proof.
  intros Hold Hb'. apply rd_Ok_iff in Hold as [_ Hold].
  unfold occurrences. rewrite Hb'.
  pose proof (count_occ_insert (Board2D.board b) z old new _ Hold) as H.
  destruct (Z.eqb_spec old z), (Z.eqb_spec new z),
    (Z.eq_dec old z), (Z.eq_dec new z); try contradiction; lia.
Qed.

Lemma is_empty_square_spec (b : Board2D.t) (s : Square2D) :
  is_empty_square b s = true ↔ rd (Board2D.board b) s = Ok NO_PIECE.
Proof.
  unfold is_empty_square, Board2D.empty, Board2D.piece_on.
  destruct (rd (Board2D.board b) s) as [pc | |]; simpl.
  - destruct (Z.eqb_spec pc NO_PIECE) as [-> | Hne]; split; try reflexivity;
      try discriminate. intros [= H]. contradiction.
  - split; discriminate.
  - split; discriminate.
Qed.

Lemma is_occupied_square_spec (b : Board2D.t) (s : Square2D) :
  is_occupied_square b s = true ↔
  ∃ pc, rd (Board2D.board b) s = Ok pc ∧ pc ≠ NO_PIECE.
Proof.
  unfold is_occupied_square, Board2D.empty, Board2D.piece_on.
  destruct (rd (Board2D.board b) s) as [pc | |]; simpl.
  - destruct (Z.eqb_spec pc NO_PIECE) as [-> | Hne]; simpl; split.
    + discriminate.
    + intros (pc & [= <-] & H). contradiction.
    + intros _. exists pc. split; [reflexivity | exact Hne].
    + reflexivity.
  - split; [discriminate | intros (pc & H & _); discriminate].
  - split; [discriminate | intros (pc & H & _); discriminate].
Qed.

Lemma board_inv_cleared : board_inv Board2D.cleared.
Proof.
  split; [vm_compute; reflexivity |].
  unfold piece_tracked, occurrences, Board2D.cleared.
  cbn [Board2D.board Board2D.pieceCount Board2D.pieceList Board2D.index].
  split.
  - intros s pc Hs. left. apply rd_Ok_iff in Hs as [_ Hs].
    apply lookup_replicate in Hs as [-> _]. reflexivity.
  - intros pc Hpc. pose proof (is_piece_range pc Hpc) as [Hr _].
    exists 0, (replicate 16 SQ_NONE).
    split; [apply rd_Ok_iff; split; [lia |]; apply lookup_replicate; split; [reflexivity | lia] |].
    split; [apply rd_Ok_iff; split; [lia |]; apply lookup_replicate; split; [reflexivity | lia] |].
    split.
    + rewrite (proj1 (count_occ_not_In Z.eq_dec (replicate 64 NO_PIECE) pc));
        [reflexivity |].
      intros Hin. apply list_elem_of_In, elem_of_replicate in Hin as [Hin _].
      unfold NO_PIECE in Hin. lia.
    + split; [intros i Hi; lia |].
      intros s Hs. apply rd_Ok_iff in Hs as [_ Hs].
      apply lookup_replicate in Hs as [Hs _]. unfold NO_PIECE in Hs. lia.
Qed.

Ltac fields :=
  cbn [Board2D.boardWidth Board2D.board Board2D.pieceCount Board2D.pieceList
       Board2D.index Board2D.sideToMove].

(** Decide the comparisons [a =? b] of the goal by arithmetic. *)
Ltac eqb_cases :=
  repeat match goal with
    | |- context [?a =? ?b] =>
        destruct (Z.eqb_spec a b); try lia; try congruence
    end.

Lemma rd_differs {A : Type} (a : list A) (i j : Z) (x y : A) :
  rd a i = Ok x → rd a j = Ok y → x ≠ y → i ≠ j.
Proof. intros Hi Hj Hne ->. congruence. Qed.

Lemma put_piece_preserves (b : Board2D.t) (pc0 : Piece) (s0 : Square2D) :
  board_inv b →
  op_fits b (Put pc0 s0) = true →
  ∃ b', Board2D.put_piece b pc0 s0 = Ok b' ∧ board_inv b'.
Proof.
  intros (Hwf & Honly & Htracked) Hfits.
  unfold op_fits, op_allowed in Hfits. rewrite !andb_true_iff in Hfits.
  destruct Hfits as [[Hpc0 Hempty] Hcap].
  apply Z.ltb_lt in Hcap. apply is_empty_square_spec in Hempty.
  pose proof (is_piece_range pc0 Hpc0) as [Hpc0r Hpc08].
  destruct (Htracked pc0 Hpc0) as (n0 & row0 & Hn0 & Hrow0 & Hocc0 & Hfwd0 & Hbwd0).
  pose proof Hwf as Hwf'. apply board_wf_spec in Hwf' as (Hlb & Hlc & Hll & Hrows & Hli).
  pose proof (rd_Ok_range _ _ _ Hempty) as Hs0. rewrite Hlb in Hs0.
  assert (Hn016 : 0 <= n0 < 16) by (unfold occurrences in Hocc0, Hcap; lia).
  pose proof (Hrows _ _ Hrow0) as Hlrow0.
  destruct (put_piece_result b pc0 s0 n0 row0 Hwf Hs0 Hn0 Hn016 Hrow0)
    as (m & Hm & Hput).
  eexists. split; [exact Hput |].
  match goal with |- board_inv ?x => set (b' := x) end.
  assert (Hboard' : ∀ s, rd (Board2D.board b') s =
            if s0 =? s then Ok pc0 else rd (Board2D.board b) s)
    by (intros s; subst b'; fields; apply rd_set; lia).
  assert (Hindex' : ∀ s, rd (Board2D.index b') s =
            if s0 =? s then Ok n0 else rd (Board2D.index b) s)
    by (intros s; subst b'; fields; apply rd_set; lia).
  assert (Hlist' : ∀ pc, rd (Board2D.pieceList b') pc =
            if pc0 =? pc then Ok (<[Z.to_nat n0 := s0]> row0)
            else rd (Board2D.pieceList b) pc)
    by (intros pc; subst b'; fields; apply rd_set; lia).
  assert (Hrow' : ∀ i, rd (<[Z.to_nat n0 := s0]> row0) i =
            if n0 =? i then Ok s0 else rd row0 i)
    by (intros i; apply rd_set; lia).
  assert (Hcnt' : ∀ pc, is_piece pc = true →
            rd (Board2D.pieceCount b') pc =
            if pc0 =? pc then Ok (n0 + 1) else rd (Board2D.pieceCount b) pc).
  { intros pc Hpc. subst b'. fields.
    pose proof (all_pieces_slot_not_piece pc0 pc Hpc) as Hall.
    destruct (all_pieces_slot pc0) as [Ha | Ha];
      rewrite rd_set by (rewrite length_insert; lia);
      rewrite rd_set by lia; eqb_cases. }
  assert (Hocc' : ∀ pc, is_piece pc = true →
            occurrences b' pc = occurrences b pc + (if pc0 =? pc then 1 else 0)).
  { intros pc Hpc. pose proof (is_piece_range pc Hpc) as [Hr _].
    rewrite (occurrences_set b b' s0 NO_PIECE pc0 pc Hempty eq_refl).
    unfold NO_PIECE. eqb_cases. }
  split; [| split].
  - apply board_wf_spec.
    assert (Hrows' : ∀ pc row, rd (Board2D.pieceList b') pc = Ok row →
              length row = 16%nat).
    { intros pc row Hrow. rewrite Hlist' in Hrow. destruct (pc0 =? pc).
      - injection Hrow as <-. rewrite length_insert. exact Hlrow0.
      - eapply Hrows. exact Hrow. }
    split; [| split; [| split; [| split; [exact Hrows' |]]]];
      subst b'; fields; rewrite !length_insert; assumption.
  - intros s pc Hs. rewrite Hboard' in Hs. destruct (s0 =? s).
    + injection Hs as <-. right. exact Hpc0.
    + eapply Honly. exact Hs.
  - intros pc Hpc.
    pose proof (is_piece_range pc Hpc) as [Hpcr _].
    destruct (Htracked pc Hpc) as (n & row & Hn & Hrow & Hocc & Hfwd & Hbwd).
    destruct (Z.eq_dec pc0 pc) as [<- | Hne].
    + exists (n0 + 1), (<[Z.to_nat n0 := s0]> row0).
      split; [rewrite Hcnt' by exact Hpc; eqb_cases |].
      split; [rewrite Hlist'; eqb_cases |].
      split; [rewrite Hocc' by exact Hpc; eqb_cases |].
      split.
      * intros i Hi. destruct (Z.eq_dec i n0) as [-> | Hin].
        -- exists s0. rewrite Hrow', Hboard', Hindex'. eqb_cases. auto.
        -- destruct (Hfwd0 i) as (q & Hq1 & Hq2 & Hq3); [lia |].
           exists q. rewrite Hrow', Hboard', Hindex'.
           assert (q ≠ s0)
             by (apply (rd_differs _ _ _ _ _ Hq2 Hempty); unfold NO_PIECE; lia).
           eqb_cases. auto.
      * intros s Hs. rewrite Hboard' in Hs.
        destruct (Z.eqb_spec s0 s) as [Heq | Hsne].
        -- subst s. exists n0. rewrite Hindex', Hrow'. eqb_cases.
           split; [lia | auto].
        -- destruct (Hbwd0 s Hs) as (i & Hi & Hi1 & Hi2).
           exists i. rewrite Hindex', Hrow'. eqb_cases.
           split; [lia | auto].
    + exists n, row.
      split; [rewrite Hcnt' by exact Hpc; eqb_cases |].
      split; [rewrite Hlist'; eqb_cases |].
      split; [rewrite Hocc' by exact Hpc; eqb_cases |].
      split.
      * intros i Hi. destruct (Hfwd i Hi) as (q & Hq1 & Hq2 & Hq3).
        exists q. rewrite Hboard', Hindex'.
        assert (q ≠ s0)
          by (apply (rd_differs _ _ _ _ _ Hq2 Hempty); unfold NO_PIECE; lia).
        eqb_cases. auto.
      * intros s Hs. rewrite Hboard' in Hs.
        destruct (Z.eqb_spec s0 s) as [Heq | Hsne]; [congruence |].
        destruct (Hbwd s Hs) as (i & Hi & Hi1 & Hi2).
        exists i. rewrite Hindex'. eqb_cases. auto.
Qed.

Lemma remove_piece_preserves (b : Board2D.t) (s0 : Square2D) :
  board_inv b →
  op_fits b (Remove s0) = true →
  ∃ b', Board2D.remove_piece b s0 = Ok b' ∧ board_inv b'.
Proof.
  intros (Hwf & Honly & Htracked) Hfits.
  unfold op_fits, op_allowed in Hfits.
  apply is_occupied_square_spec in Hfits as (pc0 & Hs0 & Hne0).
  destruct (Honly s0 pc0 Hs0) as [-> | Hpc0]; [contradiction |].
  pose proof (is_piece_range pc0 Hpc0) as [Hpc0r Hpc08].
  destruct (Htracked pc0 Hpc0) as (n0 & row0 & Hn0 & Hrow0 & Hocc0 & Hfwd0 & Hbwd0).
  destruct (Hbwd0 s0 Hs0) as (i0 & Hi0 & Hidx0 & Hrow0i0).
  destruct (Hfwd0 (n0 - 1)) as (last & Hlast & Hlastb & Hlasti); [lia |].
  pose proof Hwf as Hwf'. apply board_wf_spec in Hwf' as (Hlb & Hlc & Hll & Hrows & Hli).
  pose proof (Hrows _ _ Hrow0) as Hlrow0.
  pose proof (rd_Ok_range _ _ _ Hlast) as Hn016. rewrite Hlrow0 in Hn016.
  pose proof (rd_Ok_range _ _ _ Hlastb) as Hlast64. rewrite Hlb in Hlast64.
  pose proof (rd_Ok_range _ _ _ Hs0) as Hs064. rewrite Hlb in Hs064.
  assert (Hi016 : 0 <= i0 < 16) by lia.
  destruct (remove_piece_result b s0 pc0 n0 row0 last i0
              Hwf Hs0 Hn0 Hrow0 Hlast Hlast64 Hidx0 Hi016) as (m & Hm & Hrem).
  eexists. split; [exact Hrem |].
  match goal with |- board_inv ?x => set (b' := x) end.
  set (row0' := <[Z.to_nat (n0 - 1) := SQ_NONE]> (<[Z.to_nat i0 := last]> row0)) in *.
  assert (Hboard' : ∀ s, rd (Board2D.board b') s =
            if s0 =? s then Ok NO_PIECE else rd (Board2D.board b) s)
    by (intros s; subst b'; fields; apply rd_set; lia).
  assert (Hindex' : ∀ s, rd (Board2D.index b') s =
            if last =? s then Ok i0 else rd (Board2D.index b) s)
    by (intros s; subst b'; fields; apply rd_set; lia).
  assert (Hlist' : ∀ pc, rd (Board2D.pieceList b') pc =
            if pc0 =? pc then Ok row0' else rd (Board2D.pieceList b) pc)
    by (intros pc; subst b'; fields; apply rd_set; lia).
  assert (Hrow' : ∀ i, rd row0' i =
            if n0 - 1 =? i then Ok SQ_NONE
            else if i0 =? i then Ok last else rd row0 i).
  { intros i. subst row0'. rewrite rd_set by (rewrite length_insert; lia).
    rewrite rd_set by lia. reflexivity. }
  assert (Hcnt' : ∀ pc, is_piece pc = true →
            rd (Board2D.pieceCount b') pc =
            if pc0 =? pc then Ok (n0 - 1) else rd (Board2D.pieceCount b) pc).
  { intros pc Hpc. subst b'. fields.
    pose proof (all_pieces_slot_not_piece pc0 pc Hpc) as Hall.
    destruct (all_pieces_slot pc0) as [Ha | Ha];
      rewrite rd_set by (rewrite length_insert; lia);
      rewrite rd_set by lia; eqb_cases. }
  assert (Hocc' : ∀ pc, is_piece pc = true →
            occurrences b' pc = occurrences b pc - (if pc0 =? pc then 1 else 0)).
  { intros pc Hpc. pose proof (is_piece_range pc Hpc) as [Hr _].
    rewrite (occurrences_set b b' s0 pc0 NO_PIECE pc Hs0 eq_refl).
    unfold NO_PIECE. eqb_cases. }
  split; [| split].
  - apply board_wf_spec.
    assert (Hrows' : ∀ pc row, rd (Board2D.pieceList b') pc = Ok row →
              length row = 16%nat).
    { intros pc row Hrow. rewrite Hlist' in Hrow. destruct (pc0 =? pc).
      - injection Hrow as <-. subst row0'. rewrite !length_insert. exact Hlrow0.
      - eapply Hrows. exact Hrow. }
    split; [| split; [| split; [| split; [exact Hrows' |]]]];
      subst b'; fields; rewrite !length_insert; assumption.
  - intros s pc Hs. rewrite Hboard' in Hs. destruct (s0 =? s).
    + injection Hs as <-. left. reflexivity.
    + eapply Honly. exact Hs.
  - intros pc Hpc.
    pose proof (is_piece_range pc Hpc) as [Hpcr _].
    destruct (Htracked pc Hpc) as (n & row & Hn & Hrow & Hocc & Hfwd & Hbwd).
    destruct (Z.eq_dec pc0 pc) as [<- | Hne].
    + exists (n0 - 1), row0'.
      split; [rewrite Hcnt' by exact Hpc0; eqb_cases |].
      split; [rewrite Hlist'; eqb_cases |].
      split; [rewrite Hocc' by exact Hpc0; eqb_cases |].
      split.
      * intros i Hi. destruct (Z.eq_dec i i0) as [-> | Hii0].
        -- exists last. rewrite Hrow', Hboard', Hindex'.
           assert (last ≠ s0) by (intros ->; assert (n0 - 1 = i0) by congruence; lia).
           eqb_cases. auto.
        -- destruct (Hfwd0 i) as (q & Hq1 & Hq2 & Hq3); [lia |].
           exists q. rewrite Hrow', Hboard', Hindex'.
           assert (q ≠ s0) by (intros ->; assert (i = i0) by congruence; lia).
           assert (q ≠ last) by (intros ->; assert (i = n0 - 1) by congruence; lia).
           eqb_cases. auto.
      * intros s Hs. rewrite Hboard' in Hs.
        destruct (Z.eqb_spec s0 s) as [Heq | Hsne];
          [injection Hs as Hs; unfold NO_PIECE in Hs; lia |].
        destruct (Hbwd0 s Hs) as (i & Hi & Hi1 & Hi2).
        destruct (Z.eq_dec s last) as [-> | Hsl].
        -- assert (i = n0 - 1) by congruence. subst i.
           assert (i0 ≠ n0 - 1) by (intros Heq; rewrite Heq in Hrow0i0; congruence).
           exists i0. rewrite Hindex', Hrow'. eqb_cases.
           split; [lia | auto].
        -- assert (i ≠ n0 - 1) by (intros ->; congruence).
           assert (i ≠ i0) by (intros ->; congruence).
           exists i. rewrite Hindex', Hrow'. eqb_cases.
           split; [lia | auto].
    + exists n, row.
      split; [rewrite Hcnt' by exact Hpc; eqb_cases |].
      split; [rewrite Hlist'; eqb_cases |].
      split; [rewrite Hocc' by exact Hpc; eqb_cases |].
      split.
      * intros i Hi. destruct (Hfwd i Hi) as (q & Hq1 & Hq2 & Hq3).
        exists q. rewrite Hboard', Hindex'.
        assert (q ≠ s0) by (apply (rd_differs _ _ _ _ _ Hq2 Hs0); congruence).
        assert (q ≠ last) by (apply (rd_differs _ _ _ _ _ Hq2 Hlastb); congruence).
        eqb_cases. auto.
      * intros s Hs. rewrite Hboard' in Hs.
        destruct (Z.eqb_spec s0 s) as [Heq | Hsne];
          [injection Hs as Hs; unfold NO_PIECE in Hs; lia |].
        destruct (Hbwd s Hs) as (i & Hi & Hi1 & Hi2).
        assert (s ≠ last) by (apply (rd_differs _ _ _ _ _ Hs Hlastb); congruence).
        exists i. rewrite Hindex'. eqb_cases. auto.
Qed.

Lemma take_lookup_rd (row : list Square2D) (n : Z) (i : nat) (s : Square2D) :
  take (Z.to_nat n) row !! i = Some s ↔
  Z.of_nat i < n ∧ rd row (Z.of_nat i) = Ok s.
Proof.
  rewrite lookup_take_Some, rd_Ok_iff, Nat2Z.id. split.
  - intros [H1 H2]. split; [lia |]. split; [lia | exact H1].
  - intros [H1 [_ H2]]. split; [exact H2 | lia].
Qed.

(** The invariant gives the agreement of the claim. *)
Lemma board_inv_agrees (b : Board2D.t) : board_inv b → bookkeeping_agrees b.
Proof.
  intros (Hwf & Honly & Htracked) pc Hpc.
  destruct (Htracked pc Hpc) as (n & row & Hn & Hrow & Hocc & Hfwd & Hbwd).
  assert (Hloc : locations b pc = take (Z.to_nat n) row)
    by (unfold locations; rewrite Hn, Hrow; reflexivity).
  rewrite Hloc.
  assert (Hslot : ∀ (i : nat) (s : Square2D),
            take (Z.to_nat n) row !! i = Some s →
            rd (Board2D.board b) s = Ok pc ∧ rd (Board2D.index b) s = Ok (Z.of_nat i)).
  { intros i s Hi. apply take_lookup_rd in Hi as [Hlt Hi].
    destruct (Hfwd (Z.of_nat i)) as (q & Hq1 & Hq2 & Hq3); [lia |].
    assert (q = s) by congruence. subst q. auto. }
  split; [| split].
  - apply NoDup_alt. intros i j s Hi Hj.
    apply Hslot in Hi as [_ Hi]. apply Hslot in Hj as [_ Hj].
    rewrite Hi in Hj. injection Hj as Hj. lia.
  - intros s. unfold Board2D.piece_on. rewrite list_elem_of_lookup. split.
    + intros [i Hi]. apply Hslot in Hi as [Hi _]. exact Hi.
    + intros Hs. destruct (Hbwd s Hs) as (i & Hi & Hi1 & Hi2).
      exists (Z.to_nat i). apply take_lookup_rd.
      rewrite Z2Nat.id by lia. split; [lia | exact Hi2].
  - intros i s Hi. apply Hslot in Hi as [_ Hi]. exact Hi.
Qed.

Lemma run_ops_preserves (ops : list BoardOp) :
  ∀ b, board_inv b → all_ops op_fits ops b = true →
       ∃ b', run_ops ops b = Ok b' ∧ board_inv b'.
Proof.
  induction ops as [| op r IH]; intros b Hinv Hall; simpl in *.
  - exists b. split; [reflexivity | exact Hinv].
  - apply andb_true_iff in Hall as [Hop Hr].
    assert (Hstep : ∃ b1, do_op b op = Ok b1 ∧ board_inv b1).
    { destruct op as [pc s | s]; simpl.
      - apply put_piece_preserves; assumption.
      - apply remove_piece_preserves; assumption. }
    destruct Hstep as (b1 & Hb1 & Hinv1).
    rewrite Hb1 in Hr |- *. ostep. apply IH; assumption.
Qed.

Lemma all_ops_take (ok : Board2D.t → BoardOp → bool) (ops : list BoardOp) :
  ∀ (k : nat) (b : Board2D.t),
    all_ops ok ops b = true → all_ops ok (take k ops) b = true.
Proof.
  induction ops as [| op r IH]; intros k b H; destruct k as [| k]; simpl in *;
    try reflexivity.
  apply andb_true_iff in H as [Hop Hr]. rewrite Hop. simpl.
  destruct (do_op b op); [apply IH; exact Hr | reflexivity | reflexivity].
Qed.

(** C6, as stated, fails at the bound of the piece lists.  Seventeen
    white pawns go onto seventeen empty squares of the cleared board:
    every call meets the precondition of the claim, sixteen calls
    return, and the seventeenth writes slot 16 of a row of 16 slots. *)
Lemma seventeenth_pawn_overflows :
  all_ops op_allowed seventeen_pawns Board2D.cleared = true ∧
  (fun b => locations b W_PAWN) <$> run_ops (take 16 seventeen_pawns) Board2D.cleared
    = Ok (map Z.of_nat (seq 0 16)) ∧
  run_ops seventeen_pawns Board2D.cleared = Undefined.
Proof. vm_compute. repeat split; reflexivity. Qed.

(** C6, amended.  Start from the cleared board and take any sequence of
    [put_piece] calls that put one of the twelve pieces onto an empty
    square while fewer than 16 squares hold that piece, and of
    [remove_piece] calls on occupied squares.  Then every prefix of the
    sequence runs to a board, and on that board, for each piece, the
    location collection has no duplicate, holds exactly the squares on
    which [piece_on] reports the piece, and [index] maps each of them to
    its slot. *)
Theorem piece_bookkeeping_agrees (ops : list BoardOp) (k : nat) :
  all_ops op_fits ops Board2D.cleared = true →
  ∃ b, run_ops (take k ops) Board2D.cleared = Ok b ∧ bookkeeping_agrees b.
Proof.
  intros Hall.
  destruct (run_ops_preserves (take k ops) Board2D.cleared board_inv_cleared)
    as (b & Hb & Hinv); [apply all_ops_take; exact Hall |].
  exists b. split; [exact Hb | apply board_inv_agrees; exact Hinv].
Qed.

Lemma piece_bookkeeping_agrees_witness :
  ∃ b, run_ops (take 5 test_ops) Board2D.cleared = Ok b ∧ bookkeeping_agrees b.
Proof.
  apply (piece_bookkeeping_agrees test_ops 5).
  vm_compute. reflexivity.
Defined.

(** * Further properties of the code *)

(** ** types.h: pieces, squares and colours *)

Lemma land_7 (z : Z) : Z.land z 7 = z mod 8.
Proof. change 7 with (Z.ones 3). rewrite Z.land_ones by lia. reflexivity. Qed.

Lemma shiftr_3 (z : Z) : Z.shiftr z 3 = z / 8.
Proof. rewrite Z.shiftr_div_pow2 by lia. reflexivity. Qed.

Lemma shiftl_3 (z : Z) : Z.shiftl z 3 = z * 8.
Proof. rewrite Z.shiftl_mul_pow2 by lia. reflexivity. Qed.

(** [make_piece] packs a colour and a piece type into a piece, and
    [color_of] and [type_of] take them out again; every value below
    [PIECE_NB] is the piece of its colour and type. *)
Theorem piece_round_trip :
  (∀ (c : Color) (pt : PieceType), 0 <= pt < PIECE_TYPE_NB →
     0 <= make_piece c pt < PIECE_NB ∧
     color_of (make_piece c pt) = c ∧
     type_of (make_piece c pt) = pt) ∧
  (∀ pc : Piece, 0 <= pc < PIECE_NB →
     0 <= type_of pc < PIECE_TYPE_NB ∧
     make_piece (color_of pc) (type_of pc) = pc).
Proof.
  unfold make_piece, color_of, type_of, Color_of_int, PIECE_TYPE_NB, PIECE_NB.
  split.
  - intros c pt Hpt. rewrite shiftl_3, shiftr_3, land_7.
    set (x := Color_to_int c * 8 + pt).
    pose proof (Z.mod_pos_bound x 8 ltac:(lia)) as Hm.
    pose proof (Z.div_mod x 8 ltac:(lia)) as Hd.
    assert (Hc : Color_to_int c = 0 ∨ Color_to_int c = 1)
      by (destruct c; simpl; lia).
    assert (Hq : x / 8 = Color_to_int c) by (subst x; lia).
    assert (Hr : x mod 8 = pt) by (subst x; lia).
    rewrite Hq, Hr. split; [subst x; lia |]. split; [| reflexivity].
    destruct c; reflexivity.
  - intros pc Hpc. rewrite shiftl_3, shiftr_3, land_7.
    pose proof (Z.mod_pos_bound pc 8 ltac:(lia)) as Hm.
    pose proof (Z.div_mod pc 8 ltac:(lia)) as Hd.
    split; [lia |].
    assert (Hq : pc / 8 = 0 ∨ pc / 8 = 1) by lia.
    destruct Hq as [Hq | Hq]; rewrite Hq in *; simpl; lia.
Qed.

Lemma piece_round_trip_witness :
  0 <= make_piece BLACK KING < PIECE_NB ∧
  color_of (make_piece BLACK KING) = BLACK ∧
  type_of (make_piece BLACK KING) = KING.
Proof.
  apply (proj1 piece_round_trip BLACK KING). unfold KING, PIECE_TYPE_NB. lia.
Defined.

(** [make_square2d] of a file and a rank below 8 is a square of the
    board whose file and rank are the given ones, and every square of
    the board is the square of its file and rank. *)
Theorem square_round_trip :
  (∀ (f : File) (r : Rank), 0 <= f < 8 → 0 <= r < 8 →
     is_ok_square2d (make_square2d f r) = true ∧
     file_of (make_square2d f r) = f ∧
     rank_of (make_square2d f r) = r) ∧
  (∀ s : Square2D, is_ok_square2d s = true →
     0 <= file_of s < 8 ∧ 0 <= rank_of s < 8 ∧
     make_square2d (file_of s) (rank_of s) = s).
Proof.
  unfold make_square2d, file_of, rank_of, is_ok_square2d, SQ_A1, SQ_H8.
  split.
  - intros f r Hf Hr. rewrite shiftl_3, shiftr_3, land_7.
    rewrite Z.div_add_l by lia. rewrite (Z.div_small f 8) by lia.
    rewrite Z.add_comm, Z.mod_add by lia. rewrite Z.mod_small by lia.
    split; [apply andb_true_iff; split; apply Z.leb_le; lia |].
    split; lia.
  - intros s Hs. apply andb_true_iff in Hs as [H0 H63].
    apply Z.leb_le in H0, H63.
    rewrite shiftl_3, shiftr_3, land_7.
    pose proof (Z.mod_pos_bound s 8 ltac:(lia)) as Hm.
    pose proof (Z.div_mod s 8 ltac:(lia)) as Hd.
    assert (0 <= s / 8 < 8)
      by (split; [apply Z.div_pos; lia | apply Z.div_lt_upper_bound; lia]).
    repeat split; lia.
Qed.

Lemma square_round_trip_witness :
  is_ok_square2d (make_square2d 3 3) = true ∧
  file_of (make_square2d 3 3) = 3 ∧
  rank_of (make_square2d 3 3) = 3.
Proof. apply (proj1 square_round_trip 3 3); lia. Defined.

(** [passTurn] gives the turn to the other colour and changes nothing
    else; passing the turn twice gives the board back. *)
Theorem passTurn_twice (b : Board2D.t) :
  Board2D.side_to_move (Board2D.passTurn b) ≠ Board2D.side_to_move b ∧
  Board2D.board (Board2D.passTurn b) = Board2D.board b ∧
  locations (Board2D.passTurn b) = locations b ∧
  Board2D.passTurn (Board2D.passTurn b) = b.
Proof.
  destruct b as [w bd cnt pl idx [|]]; repeat split; discriminate.
Qed.

(** ** Timeline: coordinates and boards *)

Lemma in_int_spec (z : Z) : in_int z = true ↔ -2147483648 <= z <= 2147483647.
Proof. unfold in_int. rewrite andb_true_iff, !Z.leb_le. reflexivity. Qed.

Lemma int_op_Ok (z k : Z) :
  int_op z = Ok k ↔ -2147483648 <= z <= 2147483647 ∧ k = z.
Proof.
  unfold int_op. destruct (in_int z) eqn:H.
  - apply in_int_spec in H. split; [intros [= <-]; auto | intros [_ ->]; reflexivity].
  - split; [discriminate |]. intros [H' _]. apply in_int_spec in H'. congruence.
Qed.

(** The checked index is defined exactly when none of the [int]
    operations of the source overflows, and is then the index computed
    without bounds. *)
Lemma plyToBoardIdx_int_Ok (tl : Timeline.t) (t : Time) (c : Color) (k : Z) :
  plyToBoardIdx_int tl t c = Ok k ↔
  -2147483648 <= t - Timeline.startTime tl <= 2147483647 ∧
  -2147483648 <= 2 * (t - Timeline.startTime tl) <= 2147483647 ∧
  -2147483648 <= Timeline.plyToBoardIdx tl t c <= 2147483647 ∧
  k = Timeline.plyToBoardIdx tl t c.
Proof.
  unfold plyToBoardIdx_int, Timeline.plyToBoardIdx.
  set (dt := t - Timeline.startTime tl).
  set (dc := Color_to_int c - Color_to_int (Timeline.startColor tl)).
  assert (Hdc : int_op dc = Ok dc).
  { apply int_op_Ok. split; [| reflexivity].
    subst dc. destruct c, (Timeline.startColor tl); simpl; lia. }
  destruct (int_op dt) as [x | |] eqn:H1; ostep.
  - apply int_op_Ok in H1 as [H1 ->]. rewrite Hdc. ostep.
    destruct (int_op (2 * dt)) as [y | |] eqn:H2; ostep.
    + apply int_op_Ok in H2 as [H2 ->]. rewrite int_op_Ok. intuition lia.
    + split; [discriminate |]. intros (_ & H & _).
      assert (int_op (2 * dt) = Ok (2 * dt)) by (apply int_op_Ok; auto). congruence.
    + split; [discriminate |]. intros (_ & H & _).
      assert (int_op (2 * dt) = Ok (2 * dt)) by (apply int_op_Ok; auto). congruence.
  - split; [discriminate |]. intros (H & _).
    assert (int_op dt = Ok dt) by (apply int_op_Ok; auto). congruence.
  - split; [discriminate |]. intros (H & _).
    assert (int_op dt = Ok dt) by (apply int_op_Ok; auto). congruence.
Qed.

(** An index that the source cannot compute: on a line that starts at
    time 1 the doubling overflows at time 2^30 + 1. *)
Example ply_index_overflow :
  plyToBoardIdx_int (Timeline.make 1 WHITE) 1073741825 WHITE = Undefined ∧
  plyToBoardIdx_int (Timeline.make 1 WHITE) 1073741824 BLACK = Ok 2147483647.
Proof. split; reflexivity. Qed.

(** The ply index of a timeline, with overflow of the [int] arithmetic
    undefined.  The start coordinate has index 0.  Where the index is
    defined it is the value computed without bounds.  Black's ply follows
    White's ply of the same time, White's ply of the next time follows
    Black's, and two coordinates with the same index are the same.  Every
    index from 0 below [INT_MAX] whose time is an [int] is the index of a
    coordinate. *)
Theorem ply_index_one_to_one (tl : Timeline.t) :
  plyToBoardIdx_int tl (Timeline.start_time tl) (Timeline.start_color tl) = Ok 0 ∧
  (∀ t c k, plyToBoardIdx_int tl t c = Ok k → Timeline.plyToBoardIdx tl t c = k) ∧
  (∀ t k, plyToBoardIdx_int tl t WHITE = Ok k →
          plyToBoardIdx_int tl t BLACK = Ok (k + 1)) ∧
  (∀ t k k', plyToBoardIdx_int tl t BLACK = Ok k →
             plyToBoardIdx_int tl (t + 1) WHITE = Ok k' →
             k' = k + 1) ∧
  (∀ t c t' c' k,
      plyToBoardIdx_int tl t c = Ok k →
      plyToBoardIdx_int tl t' c' = Ok k →
      t = t' ∧ c = c') ∧
  (∀ k, 0 <= k < 2147483647 →
        in_int (Timeline.start_time tl) = true →
        in_int (Timeline.start_time tl + k / 2 + 1) = true →
        ∃ t c, in_int t = true ∧ plyToBoardIdx_int tl t c = Ok k).
Proof.
  split.
  { apply plyToBoardIdx_int_Ok.
    unfold Timeline.plyToBoardIdx, Timeline.start_time, Timeline.start_color. lia. }
  split.
  { intros t c k H. apply plyToBoardIdx_int_Ok in H. symmetry. apply H. }
  split.
  { intros t k H. apply plyToBoardIdx_int_Ok in H. apply plyToBoardIdx_int_Ok.
    revert H. unfold Timeline.plyToBoardIdx. simpl.
    destruct (Timeline.startColor tl); simpl; lia. }
  split.
  { intros t k k' H H'. apply plyToBoardIdx_int_Ok in H, H'.
    revert H H'. unfold Timeline.plyToBoardIdx. simpl. lia. }
  split.
  { intros t c t' c' k H H'. apply plyToBoardIdx_int_Ok in H, H'.
    revert H H'. unfold Timeline.plyToBoardIdx.
    destruct c, c'; simpl; intros; split; try reflexivity; lia. }
  intros k Hk Hst Hend. apply in_int_spec in Hst, Hend.
  unfold Timeline.start_time in *.
  set (x := k + Color_to_int (Timeline.startColor tl)).
  assert (Hx : 0 <= x <= k + 1)
    by (subst x; destruct (Timeline.startColor tl); simpl; lia).
  pose proof (Z.mod_pos_bound x 2 ltac:(lia)) as Hm.
  pose proof (Z.div_mod x 2 ltac:(lia)) as Hd.
  assert (Hq : 0 <= x / 2 <= k / 2 + 1).
  { split; [apply Z.div_pos; lia |].
    pose proof (Z.div_mod k 2 ltac:(lia)). pose proof (Z.mod_pos_bound k 2 ltac:(lia)). lia. }
  exists (Timeline.startTime tl + x / 2), (Color_of_int (x mod 2)).
  split; [apply in_int_spec; lia |].
  apply plyToBoardIdx_int_Ok. unfold Timeline.plyToBoardIdx, Color_of_int.
  destruct (Z.eqb_spec (x mod 2) 0) as [H0 | H0]; subst x; simpl; lia.
Qed.

Lemma ply_index_one_to_one_witness :
  ∃ t c, in_int t = true ∧ plyToBoardIdx_int one_board_line t c = Ok 3.
Proof.
  apply (proj2 (proj2 (proj2 (proj2 (proj2 (ply_index_one_to_one one_board_line))))) 3).
  - lia.
  - reflexivity.
  - reflexivity.
Defined.

(** [append_board] adds one ply at the end: the boards that were there
    stay at their coordinates, the new board is the board of the next
    index and the last board, and a coordinate has a board afterwards
    exactly when its index is at most the old number of boards.  The
    start coordinate and the active flag do not change. *)
Theorem append_board_extends (tl : Timeline.t) (newBoard : Board2D.t)
  (t : Time) (c : Color) :
  (∀ b, Timeline.board_on_turn tl t c = Ok b →
        Timeline.board_on_turn (Timeline.append_board tl newBoard) t c = Ok b) ∧
  (Timeline.plyToBoardIdx tl t c = Z.of_nat (length (Timeline.boards tl)) →
   Timeline.board_on_turn (Timeline.append_board tl newBoard) t c = Ok newBoard) ∧
  ((∃ b, Timeline.board_on_turn (Timeline.append_board tl newBoard) t c = Ok b) ↔
   0 <= Timeline.plyToBoardIdx tl t c <= Z.of_nat (length (Timeline.boards tl))) ∧
  Timeline.last_board (Timeline.append_board tl newBoard) = Ok newBoard ∧
  Timeline.start_time (Timeline.append_board tl newBoard) = Timeline.start_time tl ∧
  Timeline.start_color (Timeline.append_board tl newBoard) = Timeline.start_color tl ∧
  Timeline.is_active (Timeline.append_board tl newBoard) = Timeline.is_active tl.
Proof.
  unfold Timeline.board_on_turn, Timeline.last_board. simpl.
  change (Timeline.plyToBoardIdx (Timeline.append_board tl newBoard) t c)
    with (Timeline.plyToBoardIdx tl t c).
  set (k := Timeline.plyToBoardIdx tl t c).
  split; [intros b Hb; apply rd_app_l; exact Hb |].
  split.
  { intros Hk. apply rd_Ok_iff. split; [lia |].
    rewrite Hk, Nat2Z.id. apply list_lookup_middle. reflexivity. }
  split.
  { split.
    - intros [b Hb]. apply rd_Ok_range in Hb. rewrite length_app in Hb. simpl in Hb. lia.
    - intros Hk. apply rd_in_range. rewrite length_app. simpl. lia. }
  split; [rewrite last_snoc; reflexivity |].
  repeat split.
Qed.

Lemma append_board_extends_witness :
  Timeline.board_on_turn (Timeline.append_board one_board_line test_board) 1 BLACK
  = Ok test_board.
Proof.
  apply (proj1 (proj2 (append_board_extends one_board_line test_board 1 BLACK))).
  reflexivity.
Defined.

(** [first_board] is the board at the start coordinate of the timeline
    and [last_board] the board of the last index; on a timeline without
    a board, as the constructor leaves it, both are undefined. *)
Theorem first_and_last_board (tl : Timeline.t) :
  Timeline.first_board tl
    = Timeline.board_on_turn tl (Timeline.start_time tl) (Timeline.start_color tl) ∧
  Timeline.last_board tl
    = rd (Timeline.boards tl) (Z.of_nat (length (Timeline.boards tl)) - 1) ∧
  (Timeline.boards tl = [] →
   Timeline.first_board tl = Undefined ∧ Timeline.last_board tl = Undefined) ∧
  (∀ t c, Timeline.first_board (Timeline.make t c) = Undefined ∧
          Timeline.is_active (Timeline.make t c) = false).
Proof.
  split.
  { unfold Timeline.board_on_turn.
    replace (Timeline.plyToBoardIdx tl (Timeline.start_time tl) (Timeline.start_color tl))
      with 0
      by (unfold Timeline.plyToBoardIdx, Timeline.start_time, Timeline.start_color; lia).
    unfold Timeline.first_board, rd. simpl. destruct (Timeline.boards tl); reflexivity. }
  split.
  { unfold Timeline.last_board.
    destruct (Timeline.boards tl) as [| b bs] eqn:Hb using rev_ind; [reflexivity |].
    rewrite last_snoc, length_app. simpl. symmetry. apply rd_Ok_iff.
    split; [lia |].
    replace (Z.to_nat (Z.of_nat (length bs + 1) - 1)) with (length bs) by lia.
    apply list_lookup_middle. reflexivity. }
  split.
  { intros H. unfold Timeline.first_board, Timeline.last_board. rewrite H. auto. }
  intros t c. split; reflexivity.
Qed.

Lemma first_and_last_board_witness :
  Timeline.first_board (Timeline.make 1 WHITE) = Undefined ∧
  Timeline.last_board (Timeline.make 1 WHITE) = Undefined.
Proof.
  apply (proj1 (proj2 (proj2 (first_and_last_board (Timeline.make 1 WHITE))))).
  reflexivity.
Defined.

(** ** Position: the numbering of the timelines *)

(** [timeline(l)] finds a line exactly for the numbers from minus the
    negative count to the positive count; line 0 is the first positive
    line, line [k] the positive line of slot [k] and line [-k] the
    negative line of slot [k - 1]. *)
Theorem timeline_numbering (p : Position.t) (l : L) :
  ((∃ tl, Position.timeline p l = Ok tl) ↔
   - Position.negative_timeline_count p <= l <= Position.positive_timeline_count p) ∧
  (0 <= l → Position.timeline p l = rd (Position.positiveLines p) l) ∧
  (l < 0 → Position.timeline p l = rd (Position.negativeLines p) (- l - 1)).
Proof.
  unfold Position.timeline, Position.negative_timeline_count,
    Position.positive_timeline_count.
  destruct (Z.leb_spec 0 l) as [Hl | Hl].
  - split; [| split; [reflexivity | lia]]. split.
    + intros [tl Htl]. apply rd_Ok_range in Htl. lia.
    + intros H. apply rd_in_range. lia.
  - split; [| split; [lia | reflexivity]]. split.
    + intros [tl Htl]. apply rd_Ok_range in Htl. lia.
    + intros H. apply rd_in_range. lia.
Qed.

Lemma timeline_numbering_witness :
  Position.timeline black_behind_position 2
  = rd (Position.positiveLines black_behind_position) 2.
Proof.
  apply (proj1 (proj2 (timeline_numbering black_behind_position 2))). lia.
Defined.

(** ** Board2D::set: decoding a FEN text *)

Lemma scan_width_not_AssertFail (fen : list ascii) :
  ∀ token width, Board2D.scan_width fen token width ≠ AssertFail.
Proof.
  induction fen as [| c r IH]; intros token width; simpl; [discriminate |].
  destruct (Board2D.isspace c); [discriminate |].
  destruct (Board2D.isdigit c); [apply IH |].
  destruct (Ascii.eqb c "/"); [discriminate | apply IH].
Qed.

Lemma parse_pieces_cons (c : ascii) (r : list ascii) (width : Z) (sq : Square2D)
  (b : Board2D.t) (token : option ascii) :
  Board2D.parse_pieces (c :: r) width sq b token =
  if Board2D.isspace c then Ok (b, Some c, r)
  else if Board2D.isdigit c then
    Board2D.parse_pieces r width (sq + (Board2D.code c - 48) * EAST) b (Some c)
  else if Ascii.eqb c "/" then
    Board2D.parse_pieces r width (sq + width * WEST + SOUTH) b (Some c)
  else
    match Board2D.find_from PieceToChar c 0 with
    | Some idx =>
        b1 ← Board2D.put_piece b idx sq;
        Board2D.parse_pieces r width (sq + 1) b1 (Some c)
    | None => Board2D.parse_pieces r width sq b (Some c)
    end.
Proof. reflexivity. Qed.

Lemma parse_pieces_not_AssertFail (ss : list ascii) :
  ∀ width sq b token, Board2D.parse_pieces ss width sq b token ≠ AssertFail.
Proof.
  induction ss as [| c r IH]; intros width sq b token; [discriminate |].
  rewrite parse_pieces_cons.
  destruct (Board2D.isspace c); [discriminate |].
  destruct (Board2D.isdigit c); [apply IH |].
  destruct (Ascii.eqb c "/"); [apply IH |].
  destruct (Board2D.find_from PieceToChar c 0) as [idx |]; [| apply IH].
  apply obind_not_AssertFail; [apply put_piece_not_AssertFail | intros b1; apply IH].
Qed.

Lemma board_set_not_AssertFail (fen : string) : Board2D.set fen ≠ AssertFail.
Proof.
  unfold Board2D.set.
  apply obind_not_AssertFail; [apply scan_width_not_AssertFail |].
  intros [width token0].
  apply obind_not_AssertFail; [apply parse_pieces_not_AssertFail |].
  intros [[b1 token1] rest].
  destruct rest as [| c rest]; [destruct token1 |]; discriminate.
Qed.

Lemma scan_width_no_separator (fen : list ascii) :
  ∀ token width,
    forallb (fun c => negb (Board2D.isspace c) && negb (Ascii.eqb c "/")) fen = true →
    Board2D.scan_width fen token width = Undefined.
Proof.
  induction fen as [| c r IH]; intros token width H; simpl in *; [reflexivity |].
  apply andb_true_iff in H as [Hc Hr]. apply andb_true_iff in Hc as [Hs Hsl].
  apply negb_true_iff in Hs, Hsl. rewrite Hs, Hsl.
  destruct (Board2D.isdigit c); apply IH; exact Hr.
Qed.

(** A FEN text with neither white space nor a slash, the empty text
    among them, is not decoded: the width loop of [Board2D::set] runs
    past the end of the string. *)
Theorem set_needs_separator (fen : string) :
  no_separator fen = true → Board2D.set fen = Undefined.
Proof.
  intros H. unfold Board2D.set.
  rewrite (scan_width_no_separator _ None 0 H). reflexivity.
Qed.

Lemma set_needs_separator_witness : Board2D.set "KN2" = Undefined.
Proof. apply set_needs_separator. vm_compute. reflexivity. Defined.

Lemma scan_width_stops (placement rest : list ascii) (sp : ascii) :
  Board2D.isspace sp = true →
  ∀ token width,
    Board2D.scan_width (placement ++ sp :: rest) token width
    = Board2D.scan_width (placement ++ [sp]) token width.
Proof.
  intros Hsp. induction placement as [| c r IH]; intros token width; simpl.
  - rewrite Hsp. reflexivity.
  - destruct (Board2D.isspace c); [reflexivity |].
    destruct (Board2D.isdigit c); [apply IH |].
    destruct (Ascii.eqb c "/"); [reflexivity | apply IH].
Qed.

Lemma parse_pieces_stops (placement rest : list ascii) (sp : ascii) :
  Board2D.isspace sp = true →
  forallb (fun c => negb (Board2D.isspace c)) placement = true →
  ∀ width sq b token,
    Board2D.parse_pieces (placement ++ sp :: rest) width sq b token
    = obind (Board2D.parse_pieces placement width sq b token)
            (fun r => Ok (r.1.1, Some sp, rest)).
Proof.
  intros Hsp. induction placement as [| c r IH]; intros Hpl width sq b token.
  - simpl app. rewrite parse_pieces_cons, Hsp. reflexivity.
  - simpl in Hpl. apply andb_true_iff in Hpl as [Hc Hr].
    apply negb_true_iff in Hc.
    change ((c :: r) ++ sp :: rest) with (c :: (r ++ sp :: rest)).
    rewrite !parse_pieces_cons, Hc.
    destruct (Board2D.isdigit c); [apply IH; exact Hr |].
    destruct (Ascii.eqb c "/"); [apply IH; exact Hr |].
    destruct (Board2D.find_from PieceToChar c 0) as [idx |]; [| apply IH; exact Hr].
    destruct (Board2D.put_piece b idx sq) as [b1 | |]; ostep;
      [apply IH; exact Hr | reflexivity | reflexivity].
Qed.

(** [Board2D::set] reads the placement up to the first white space and
    one character after it: whatever follows that character does not
    change the board, and the side to move is White exactly when the
    character is a lower-case w. *)
Theorem set_reads_one_marker (placement rest : list ascii) (sp c : ascii) :
  forallb (fun x => negb (Board2D.isspace x)) placement = true →
  Board2D.isspace sp = true →
  Board2D.set (string_of_list_ascii (placement ++ sp :: c :: rest))
    = Board2D.set (string_of_list_ascii (placement ++ [sp; c])) ∧
  ∀ b, Board2D.set (string_of_list_ascii (placement ++ sp :: c :: rest)) = Ok b →
       Board2D.side_to_move b = if Ascii.eqb c "w" then WHITE else BLACK.
Proof.
  intros Hpl Hsp.
  assert (Hset : ∀ tail,
    Board2D.set (string_of_list_ascii (placement ++ sp :: c :: tail))
    = '(width, token0) ← Board2D.scan_width (placement ++ [sp]) None 0;
      '(b1, _, _) ← Board2D.parse_pieces placement width
                      (SQ_A1 + (width - 1) * NORTH)
                      (Board2D.Build width (Board2D.board Board2D.cleared)
                         (Board2D.pieceCount Board2D.cleared)
                         (Board2D.pieceList Board2D.cleared)
                         (Board2D.index Board2D.cleared)
                         (Board2D.sideToMove Board2D.cleared)) token0;
      Ok (Board2D.Build (Board2D.boardWidth b1) (Board2D.board b1)
            (Board2D.pieceCount b1) (Board2D.pieceList b1) (Board2D.index b1)
            (if Ascii.eqb c "w" then WHITE else BLACK))).
  { intros tail. unfold Board2D.set.
    rewrite list_ascii_of_string_of_list_ascii.
    rewrite (scan_width_stops placement (c :: tail) sp Hsp).
    destruct (Board2D.scan_width (placement ++ [sp]) None 0) as [[width token0] | |];
      [| reflexivity | reflexivity].
    ostep. rewrite (parse_pieces_stops placement (c :: tail) sp Hsp Hpl).
    destruct (Board2D.parse_pieces placement width _ _ token0) as [[[b1 t1] r1] | |];
      reflexivity. }
  split.
  - rewrite (Hset rest), (Hset []). reflexivity.
  - intros b. rewrite (Hset rest).
    destruct (Board2D.scan_width (placement ++ [sp]) None 0) as [[width token0] | |];
      try discriminate.
    ostep.
    destruct (Board2D.parse_pieces placement width _ _ token0) as [[[b1 t1] r1] | |];
      try discriminate.
    ostep. intros [= <-]. reflexivity.
Qed.

Lemma set_reads_one_marker_witness :
  Board2D.set (string_of_list_ascii
                 (list_ascii_of_string "3k/4/4/KN2" ++ " "%char :: "w"%char
                    :: list_ascii_of_string " KQkq -"))
  = Board2D.set (string_of_list_ascii
                   (list_ascii_of_string "3k/4/4/KN2" ++ [" "%char; "w"%char])).
Proof.
  apply (set_reads_one_marker (list_ascii_of_string "3k/4/4/KN2")
           (list_ascii_of_string " KQkq -") " " "w");
    vm_compute; reflexivity.
Defined.

Lemma fen_puts_cons (c : ascii) (r : list ascii) (width : Z) (sq : Square2D) :
  fen_puts (c :: r) width sq =
  if Board2D.isspace c then []
  else if Board2D.isdigit c then fen_puts r width (sq + (Board2D.code c - 48) * EAST)
  else if Ascii.eqb c "/" then fen_puts r width (sq + width * WEST + SOUTH)
  else
    match Board2D.find_from PieceToChar c 0 with
    | Some idx => Put idx sq :: fen_puts r width (sq + 1)
    | None => fen_puts r width sq
    end.
Proof. reflexivity. Qed.

(** The piece loop is the run of its [put_piece] calls. *)
Lemma parse_pieces_run (ss : list ascii) :
  ∀ width sq b token,
    obind (Board2D.parse_pieces ss width sq b token) (fun r => Ok r.1.1)
    = run_ops (fen_puts ss width sq) b.
Proof.
  induction ss as [| c r IH]; intros width sq b token; [reflexivity |].
  rewrite parse_pieces_cons, fen_puts_cons.
  destruct (Board2D.isspace c); [reflexivity |].
  destruct (Board2D.isdigit c); [apply IH |].
  destruct (Ascii.eqb c "/"); [apply IH |].
  destruct (Board2D.find_from PieceToChar c 0) as [idx |]; [| apply IH].
  cbn [run_ops do_op]. ostep.
  destruct (Board2D.put_piece b idx sq) as [b1 | |]; ostep;
    [apply IH | reflexivity | reflexivity].
Qed.

Lemma scan_width_separator (fen : list ascii) :
  ∀ token width,
    forallb (fun c => negb (Board2D.isspace c) && negb (Ascii.eqb c "/")) fen = false →
    ∃ w tok, Board2D.scan_width fen token width = Ok (w, tok).
Proof.
  induction fen as [| c r IH]; intros token width H; simpl in *; [discriminate |].
  destruct (Board2D.isspace c) eqn:Hs; [eauto |].
  destruct (Board2D.isdigit c) eqn:Hd.
  - apply IH. destruct (Ascii.eqb_spec c "/") as [-> | Hne]; [discriminate Hd |].
    exact H.
  - destruct (Ascii.eqb c "/") eqn:Hsl; [eauto |].
    apply IH. exact H.
Qed.

Lemma parse_pieces_token (ss : list ascii) :
  ∀ width sq b c0 b' tok rest,
    Board2D.parse_pieces ss width sq b (Some c0) = Ok (b', tok, rest) →
    ∃ c, tok = Some c.
Proof.
  induction ss as [| c r IH]; intros width sq b c0 b' tok rest H.
  - injection H as _ <- _. eauto.
  - rewrite parse_pieces_cons in H.
    destruct (Board2D.isspace c); [injection H as _ <- _; eauto |].
    destruct (Board2D.isdigit c); [eapply IH; exact H |].
    destruct (Ascii.eqb c "/"); [eapply IH; exact H |].
    destruct (Board2D.find_from PieceToChar c 0) as [idx |]; [| eapply IH; exact H].
    destruct (Board2D.put_piece b idx sq) as [b1 | |]; cbn [mbind outcome_bind obind] in H;
      [eapply IH; exact H | discriminate | discriminate].
Qed.

Lemma parse_pieces_token_first (ss : list ascii) :
  ∀ width sq b token b' tok rest,
    ss ≠ [] →
    Board2D.parse_pieces ss width sq b token = Ok (b', tok, rest) →
    ∃ c, tok = Some c.
Proof.
  destruct ss as [| c r]; intros width sq b token b' tok rest Hne H; [congruence |].
  rewrite parse_pieces_cons in H.
  destruct (Board2D.isspace c); [injection H as _ <- _; eauto |].
  destruct (Board2D.isdigit c); [eapply parse_pieces_token; exact H |].
  destruct (Ascii.eqb c "/"); [eapply parse_pieces_token; exact H |].
  destruct (Board2D.find_from PieceToChar c 0) as [idx |];
    [| eapply parse_pieces_token; exact H].
  destruct (Board2D.put_piece b idx sq) as [b1 | |]; cbn [mbind outcome_bind obind] in H;
    [eapply parse_pieces_token; exact H | discriminate | discriminate].
Qed.

Lemma put_piece_with_width (w : Z) (b : Board2D.t) (pc : Piece) (s : Square2D) :
  Board2D.put_piece (with_width w b) pc s
  = obind (Board2D.put_piece b pc s) (fun b1 => Ok (with_width w b1)).
Proof.
  unfold Board2D.put_piece, with_width. fields.
  repeat (match goal with
          | |- context [mbind _ ?m] => destruct m; ostep; try reflexivity
          end).
Qed.

Lemma remove_piece_with_width (w : Z) (b : Board2D.t) (s : Square2D) :
  Board2D.remove_piece (with_width w b) s
  = obind (Board2D.remove_piece b s) (fun b1 => Ok (with_width w b1)).
Proof.
  unfold Board2D.remove_piece, with_width. fields.
  repeat (match goal with
          | |- context [mbind _ ?m] => destruct m; ostep; try reflexivity
          end).
Qed.

Lemma run_ops_with_width (w : Z) (ops : list BoardOp) :
  ∀ b, run_ops ops (with_width w b)
       = obind (run_ops ops b) (fun b1 => Ok (with_width w b1)) ∧
       all_ops op_fits ops (with_width w b) = all_ops op_fits ops b.
Proof.
  induction ops as [| op r IH]; intros b; [split; reflexivity |].
  cbn [run_ops all_ops].
  assert (Hop : do_op (with_width w b) op
                = obind (do_op b op) (fun b1 => Ok (with_width w b1)))
    by (destruct op; [apply put_piece_with_width | apply remove_piece_with_width]).
  assert (Hfit : op_fits (with_width w b) op = op_fits b op)
    by (destruct op; reflexivity).
  rewrite Hop, Hfit.
  destruct (do_op b op) as [b1 | |]; ostep; [| split; reflexivity | split; reflexivity].
  destruct (IH b1) as [H1 H2]. rewrite H1, H2. split; reflexivity.
Qed.

Lemma board_inv_fields (b b' : Board2D.t) :
  Board2D.board b' = Board2D.board b →
  Board2D.pieceCount b' = Board2D.pieceCount b →
  Board2D.pieceList b' = Board2D.pieceList b →
  Board2D.index b' = Board2D.index b →
  board_inv b → board_inv b'.
Proof.
  intros H1 H2 H3 H4.
  unfold board_inv, board_wf, piece_tracked, occurrences.
  rewrite H1, H2, H3, H4. trivial.
Qed.

(** Decoding a FEN text that has a separator is running its [put_piece]
    calls from the cleared board.  When each of them puts one of the
    twelve pieces onto an empty square, fewer than 16 of a kind,
    [Board2D::set] returns a board whose arrays have their sizes and
    whose piece lists agree with its squares. *)
Theorem set_bookkeeping (fen : string) :
  no_separator fen = false →
  all_ops op_fits (fen_ops fen) Board2D.cleared = true →
  ∃ b, Board2D.set fen = Ok b ∧
       Board2D.board <$> run_ops (fen_ops fen) Board2D.cleared
         = Ok (Board2D.board b) ∧
       board_wf b = true ∧ bookkeeping_agrees b.
Proof.
  intros Hsep Hfits. unfold fen_ops in *. unfold Board2D.set.
  destruct (scan_width_separator _ None 0 Hsep) as (w & tok & Hscan).
  rewrite Hscan in *. ostep.
  set (sq := SQ_A1 + (w - 1) * NORTH) in *.
  set (ss := list_ascii_of_string fen) in *.
  change (Board2D.Build w (Board2D.board Board2D.cleared)
            (Board2D.pieceCount Board2D.cleared) (Board2D.pieceList Board2D.cleared)
            (Board2D.index Board2D.cleared) (Board2D.sideToMove Board2D.cleared))
    with (with_width w Board2D.cleared).
  destruct (run_ops_with_width w (fen_puts ss w sq) Board2D.cleared) as [Hrun Hall].
  destruct (run_ops_preserves (fen_puts ss w sq) Board2D.cleared board_inv_cleared Hfits)
    as (b1 & Hb1 & Hinv1).
  rewrite Hb1 in Hrun |- *. cbn [obind] in Hrun.
  pose proof (parse_pieces_run ss w sq (with_width w Board2D.cleared) tok) as Hparse.
  rewrite Hrun in Hparse.
  assert (Hss : ss ≠ [])
    by (intros Hnil; rewrite Hnil in Hscan; discriminate Hscan).
  destruct (Board2D.parse_pieces ss w sq (with_width w Board2D.cleared) tok)
    as [[[b2 tok1] rest] | |] eqn:Hpp; cbn [obind] in Hparse; try discriminate.
  injection Hparse as ->. ostep.
  assert (Htok : ∃ c, match rest with [] => tok1 | c :: _ => Some c end = Some c).
  { destruct rest as [| c rest]; [| eauto].
    eapply parse_pieces_token_first; [exact Hss | exact Hpp]. }
  destruct Htok as [c ->].
  eexists. split; [reflexivity |]. fields.
  split; [reflexivity |].
  assert (Hinv : board_inv
            (Board2D.Build w (Board2D.board b1) (Board2D.pieceCount b1)
               (Board2D.pieceList b1) (Board2D.index b1)
               (if Ascii.eqb c "w" then WHITE else BLACK)))
    by (apply (board_inv_fields b1); [reflexivity .. | exact Hinv1]).
  split; [apply Hinv | apply board_inv_agrees; exact Hinv].
Qed.

Lemma set_bookkeeping_witness :
  ∃ b, Board2D.set test_fen = Ok b ∧
       Board2D.board <$> run_ops (fen_ops test_fen) Board2D.cleared
         = Ok (Board2D.board b) ∧
       board_wf b = true ∧ bookkeeping_agrees b.
Proof. apply (set_bookkeeping test_fen); vm_compute; reflexivity. Defined.

(** ** Position::set *)

Lemma lines_of_fens_not_AssertFail (fens : list string) :
  Position.lines_of_fens fens ≠ AssertFail.
Proof.
  induction fens as [| fen r IH]; [discriminate |].
  cbn [Position.lines_of_fens]. unfold Position.line_of_fen, mbind, outcome_bind.
  apply obind_not_AssertFail.
  - apply obind_not_AssertFail; [apply board_set_not_AssertFail | discriminate].
  - intros tl. apply obind_not_AssertFail; [exact IH | discriminate].
Qed.

(** Without a positive FEN text there is no central line: [set] reads
    [positiveLines[0]] of an empty vector, whatever the negative texts. *)
Theorem set_without_central (negativeFENs : list string) :
  Position.set negativeFENs [] = Undefined.
Proof.
  unfold Position.set.
  pose proof (lines_of_fens_not_AssertFail (rev negativeFENs)) as H.
  destruct (Position.lines_of_fens (rev negativeFENs)); [| congruence |]; reflexivity.
Qed.

Lemma lines_of_fens_Ok_inv (fens : list string) :
  ∀ tls, Position.lines_of_fens fens = Ok tls → Forall2 line_decodes fens tls.
Proof.
  induction fens as [| fen r IH]; intros tls H; cbn [Position.lines_of_fens] in H.
  - injection H as <-. constructor.
  - unfold Position.line_of_fen in H.
    destruct (Board2D.set fen) as [b | |] eqn:Hb;
      cbn [mbind outcome_bind obind] in H; try discriminate.
    destruct (Position.lines_of_fens r) as [tls' | |];
      cbn [mbind outcome_bind obind] in H; try discriminate.
    injection H as <-. constructor; [| apply IH; reflexivity].
    exists b. repeat split; reflexivity || exact Hb.
Qed.

Lemma set_Ok_inv (negativeFENs positiveFENs : list string) (p : Position.t) :
  Position.set negativeFENs positiveFENs = Ok p →
  Forall2 line_decodes (rev negativeFENs) (Position.negativeLines p) ∧
  Forall2 line_decodes positiveFENs (Position.positiveLines p) ∧
  Position.activePositiveLines p = to_short (Z.of_nat (length positiveFENs) - 1) ∧
  Position.activeNegativeLines p = to_short (Z.of_nat (length negativeFENs)) ∧
  Position.timeOfPresent p = 1 ∧
  ∃ central first, Position.positiveLines p !! 0%nat = Some central ∧
                   Timeline.first_board central = Ok first ∧
                   Position.sideToMove p = Board2D.side_to_move first.
Proof.
  unfold Position.set. intros H.
  destruct (Position.lines_of_fens (rev negativeFENs)) as [nl | |] eqn:Hn;
    cbn [mbind outcome_bind obind] in H; try discriminate.
  destruct (Position.lines_of_fens positiveFENs) as [pl | |] eqn:Hp;
    cbn [mbind outcome_bind obind] in H; try discriminate.
  destruct (rd pl 0) as [central | |] eqn:Hc;
    cbn [mbind outcome_bind obind] in H; try discriminate.
  destruct (Timeline.first_board central) as [first | |] eqn:Hf;
    cbn [mbind outcome_bind obind] in H; try discriminate.
  injection H as <-. cbn.
  apply lines_of_fens_Ok_inv in Hn, Hp. apply rd_Ok_iff in Hc as [_ Hc].
  repeat split; try assumption. exists central, first. auto.
Qed.

(** The lines of a position that [set] has built, by their numbers: the
    positive text of slot [i] gives line [i], and the negative text of
    slot [i] gives line [i - n] for [n] negative texts, so that the first
    negative text is the outermost line and the last one line -1.  The
    two counts are the numbers of texts, the central one not counted. *)
Theorem set_line_numbers (negativeFENs positiveFENs : list string) (p : Position.t) :
  Position.set negativeFENs positiveFENs = Ok p →
  Position.positive_timeline_count p = Z.of_nat (length positiveFENs) - 1 ∧
  Position.negative_timeline_count p = Z.of_nat (length negativeFENs) ∧
  (∀ (i : nat) fen, positiveFENs !! i = Some fen →
     ∃ tl, Position.timeline p (Z.of_nat i) = Ok tl ∧ line_decodes fen tl) ∧
  (∀ (i : nat) fen, negativeFENs !! i = Some fen →
     ∃ tl, Position.timeline p (Z.of_nat i - Z.of_nat (length negativeFENs)) = Ok tl ∧
           line_decodes fen tl).
Proof.
  intros Hset. destruct (set_Ok_inv _ _ _ Hset) as (Hn & Hp & _).
  pose proof (Forall2_length _ _ _ Hn) as Hln. rewrite length_rev in Hln.
  pose proof (Forall2_length _ _ _ Hp) as Hlp.
  unfold Position.positive_timeline_count, Position.negative_timeline_count.
  split; [lia |]. split; [lia |]. split.
  - intros i fen Hi.
    destruct (Forall2_lookup_l _ _ _ _ _ Hp Hi) as (tl & Htl & Hdec).
    exists tl. split; [| exact Hdec].
    unfold Position.timeline. destruct (Z.leb_spec 0 (Z.of_nat i)); [| lia].
    apply rd_Ok_iff. split; [lia |]. rewrite Nat2Z.id. exact Htl.
  - intros i fen Hi.
    pose proof (lookup_lt_Some _ _ _ Hi) as Hlt.
    assert (Hrev : rev negativeFENs !! (length negativeFENs - S i)%nat = Some fen).
    { rewrite rev_alt. change (rev_append negativeFENs []) with (reverse negativeFENs).
      rewrite reverse_lookup by lia.
      replace (length negativeFENs - S (length negativeFENs - S i))%nat with i by lia.
      exact Hi. }
    destruct (Forall2_lookup_l _ _ _ _ _ Hn Hrev) as (tl & Htl & Hdec).
    exists tl. split; [| exact Hdec].
    unfold Position.timeline.
    destruct (Z.leb_spec 0 (Z.of_nat i - Z.of_nat (length negativeFENs))); [lia |].
    apply rd_Ok_iff. split; [lia |].
    replace (Z.to_nat (- (Z.of_nat i - Z.of_nat (length negativeFENs)) - 1))
      with (length negativeFENs - S i)%nat by lia.
    exact Htl.
Qed.

Lemma set_line_numbers_witness :
  Position.positive_timeline_count unbalanced_position = Z.of_nat 1 - 1 ∧
  Position.negative_timeline_count unbalanced_position = Z.of_nat 2 ∧
  (∀ (i : nat) fen, [test_fen] !! i = Some fen →
     ∃ tl, Position.timeline unbalanced_position (Z.of_nat i) = Ok tl ∧
           line_decodes fen tl) ∧
  (∀ (i : nat) fen,
     ["3k/4/4/KN2 b"%string; "3k/4/4/KN2 b"%string] !! i = Some fen →
     ∃ tl, Position.timeline unbalanced_position (Z.of_nat i - Z.of_nat 2) = Ok tl ∧
           line_decodes fen tl).
Proof.
  apply (set_line_numbers ["3k/4/4/KN2 b"%string; "3k/4/4/KN2 b"%string] [test_fen]
           unbalanced_position).
  vm_compute. reflexivity.
Defined.

(** ** Position::new_timeline: the cases of a call *)

(** The first case of a call: when the mover's side has as many lines as
    the other side, or one less, a call on an existing board returns;
    the new line is active and starts at the branch time for White and
    one later for Black; the mover's counter is incremented, the other
    side is untouched, and the present is the minimum of the old present
    and the start of the new line. *)
Theorem first_case_activates (p : Position.t) (l : L) (t : Time)
  (tl : Timeline.t) (src : Board2D.t) :
  Position.timeline p l = Ok tl →
  Timeline.board_on_turn tl t (Position.sideToMove p) = Ok src →
  own_count p = opp_count p ∨ own_count p = opp_count p - 1 →
  ∃ p' nt,
    Position.new_timeline p l t = Ok (p', Board2D.passTurn src) ∧
    own_lines p' = own_lines p ++ [nt] ∧
    Timeline.is_active nt = true ∧
    Timeline.start_time nt = t + Color_to_int (Position.sideToMove p) ∧
    opp_lines p' = opp_lines p ∧
    own_active p' = Position.incr_short (own_active p) ∧
    opp_active p' = opp_active p ∧
    Position.time_of_present p'
      = Z.min (Position.time_of_present p) (Timeline.start_time nt).
Proof.
  intros Hline Hsrc Hcase.
  destruct (new_timeline_level p l t tl src Hline Hsrc Hcase)
    as (p' & Hp' & Hown & Hopp & Hoa & Hpa & Htop & _).
  exists p', (Timeline.activate (fresh_line p t src)).
  repeat split; assumption || reflexivity.
Qed.

Lemma first_case_activates_witness :
  ∃ p' nt,
    Position.new_timeline test_position 0 1 = Ok (p', Board2D.passTurn test_board) ∧
    own_lines p' = own_lines test_position ++ [nt] ∧
    Timeline.is_active nt = true ∧
    Timeline.start_time nt = 1 + Color_to_int (Position.sideToMove test_position) ∧
    opp_lines p' = opp_lines test_position ∧
    own_active p' = Position.incr_short (own_active test_position) ∧
    opp_active p' = opp_active test_position ∧
    Position.time_of_present p'
      = Z.min (Position.time_of_present test_position) (Timeline.start_time nt).
Proof.
  apply (first_case_activates test_position 0 1 test_central_line test_board);
    [vm_compute; reflexivity | vm_compute; reflexivity | left; vm_compute; reflexivity].
Defined.

(** The second case with White to move: when White has at least two
    lines fewer than Black and the negative line in slot
    [pos_cnt + 1] is not active, the call activates the new positive
    line and that negative line, increments both counters, and sets the
    present to the minimum of the old present and the two start times. *)
Theorem white_second_case (p : Position.t) (l : L) (t : Time)
  (tl other : Timeline.t) (src : Board2D.t) :
  Position.sideToMove p = WHITE →
  Position.timeline p l = Ok tl →
  Timeline.board_on_turn tl t WHITE = Ok src →
  Position.positive_timeline_count p < Position.negative_timeline_count p - 1 →
  rd (Position.negativeLines p) (Position.positive_timeline_count p + 1) = Ok other →
  Timeline.is_active other = false →
  ∃ p' nt,
    Position.new_timeline p l t = Ok (p', Board2D.passTurn src) ∧
    Position.positiveLines p' = Position.positiveLines p ++ [nt] ∧
    Timeline.is_active nt = true ∧
    Timeline.start_time nt = t ∧
    Position.negativeLines p'
      = <[Z.to_nat (Position.positive_timeline_count p + 1) := Timeline.activate other]>
          (Position.negativeLines p) ∧
    Position.activePositiveLines p' = Position.incr_short (Position.activePositiveLines p) ∧
    Position.activeNegativeLines p' = Position.incr_short (Position.activeNegativeLines p) ∧
    Position.time_of_present p'
      = Z.min (Position.time_of_present p) (Z.min t (Timeline.start_time other)).
Proof.
  intros Hmover Hline Hsrc Hcase Hother Hinactive.
  rewrite <- Hmover in Hsrc.
  destruct (new_timeline_behind p l t tl src Hline Hsrc) as (other' & Hother' & Hres).
  { unfold own_count, opp_count. rewrite Hmover. exact Hcase. }
  unfold opp_lines, balancing_slot in Hother'. rewrite Hmover in Hother'.
  rewrite Hother in Hother'. injection Hother' as <-.
  rewrite Hinactive in Hres.
  destruct Hres as (p' & Hp' & Hown & Hopp & Hoa & Hpa & Htop & Hside).
  unfold own_lines, opp_lines, own_active, opp_active, balancing_slot in *.
  rewrite Hside, Hmover in *.
  assert (Hst : Timeline.start_time (fresh_line p t src) = t)
    by (unfold fresh_line, Timeline.start_time; rewrite Hmover;
        cbn [Timeline.startTime Color_to_int]; lia).
  exists p', (Timeline.activate (fresh_line p t src)).
  split; [exact Hp' |]. split; [exact Hown |]. split; [reflexivity |].
  split; [exact Hst |]. split; [exact Hopp |]. split; [exact Hoa |].
  split; [exact Hpa |].
  unfold Position.time_of_present. rewrite Htop, Hst. reflexivity.
Qed.

Lemma white_second_case_witness :
  ∃ p' nt,
    Position.new_timeline white_behind_position (-1) 2
      = Ok (p', Board2D.passTurn
                  (ok_or test_board
                     (Timeline.board_on_turn
                        (ok_or test_central_line
                           (Position.timeline white_behind_position (-1))) 2 WHITE))) ∧
    Position.positiveLines p' = Position.positiveLines white_behind_position ++ [nt] ∧
    Timeline.is_active nt = true ∧
    Timeline.start_time nt = 2 ∧
    Position.negativeLines p'
      = <[Z.to_nat (Position.positive_timeline_count white_behind_position + 1) :=
            Timeline.activate
              (ok_or test_central_line
                 (rd (Position.negativeLines white_behind_position) 1))]>
          (Position.negativeLines white_behind_position) ∧
    Position.activePositiveLines p'
      = Position.incr_short (Position.activePositiveLines white_behind_position) ∧
    Position.activeNegativeLines p'
      = Position.incr_short (Position.activeNegativeLines white_behind_position) ∧
    Position.time_of_present p'
      = Z.min (Position.time_of_present white_behind_position)
              (Z.min 2 (Timeline.start_time
                          (ok_or test_central_line
                             (rd (Position.negativeLines white_behind_position) 1)))).
Proof.
  apply (white_second_case white_behind_position (-1) 2
           (ok_or test_central_line (Position.timeline white_behind_position (-1)))
           (ok_or test_central_line (rd (Position.negativeLines white_behind_position) 1)));
    vm_compute; reflexivity.
Defined.

(** With an existing source board the outcome of a call is decided by
    the assertion alone: the call returns the flipped copy of the source
    board when the assertion is not reached or holds, and stops on the
    assertion otherwise, that is when the mover is behind by two lines
    or more and the balancing line is active already. *)
Theorem new_timeline_outcome (p : Position.t) (l : L) (t : Time)
  (tl : Timeline.t) (src : Board2D.t) :
  Position.timeline p l = Ok tl →
  Timeline.board_on_turn tl t (Position.sideToMove p) = Ok src →
  (assertion_holds p = true →
   ∃ p', Position.new_timeline p l t = Ok (p', Board2D.passTurn src)) ∧
  (assertion_holds p = false →
   Position.new_timeline p l t = AssertFail ∧
   own_count p < opp_count p - 1 ∧
   ∃ other, rd (opp_lines p) (balancing_slot p) = Ok other ∧
            Timeline.is_active other = true).
Proof.
  intros Hline Hsrc. split.
  - intros Hassert.
    destruct (new_timeline_returns p l t tl src Hline Hsrc Hassert) as (p' & nt & Hp' & _).
    exists p'. exact Hp'.
  - unfold assertion_holds.
    destruct (Z.ltb_spec (own_count p) (opp_count p - 1)) as [Hlt | Hge]; [| discriminate].
    destruct (new_timeline_behind p l t tl src Hline Hsrc Hlt) as (other & Hother & Hres).
    rewrite Hother. intros Hact. apply negb_false_iff in Hact. rewrite Hact in Hres.
    split; [exact Hres |]. split; [exact Hlt |]. exists other. auto.
Qed.

Lemma new_timeline_outcome_witness :
  Position.new_timeline unbalanced_position 0 1 = AssertFail ∧
  own_count unbalanced_position < opp_count unbalanced_position - 1 ∧
  ∃ other, rd (opp_lines unbalanced_position) (balancing_slot unbalanced_position)
             = Ok other ∧
           Timeline.is_active other = true.
Proof.
  apply (proj2 (new_timeline_outcome unbalanced_position 0 1 test_central_line test_board
                  ltac:(vm_compute; reflexivity) ltac:(vm_compute; reflexivity))).
  vm_compute. reflexivity.
Defined.

(** What a call that returns has done to the two vectors of lines. *)
Lemma new_timeline_cases (p p' : Position.t) (l : L) (t : Time) (b : Board2D.t) :
  Position.new_timeline p l t = Ok (p', b) →
  ∃ tl src,
    Position.timeline p l = Ok tl ∧
    Timeline.board_on_turn tl t (Position.sideToMove p) = Ok src ∧
    b = Board2D.passTurn src ∧
    Position.sideToMove p' = Position.sideToMove p ∧
    (((own_count p = opp_count p ∨ own_count p = opp_count p - 1) ∧
      own_lines p' = own_lines p ++ [Timeline.activate (fresh_line p t src)] ∧
      opp_lines p' = opp_lines p ∧
      own_active p' = Position.incr_short (own_active p) ∧
      opp_active p' = opp_active p)
     ∨ (own_count p > opp_count p ∧
        own_lines p' = own_lines p ++ [fresh_line p t src] ∧
        opp_lines p' = opp_lines p ∧
        own_active p' = own_active p ∧
        opp_active p' = opp_active p)
     ∨ (own_count p < opp_count p - 1 ∧
        ∃ other, rd (opp_lines p) (balancing_slot p) = Ok other ∧
          Timeline.is_active other = false ∧
          own_lines p' = own_lines p ++ [Timeline.activate (fresh_line p t src)] ∧
          opp_lines p' =
            <[Z.to_nat (balancing_slot p) := Timeline.activate other]> (opp_lines p) ∧
          own_active p' = Position.incr_short (own_active p) ∧
          opp_active p' =
            match Position.sideToMove p with
            | WHITE => Position.incr_short (opp_active p)
            | BLACK => opp_active p
            end)).
Proof.
  intros Hcall.
  destruct (new_timeline_Ok_inv _ _ _ _ _ Hcall) as (tl & src & Hline & Hsrc).
  exists tl, src. split; [exact Hline |]. split; [exact Hsrc |].
  destruct (Z.lt_trichotomy (own_count p) (opp_count p)) as [Hlt | [Heq | Hgt]].
  - destruct (Z.eq_dec (own_count p) (opp_count p - 1)) as [Heq1 | Hne].
    + destruct (new_timeline_level p l t tl src Hline Hsrc)
        as (q & Hq & Hown & Hopp & Hoa & Hpa & _ & Hside); [right; exact Heq1 |].
      rewrite Hcall in Hq. injection Hq as <- ->.
      split; [reflexivity |]. split; [exact Hside |]. left. auto 10.
    + destruct (new_timeline_behind p l t tl src Hline Hsrc)
        as (other & Hother & Hres); [lia |].
      destruct (Timeline.is_active other) eqn:Hact; [congruence |].
      destruct Hres as (q & Hq & Hown & Hopp & Hoa & Hpa & _ & Hside).
      rewrite Hcall in Hq. injection Hq as <- ->.
      split; [reflexivity |]. split; [exact Hside |]. right. right.
      split; [lia |]. exists other. auto 10.
  - destruct (new_timeline_level p l t tl src Hline Hsrc)
      as (q & Hq & Hown & Hopp & Hoa & Hpa & _ & Hside); [left; exact Heq |].
    rewrite Hcall in Hq. injection Hq as <- ->.
    split; [reflexivity |]. split; [exact Hside |]. left. auto 10.
  - destruct (new_timeline_ahead p l t tl src Hline Hsrc)
      as (q & Hq & Hown & Hopp & Hpos & Hneg & _ & Hside); [lia |].
    rewrite Hcall in Hq. injection Hq as <- ->.
    split; [reflexivity |]. split; [exact Hside |]. right. left.
    split; [lia |]. split; [exact Hown |]. split; [exact Hopp |].
    unfold own_active, opp_active. rewrite Hside.
    destruct (Position.sideToMove p); auto.
Qed.

(** A call that returns adds one line to the mover's side, keeps the
    number of lines of the other side and the side to move, and leaves
    every line that was there in its place with its start coordinate and
    its boards; only an active flag may have been set. *)
Theorem new_timeline_frame (p : Position.t) (l : L) (t : Time)
  (tl : Timeline.t) (src : Board2D.t) :
  Position.timeline p l = Ok tl →
  Timeline.board_on_turn tl t (Position.sideToMove p) = Ok src →
  assertion_holds p = true →
  ∃ p', Position.new_timeline p l t = Ok (p', Board2D.passTurn src) ∧
    Position.side_to_move p' = Position.side_to_move p ∧
    own_count p' = own_count p + 1 ∧
    opp_count p' = opp_count p ∧
    ∀ k tlk, Position.timeline p k = Ok tlk →
      ∃ tlk', Position.timeline p' k = Ok tlk' ∧
        Timeline.start_time tlk' = Timeline.start_time tlk ∧
        Timeline.start_color tlk' = Timeline.start_color tlk ∧
        Timeline.boards tlk' = Timeline.boards tlk ∧
        (Timeline.is_active tlk = true → Timeline.is_active tlk' = true).
Proof.
  intros Hline Hsrc Hassert.
  destruct (new_timeline_returns p l t tl src Hline Hsrc Hassert)
    as (p' & nt & Hp' & _).
  exists p'. split; [exact Hp' |].
  destruct (new_timeline_cases _ _ _ _ _ Hp') as (tl0 & src0 & _ & _ & _ & Hside & Hcases).
  assert (Hlen : length (own_lines p') = S (length (own_lines p)) ∧
                 length (opp_lines p') = length (opp_lines p)).
  { destruct Hcases as [(_ & Ho & Hp & _) | [(_ & Ho & Hp & _) | (_ & other & _ & _ & Ho & Hp & _)]];
      rewrite Ho, Hp, length_app, ?length_insert; simpl; lia. }
  split; [exact Hside |].
  split; [rewrite (own_count_length p'), (own_count_length p), Hside; lia |].
  split; [rewrite (opp_count_length p'), (opp_count_length p), Hside; lia |].
  intros k tlk Hk.
  destruct (new_timeline_keeps_lines _ _ _ _ _ _ _ Hp' Hk) as [H | H];
    eexists; (split; [exact H |]); repeat split; auto.
Qed.

Lemma new_timeline_frame_witness :
  ∃ p', Position.new_timeline test_position 0 1 = Ok (p', Board2D.passTurn test_board) ∧
    Position.side_to_move p' = Position.side_to_move test_position ∧
    own_count p' = own_count test_position + 1 ∧
    opp_count p' = opp_count test_position ∧
    ∀ k tlk, Position.timeline test_position k = Ok tlk →
      ∃ tlk', Position.timeline p' k = Ok tlk' ∧
        Timeline.start_time tlk' = Timeline.start_time tlk ∧
        Timeline.start_color tlk' = Timeline.start_color tlk ∧
        Timeline.boards tlk' = Timeline.boards tlk ∧
        (Timeline.is_active tlk = true → Timeline.is_active tlk' = true).
Proof.
  apply (new_timeline_frame test_position 0 1 test_central_line test_board);
    vm_compute; reflexivity.
Defined.

Lemma line_decodes_active (fens : list string) (tls : list Timeline.t) :
  Forall2 line_decodes fens tls →
  ∀ i tl, rd tls i = Ok tl → Timeline.is_active tl = true.
Proof.
  intros Hall i tl Hi. apply rd_Ok_iff in Hi as [_ Hi].
  destruct (Forall2_lookup_r _ _ _ _ _ Hall Hi) as (fen & _ & b & _ & _ & _ & _ & Hact).
  exact Hact.
Qed.

(** Right after [set], a branch from the central board at time 1 has an
    existing source board.  It stops on the assertion when the side to
    move is behind by two lines or more, since [set] has made every line
    active; otherwise it returns. *)
Theorem first_branch_after_set (negativeFENs positiveFENs : list string)
  (p : Position.t) :
  Position.set negativeFENs positiveFENs = Ok p →
  (own_count p < opp_count p - 1 → Position.new_timeline p 0 1 = AssertFail) ∧
  (opp_count p - 1 <= own_count p → ∃ p' b, Position.new_timeline p 0 1 = Ok (p', b)).
Proof.
  intros Hset.
  destruct (set_Ok_inv _ _ _ Hset) as (Hn & Hp & _ & _ & _ & central & first & Hc & Hf & Hside).
  destruct (Forall2_lookup_r _ _ _ _ _ Hp Hc) as (fen & _ & b & _ & Hst & Hsc & Hbs & _).
  assert (Hfirst : first = b)
    by (unfold Timeline.first_board in Hf; rewrite Hbs in Hf; congruence).
  subst first.
  assert (Hline : Position.timeline p 0 = Ok central)
    by (unfold Position.timeline; simpl; apply rd_Ok_iff; split; [lia | exact Hc]).
  assert (Hsrc : Timeline.board_on_turn central 1 (Position.sideToMove p) = Ok b).
  { unfold Timeline.board_on_turn, Timeline.plyToBoardIdx.
    unfold Timeline.start_time in Hst. unfold Timeline.start_color in Hsc.
    rewrite Hst, Hsc, Hside, Hbs.
    replace (2 * (1 - 1) + (Color_to_int (Board2D.side_to_move b)
                            - Color_to_int (Board2D.side_to_move b))) with 0 by lia.
    reflexivity. }
  split.
  - intros Hbehind.
    destruct (new_timeline_behind p 0 1 central b Hline Hsrc Hbehind)
      as (other & Hother & Hres).
    assert (Hact : Timeline.is_active other = true).
    { unfold opp_lines in Hother. destruct (Position.sideToMove p).
      - eapply line_decodes_active; [exact Hn | exact Hother].
      - eapply line_decodes_active; [exact Hp | exact Hother]. }
    rewrite Hact in Hres. exact Hres.
  - intros Hnot.
    assert (Hassert : assertion_holds p = true).
    { unfold assertion_holds.
      destruct (Z.ltb_spec (own_count p) (opp_count p - 1)); [lia | reflexivity]. }
    destruct (new_timeline_returns p 0 1 central b Hline Hsrc Hassert)
      as (p' & nt & Hp' & _).
    eauto.
Qed.

Lemma first_branch_after_set_witness :
  Position.new_timeline unbalanced_position 0 1 = AssertFail.
Proof.
  apply (proj1 (first_branch_after_set
                  ["3k/4/4/KN2 b"%string; "3k/4/4/KN2 b"%string] [test_fen]
                  unbalanced_position ltac:(vm_compute; reflexivity))).
  vm_compute. reflexivity.
Defined.

(** ** The counters and the lines they count *)

Lemma incr_short_to_short (x : Z) : Position.incr_short (to_short x) = to_short (x + 1).
Proof.
  unfold Position.incr_short, to_short. f_equal.
  replace ((x + 32768) mod 65536 - 32768 + 1 + 32768)
    with ((x + 32768) mod 65536 + 1) by lia.
  rewrite Zplus_mod_idemp_l. f_equal. lia.
Qed.

Lemma active_lines_snoc (ls : list Timeline.t) (x : Timeline.t) :
  active_lines (ls ++ [x])
  = active_lines ls + (if Timeline.is_active x then 1 else 0).
Proof.
  unfold active_lines. rewrite List.filter_app, length_app. simpl.
  destruct (Timeline.is_active x); simpl; lia.
Qed.

Lemma active_lines_activate (ls : list Timeline.t) :
  ∀ (i : nat) (other : Timeline.t),
    ls !! i = Some other → Timeline.is_active other = false →
    active_lines (<[i := Timeline.activate other]> ls) = active_lines ls + 1.
Proof.
  unfold active_lines.
  induction ls as [| x ls IH]; intros i other Hi Hact; [discriminate |].
  destruct i as [| i]; simpl in *.
  - injection Hi as ->. rewrite Hact. simpl. lia.
  - specialize (IH i other Hi Hact). destruct (Timeline.is_active x); simpl; lia.
Qed.

Lemma tail_snoc {A : Type} (ls : list A) (x : A) :
  ls ≠ [] → tail (ls ++ [x]) = tail ls ++ [x].
Proof. destruct ls; [congruence | reflexivity]. Qed.

Lemma counters_track_step (p p' : Position.t) (l : L) (t : Time) (b : Board2D.t) :
  counters_track p →
  Position.sideToMove p = WHITE ∨ opp_count p - 1 <= own_count p →
  Position.new_timeline p l t = Ok (p', b) →
  counters_track p'.
Proof.
  intros (Hne & Hpos & Hneg) Hwho Hcall.
  destruct (new_timeline_cases _ _ _ _ _ Hcall)
    as (tl & src & _ & _ & _ & Hside & Hcases).
  unfold counters_track.
  unfold own_lines, opp_lines, own_active, opp_active, balancing_slot in Hcases.
  rewrite Hside in Hcases.
  destruct (Position.sideToMove p) eqn:Hmover.
  - destruct Hcases as [(_ & Ho & Hp & Hoa & Hpa)
                       | [(_ & Ho & Hp & Hoa & Hpa)
                         | (_ & other & Hother & Hact & Ho & Hp & Hoa & Hpa)]].
    + rewrite Ho, Hp, Hoa, Hpa, Hpos, Hneg, tail_snoc, active_lines_snoc by exact Hne.
      split; [destruct (Position.positiveLines p); [congruence | discriminate] |].
      split; [apply incr_short_to_short | reflexivity].
    + rewrite Ho, Hp, Hoa, Hpa, Hpos, Hneg, tail_snoc, active_lines_snoc by exact Hne.
      split; [destruct (Position.positiveLines p); [congruence | discriminate] |].
      split; [f_equal; simpl; lia | reflexivity].
    + apply rd_Ok_iff in Hother as [_ Hother].
      rewrite Ho, Hp, Hoa, Hpa, Hpos, Hneg, tail_snoc, active_lines_snoc by exact Hne.
      rewrite (active_lines_activate _ _ _ Hother Hact).
      split; [destruct (Position.positiveLines p); [congruence | discriminate] |].
      split; apply incr_short_to_short.
  - destruct Hcases as [(_ & Ho & Hp & Hoa & Hpa)
                       | [(_ & Ho & Hp & Hoa & Hpa)
                         | (Hbehind & _)]].
    + rewrite Ho, Hp, Hoa, Hpa, Hpos, Hneg, active_lines_snoc.
      split; [exact Hne |]. split; [reflexivity | apply incr_short_to_short].
    + rewrite Ho, Hp, Hoa, Hpa, Hpos, Hneg, active_lines_snoc.
      split; [exact Hne |]. split; [reflexivity | f_equal; simpl; lia].
    + destruct Hwho as [Hw | Hw]; [discriminate | lia].
Qed.

(** The counters follow the lines.  When each counter holds the number
    of active lines of its side (as a [short], the central line not
    counted), it still does after a call of [new_timeline] by White, and
    after a call by Black that does not take the second case. *)
Theorem counters_follow_lines (p : Position.t) (l : L) (t : Time)
  (tl : Timeline.t) (src : Board2D.t) :
  counters_track p →
  Position.timeline p l = Ok tl →
  Timeline.board_on_turn tl t (Position.sideToMove p) = Ok src →
  assertion_holds p = true →
  Position.sideToMove p = WHITE ∨ opp_count p - 1 <= own_count p →
  ∃ p', Position.new_timeline p l t = Ok (p', Board2D.passTurn src) ∧
        counters_track p'.
Proof.
  intros Htrack Hline Hsrc Hassert Hwho.
  destruct (new_timeline_returns p l t tl src Hline Hsrc Hassert) as (p' & nt & Hp' & _).
  exists p'. split; [exact Hp' |].
  eapply counters_track_step; [exact Htrack | exact Hwho | exact Hp'].
Qed.

Lemma all_active_lines (fens : list string) (tls : list Timeline.t) :
  Forall2 line_decodes fens tls → active_lines tls = Z.of_nat (length tls).
Proof.
  unfold active_lines. induction 1 as [| fen tl fens tls Hd _ IH]; [reflexivity |].
  destruct Hd as (b & _ & _ & _ & _ & Hact). simpl. rewrite Hact. simpl. lia.
Qed.

(** [set] leaves the counters in step with the lines, and so does every
    run of branch calls by White after it: each counter is the number of
    active lines of its side, reduced to a [short]. *)
Theorem set_then_white_calls (negativeFENs positiveFENs : list string)
  (calls : list Call) (p p' : Position.t) :
  Position.set negativeFENs positiveFENs = Ok p →
  Forall (fun c => mover c = WHITE) calls →
  branch_calls calls p = Ok p' →
  counters_track p ∧ counters_track p'.
Proof.
  intros Hset Hall Hrun.
  assert (Hp : counters_track p).
  { destruct (set_Ok_inv _ _ _ Hset)
      as (Hn & Hps & Hap & Han & _ & central & first & Hc & _).
    pose proof (Forall2_length _ _ _ Hn) as Hln. rewrite length_rev in Hln.
    pose proof (Forall2_length _ _ _ Hps) as Hlp.
    unfold counters_track.
    destruct (Position.positiveLines p) as [| c0 pl] eqn:Hpl; [discriminate |].
    split; [discriminate |]. simpl tail.
    inversion Hps as [| f0 c1 fr pl' Hd Hrest]; subst.
    rewrite (all_active_lines _ _ Hrest), (all_active_lines _ _ Hn), Hap, Han.
    simpl in Hlp. split; f_equal; cbn [length]; lia. }
  split; [exact Hp |].
  clear Hset. revert p Hp Hrun.
  induction Hall as [| c r Hc Hr IH]; intros p Hp Hrun.
  - injection Hrun as <-. exact Hp.
  - simpl in Hrun. rewrite Hc in Hrun.
    destruct (Position.new_timeline (turn_of WHITE p) (branchLine c) (branchTime c))
      as [[p1 b] | |] eqn:Hcall; cbn [mbind outcome_bind obind] in Hrun; try discriminate.
    apply (IH p1); [| exact Hrun].
    apply (counters_track_step (turn_of WHITE p) p1 (branchLine c) (branchTime c) b);
      [exact Hp | left; reflexivity | exact Hcall].
Qed.

Lemma counters_follow_lines_witness :
  ∃ p', Position.new_timeline test_position 0 1 = Ok (p', Board2D.passTurn test_board) ∧
        counters_track p'.
Proof.
  apply (counters_follow_lines test_position 0 1 test_central_line test_board).
  - split; [discriminate | split; vm_compute; reflexivity].
  - vm_compute. reflexivity.
  - vm_compute. reflexivity.
  - vm_compute. reflexivity.
  - left. vm_compute. reflexivity.
Defined.

Lemma set_then_white_calls_witness :
  counters_track test_position ∧ counters_track white_ahead_position.
Proof.
  apply (set_then_white_calls [] [test_fen] [MkCall WHITE 0 1]).
  - vm_compute. reflexivity.
  - repeat constructor.
  - vm_compute. reflexivity.
Defined.

(** ** Board2D: how the piece operations compose *)

Lemma run_ops_snoc (ops : list BoardOp) (op : BoardOp) :
  ∀ b, run_ops (ops ++ [op]) b = obind (run_ops ops b) (fun b1 => do_op b1 op).
Proof.
  induction ops as [| op0 r IH]; intros b; cbn [run_ops app].
  - ostep. destruct (do_op b op); reflexivity.
  - ostep. destruct (do_op b op0) as [b1 | |]; cbn [obind]; [apply IH | | ]; reflexivity.
Qed.

Lemma do_op_preserves (b : Board2D.t) (op : BoardOp) :
  board_inv b → op_fits b op = true → ∃ b', do_op b op = Ok b' ∧ board_inv b'.
Proof.
  intros Hinv Hfit. destruct op as [pc s | s]; simpl.
  - apply put_piece_preserves; assumption.
  - apply remove_piece_preserves; assumption.
Qed.

Lemma all_ops_snoc (ops : list BoardOp) (op : BoardOp) :
  ∀ b, board_inv b → all_ops op_fits (ops ++ [op]) b = true →
       ∃ b1, run_ops ops b = Ok b1 ∧ board_inv b1 ∧ op_fits b1 op = true.
Proof.
  induction ops as [| op0 r IH]; intros b Hinv Hall; cbn [all_ops app run_ops] in *.
  - apply andb_true_iff in Hall as [Hfit _]. exists b. auto.
  - apply andb_true_iff in Hall as [Hfit Hrest].
    destruct (do_op_preserves b op0 Hinv Hfit) as (b1 & Hb1 & Hinv1).
    rewrite Hb1 in Hrest |- *. ostep. apply IH; assumption.
Qed.

(** The facts that the invariant gives for a [put_piece] that fits, with
    the board that the call returns. *)
Lemma put_piece_fits_result (b : Board2D.t) (pc : Piece) (s : Square2D) :
  board_inv b → op_fits b (Put pc s) = true →
  ∃ n row m,
    is_piece pc = true ∧ 0 <= s < 64 ∧ 0 <= n < 16 ∧
    rd (Board2D.board b) s = Ok NO_PIECE ∧
    rd (Board2D.pieceCount b) pc = Ok n ∧
    rd (Board2D.pieceList b) pc = Ok row ∧
    length row = 16%nat ∧
    rd (Board2D.pieceCount b) (make_piece (color_of pc) ALL_PIECES) = Ok m ∧
    Board2D.put_piece b pc s =
      Ok (Board2D.Build (Board2D.boardWidth b)
            (<[Z.to_nat s := pc]> (Board2D.board b))
            (<[Z.to_nat (make_piece (color_of pc) ALL_PIECES) := m + 1]>
               (<[Z.to_nat pc := n + 1]> (Board2D.pieceCount b)))
            (<[Z.to_nat pc := <[Z.to_nat n := s]> row]> (Board2D.pieceList b))
            (<[Z.to_nat s := n]> (Board2D.index b))
            (Board2D.sideToMove b)).
Proof.
  intros (Hwf & Honly & Htracked) Hfits.
  unfold op_fits, op_allowed in Hfits. rewrite !andb_true_iff in Hfits.
  destruct Hfits as [[Hpc Hempty] Hcap].
  apply Z.ltb_lt in Hcap. apply is_empty_square_spec in Hempty.
  pose proof (is_piece_range pc Hpc) as [Hpcr Hpc8].
  destruct (Htracked pc Hpc) as (n & row & Hn & Hrow & Hocc & _ & _).
  pose proof Hwf as Hwf'. apply board_wf_spec in Hwf' as (Hlb & Hlc & Hll & Hrows & Hli).
  pose proof (rd_Ok_range _ _ _ Hempty) as Hs. rewrite Hlb in Hs.
  assert (Hn16 : 0 <= n < 16) by (unfold occurrences in Hocc, Hcap; lia).
  destruct (put_piece_result b pc s n row Hwf Hs Hn Hn16 Hrow) as (m & Hm & Hput).
  exists n, row, m.
  repeat split; try assumption; try lia; try (eapply Hrows; exact Hrow).
  pose proof (all_pieces_slot_not_piece pc pc Hpc) as Hall.
  rewrite rd_set in Hm by lia.
  destruct (Z.eqb_spec pc (make_piece (color_of pc) ALL_PIECES)); [congruence | exact Hm].
Qed.

(** The same for a [remove_piece] that fits. *)
Lemma remove_piece_fits_result (b : Board2D.t) (s : Square2D) :
  board_inv b → op_fits b (Remove s) = true →
  ∃ pc n row lastSquare i m,
    is_piece pc = true ∧ 0 <= s < 64 ∧ 0 <= i < n ∧ n <= 16 ∧
    rd (Board2D.board b) s = Ok pc ∧
    rd (Board2D.pieceCount b) pc = Ok n ∧
    rd (Board2D.pieceList b) pc = Ok row ∧
    length row = 16%nat ∧
    rd row (n - 1) = Ok lastSquare ∧ 0 <= lastSquare < 64 ∧
    rd (Board2D.index b) s = Ok i ∧
    rd (Board2D.pieceCount b) (make_piece (color_of pc) ALL_PIECES) = Ok m ∧
    Board2D.remove_piece b s =
      Ok (Board2D.Build (Board2D.boardWidth b)
            (<[Z.to_nat s := NO_PIECE]> (Board2D.board b))
            (<[Z.to_nat (make_piece (color_of pc) ALL_PIECES) := m - 1]>
               (<[Z.to_nat pc := n - 1]> (Board2D.pieceCount b)))
            (<[Z.to_nat pc :=
                 <[Z.to_nat (n - 1) := SQ_NONE]> (<[Z.to_nat i := lastSquare]> row)]>
               (Board2D.pieceList b))
            (<[Z.to_nat lastSquare := i]> (Board2D.index b))
            (Board2D.sideToMove b)).
Proof.
  intros (Hwf & Honly & Htracked) Hfits.
  unfold op_fits, op_allowed in Hfits.
  apply is_occupied_square_spec in Hfits as (pc & Hs & Hne).
  destruct (Honly s pc Hs) as [-> | Hpc]; [contradiction |].
  pose proof (is_piece_range pc Hpc) as [Hpcr Hpc8].
  destruct (Htracked pc Hpc) as (n & row & Hn & Hrow & Hocc & Hfwd & Hbwd).
  destruct (Hbwd s Hs) as (i & Hi & Hidx & Hrowi).
  destruct (Hfwd (n - 1)) as (last & Hlast & Hlastb & Hlasti); [lia |].
  pose proof Hwf as Hwf'. apply board_wf_spec in Hwf' as (Hlb & Hlc & Hll & Hrows & Hli).
  pose proof (Hrows _ _ Hrow) as Hlrow.
  pose proof (rd_Ok_range _ _ _ Hlast) as Hn16. rewrite Hlrow in Hn16.
  pose proof (rd_Ok_range _ _ _ Hlastb) as Hlast64. rewrite Hlb in Hlast64.
  pose proof (rd_Ok_range _ _ _ Hs) as Hs64. rewrite Hlb in Hs64.
  assert (Hi16 : 0 <= i < 16) by lia.
  destruct (remove_piece_result b s pc n row last i
              Hwf Hs Hn Hrow Hlast Hlast64 Hidx Hi16) as (m & Hm & Hrem).
  exists pc, n, row, last, i, m.
  repeat split; try assumption; try lia.
  pose proof (all_pieces_slot_not_piece pc pc Hpc) as Hall.
  rewrite rd_set in Hm by lia.
  destruct (Z.eqb_spec pc (make_piece (color_of pc) ALL_PIECES)); [congruence | exact Hm].
Qed.

(** On a board reached from the cleared board by operations that fit, one
    more operation that fits returns, and it changes one square only:
    [put_piece] sets the square to the piece, [remove_piece] empties
    it, every other square, the width and the side to move stay. *)
Theorem op_changes_one_square (ops : list BoardOp) (op : BoardOp) :
  all_ops op_fits (ops ++ [op]) Board2D.cleared = true →
  ∃ b b', run_ops ops Board2D.cleared = Ok b ∧
    run_ops (ops ++ [op]) Board2D.cleared = Ok b' ∧
    (∀ s', Board2D.piece_on b' s' =
           match op with
           | Put pc s => if s =? s' then Ok pc else Board2D.piece_on b s'
           | Remove s => if s =? s' then Ok NO_PIECE else Board2D.piece_on b s'
           end) ∧
    Board2D.board_width b' = Board2D.board_width b ∧
    Board2D.side_to_move b' = Board2D.side_to_move b.
Proof.
  intros Hall.
  destruct (all_ops_snoc ops op Board2D.cleared board_inv_cleared Hall)
    as (b & Hb & Hinv & Hfit).
  exists b. rewrite run_ops_snoc, Hb. cbn [obind].
  pose proof Hinv as (Hwf & _). apply board_wf_spec in Hwf as (Hlb & _).
  destruct op as [pc s | s]; cbn [do_op].
  - destruct (put_piece_fits_result b pc s Hinv Hfit)
      as (n & row & m & _ & Hs & _ & _ & _ & _ & _ & _ & Hput).
    eexists. split; [reflexivity |]. split; [exact Hput |].
    split; [| split; reflexivity].
    intros s'. unfold Board2D.piece_on. fields. apply rd_set. lia.
  - destruct (remove_piece_fits_result b s Hinv Hfit)
      as (pc & n & row & last & i & m & _ & Hs & _ & _ & _ & _ & _ & _ & _ & _ & _ & _ & Hrem).
    eexists. split; [reflexivity |]. split; [exact Hrem |].
    split; [| split; reflexivity].
    intros s'. unfold Board2D.piece_on. fields. apply rd_set. lia.
Qed.

Lemma op_changes_one_square_witness :
  ∃ b b', run_ops (take 3 test_ops) Board2D.cleared = Ok b ∧
    run_ops (take 3 test_ops ++ [Remove SQ_D4]) Board2D.cleared = Ok b' ∧
    (∀ s', Board2D.piece_on b' s' =
           if SQ_D4 =? s' then Ok NO_PIECE else Board2D.piece_on b s') ∧
    Board2D.board_width b' = Board2D.board_width b ∧
    Board2D.side_to_move b' = Board2D.side_to_move b.
Proof.
  apply (op_changes_one_square (take 3 test_ops) (Remove SQ_D4)).
  vm_compute. reflexivity.
Defined.

Lemma insert_back {A : Type} (l : list A) (i j : nat) (x x' y y' : A) :
  i ≠ j → l !! i = Some x → l !! j = Some y →
  <[j := y]> (<[i := x]> (<[j := y']> (<[i := x']> l))) = l.
Proof.
  intros Hij Hi Hj. apply list_eq. intros k.
  rewrite !list_lookup_insert, !length_insert.
  pose proof (lookup_lt_Some _ _ _ Hi). pose proof (lookup_lt_Some _ _ _ Hj).
  repeat case_decide; try congruence; try lia; destruct_and?; subst; congruence.
Qed.

(** [remove_piece] undoes a [put_piece] that fits: the squares, the
    counts and the location collection of every piece are those of the
    board before, as are the width and the side to move.  (The arrays
    [index] and [pieceList] may differ in slots that are not in use.) *)
Theorem put_then_remove (ops : list BoardOp) (pc : Piece) (s : Square2D) :
  all_ops op_fits (ops ++ [Put pc s]) Board2D.cleared = true →
  ∃ b b1 b2,
    run_ops ops Board2D.cleared = Ok b ∧
    Board2D.put_piece b pc s = Ok b1 ∧
    Board2D.remove_piece b1 s = Ok b2 ∧
    Board2D.board b2 = Board2D.board b ∧
    Board2D.pieceCount b2 = Board2D.pieceCount b ∧
    (∀ pc', locations b2 pc' = locations b pc') ∧
    Board2D.board_width b2 = Board2D.board_width b ∧
    Board2D.side_to_move b2 = Board2D.side_to_move b.
Proof.
  intros Hall.
  destruct (all_ops_snoc ops (Put pc s) Board2D.cleared board_inv_cleared Hall)
    as (b & Hb & Hinv & Hfit).
  destruct (put_piece_fits_result b pc s Hinv Hfit)
    as (n & row & m & Hpc & Hs & Hn16 & Hempty & Hn & Hrow & Hlrow & Hm & Hput).
  destruct (put_piece_preserves b pc s Hinv Hfit) as (b1 & Hput1 & Hinv1).
  pose proof Hinv as (Hwf & _). apply board_wf_spec in Hwf as (Hlb & Hlc & Hll & _ & Hli).
  pose proof (is_piece_range pc Hpc) as [Hpcr Hpc8].
  pose proof (all_pieces_slot_not_piece pc pc Hpc) as Hall_ne.
  pose proof (rd_Ok_range _ _ _ Hm) as Hall_r. rewrite Hlc in Hall_r.
  set (all := make_piece (color_of pc) ALL_PIECES) in *.
  assert (Hb1 : b1 = Board2D.Build (Board2D.boardWidth b)
            (<[Z.to_nat s := pc]> (Board2D.board b))
            (<[Z.to_nat all := m + 1]> (<[Z.to_nat pc := n + 1]> (Board2D.pieceCount b)))
            (<[Z.to_nat pc := <[Z.to_nat n := s]> row]> (Board2D.pieceList b))
            (<[Z.to_nat s := n]> (Board2D.index b))
            (Board2D.sideToMove b)) by congruence.
  assert (Hfit1 : op_fits b1 (Remove s) = true).
  { cbn [op_fits op_allowed]. apply is_occupied_square_spec. exists pc.
    split; [| unfold NO_PIECE; lia].
    rewrite Hb1. fields. rewrite rd_set by lia. rewrite Z.eqb_refl. reflexivity. }
  destruct (remove_piece_fits_result b1 s Hinv1 Hfit1)
    as (pc1 & n1 & row1 & last1 & i1 & m1 & _ & _ & _ & _ & Hs1 & Hn1 & Hrow1 & _
        & Hlast1 & _ & Hi1 & Hm1 & Hrem).
  rewrite Hb1 in Hs1, Hn1, Hrow1, Hi1, Hm1. cbn in Hs1, Hn1, Hrow1, Hi1, Hm1.
  rewrite rd_set in Hs1 by lia. rewrite Z.eqb_refl in Hs1. injection Hs1 as <-.
  fold all in Hm1.
  rewrite rd_set in Hn1 by (rewrite length_insert; lia).
  rewrite rd_set in Hn1 by lia.
  destruct (Z.eqb_spec all pc) as [Heq | _]; [congruence |].
  rewrite Z.eqb_refl in Hn1. injection Hn1 as <-.
  rewrite rd_set in Hrow1 by lia. rewrite Z.eqb_refl in Hrow1. injection Hrow1 as <-.
  replace (n + 1 - 1) with n in * by lia.
  rewrite rd_set in Hlast1 by lia. rewrite Z.eqb_refl in Hlast1. injection Hlast1 as <-.
  rewrite rd_set in Hi1 by lia. rewrite Z.eqb_refl in Hi1. injection Hi1 as <-.
  rewrite rd_set in Hm1 by (rewrite length_insert; lia).
  rewrite Z.eqb_refl in Hm1. injection Hm1 as <-.
  exists b, b1. eexists.
  split; [exact Hb |]. split; [exact Hput1 |]. split; [exact Hrem |].
  rewrite Hb1. fields.
  apply rd_Ok_iff in Hempty as [_ Hempty]. apply rd_Ok_iff in Hn as [_ Hn].
  apply rd_Ok_iff in Hm as [_ Hm]. apply rd_Ok_iff in Hrow as [_ Hrow].
  split; [rewrite list_insert_insert_eq; apply list_insert_id; exact Hempty |].
  assert (Hcnt : <[Z.to_nat all := m + 1 - 1]>
                   (<[Z.to_nat pc := n]>
                      (<[Z.to_nat all := m + 1]>
                         (<[Z.to_nat pc := n + 1]> (Board2D.pieceCount b))))
                 = Board2D.pieceCount b).
  { replace (m + 1 - 1) with m by lia. apply insert_back; [lia | exact Hn | exact Hm]. }
  split; [exact Hcnt |].
  split; [| split; reflexivity].
  intros pc'. unfold locations. fields. fold all. rewrite Hcnt.
  destruct (rd (Board2D.pieceCount b) pc') as [k | |] eqn:Hk; [| reflexivity | reflexivity].
  rewrite list_insert_insert_eq.
  pose proof (rd_Ok_range _ _ _ Hk) as Hpc'. rewrite Hlc in Hpc'.
  rewrite rd_set by lia.
  destruct (Z.eqb_spec pc pc') as [<- | Hne].
  - rewrite (proj2 (rd_Ok_iff _ _ _) (conj (proj1 Hpc') Hrow)).
    assert (k = n) by (apply rd_Ok_iff in Hk as [_ Hk]; congruence). subst k.
    rewrite !take_insert_ge by lia. reflexivity.
  - reflexivity.
Qed.

Lemma put_then_remove_witness :
  ∃ b b1 b2,
    run_ops (take 2 test_ops) Board2D.cleared = Ok b ∧
    Board2D.put_piece b B_KING SQ_D4 = Ok b1 ∧
    Board2D.remove_piece b1 SQ_D4 = Ok b2 ∧
    Board2D.board b2 = Board2D.board b ∧
    Board2D.pieceCount b2 = Board2D.pieceCount b ∧
    (∀ pc', locations b2 pc' = locations b pc') ∧
    Board2D.board_width b2 = Board2D.board_width b ∧
    Board2D.side_to_move b2 = Board2D.side_to_move b.
Proof.
  apply (put_then_remove (take 2 test_ops) B_KING SQ_D4).
  vm_compute. reflexivity.
Defined.

(** ** Board2D: the counts of a colour *)

Lemma is_piece_cases (pc : Piece) :
  is_piece pc = true →
  pc = 1 ∨ pc = 2 ∨ pc = 3 ∨ pc = 4 ∨ pc = 5 ∨ pc = 6 ∨
  pc = 9 ∨ pc = 10 ∨ pc = 11 ∨ pc = 12 ∨ pc = 13 ∨ pc = 14.
Proof.
  unfold is_piece, Pieces. simpl.
  rewrite !orb_true_iff, !Z.eqb_eq.
  unfold W_PAWN, W_KNIGHT, W_BISHOP, W_ROOK, W_QUEEN, W_KING,
    B_PAWN, B_KNIGHT, B_BISHOP, B_ROOK, B_QUEEN, B_KING.
  intros H. lia.
Qed.

Lemma colour_total_step (b b' : Board2D.t) (x : Piece) (d : Z) (c : Color) :
  (∀ pc, is_piece pc = true →
         occurrences b' pc = occurrences b pc + (if x =? pc then d else 0)) →
  is_piece x = true →
  colour_total b' c
  = colour_total b c + (if Color_eqb (color_of x) c then d else 0).
Proof.
  intros Hocc Hx. unfold colour_total.
  assert (Hw : pieces_of WHITE = [1; 2; 3; 4; 5; 6]) by reflexivity.
  assert (Hb : pieces_of BLACK = [9; 10; 11; 12; 13; 14]) by reflexivity.
  destruct c; [rewrite Hw | rewrite Hb]; cbn [fold_right];
    rewrite !Hocc by reflexivity;
    destruct (is_piece_cases x Hx) as [-> | [-> | [-> | [-> | [-> | [-> | [-> | [-> | [-> | [-> | [-> | ->]]]]]]]]]]];
    match goal with
    | |- context [Color_eqb (color_of ?k) ?c] =>
        let v := eval vm_compute in (Color_eqb (color_of k) c) in
        change (Color_eqb (color_of k) c) with v
    end;
    cbn; lia.
Qed.

Lemma Color_eqb_eq (a c : Color) : Color_eqb a c = true → a = c.
Proof. destruct a, c; simpl; congruence. Qed.

Lemma colour_counted_cleared : colour_counted Board2D.cleared.
Proof. intros [|]; vm_compute; reflexivity. Qed.

Lemma all_slot_colour (x : Piece) (c : Color) :
  0 <= x < 16 →
  (make_piece (color_of x) ALL_PIECES =? make_piece c ALL_PIECES)
  = Color_eqb (color_of x) c.
Proof.
  intros Hx. destruct (color_of x), c; reflexivity.
Qed.

Lemma do_op_colour_counted (b : Board2D.t) (op : BoardOp) :
  board_inv b → colour_counted b → op_fits b op = true →
  ∃ b', do_op b op = Ok b' ∧ board_inv b' ∧ colour_counted b'.
Proof.
  intros Hinv Hcol Hfit.
  destruct (do_op_preserves b op Hinv Hfit) as (b' & Hb' & Hinv').
  exists b'. split; [exact Hb' |]. split; [exact Hinv' |].
  pose proof Hinv as (Hwf & _). apply board_wf_spec in Hwf as (Hlb & Hlc & _).
  intros c. destruct op as [pc s | s]; cbn [do_op] in Hb'.
  - destruct (put_piece_fits_result b pc s Hinv Hfit)
      as (n & row & m & Hpc & Hs & Hn16 & Hempty & Hn & Hrow & _ & Hm & Hput).
    pose proof (is_piece_range pc Hpc) as [Hpcr Hpc8].
    rewrite Hput in Hb'. injection Hb' as <-. fields.
    rewrite (colour_total_step b _ pc 1 c); [| | exact Hpc].
    + pose proof (all_pieces_slot pc) as Hslot. pose proof (all_pieces_slot_not_piece pc pc Hpc).
      rewrite rd_set by (rewrite length_insert; destruct Hslot as [-> | ->]; lia).
      rewrite all_slot_colour by lia.
      destruct (Color_eqb (color_of pc) c) eqn:Hc.
      * f_equal. specialize (Hcol c).
        assert (color_of pc = c) by (apply Color_eqb_eq; exact Hc).
        subst c. rewrite Hm in Hcol. injection Hcol as ->. reflexivity.
      * rewrite rd_set by lia.
        assert (pc ≠ make_piece c ALL_PIECES)
          by (destruct c;
              [change (make_piece WHITE ALL_PIECES) with 0
              | change (make_piece BLACK ALL_PIECES) with 8]; lia).
        destruct (Z.eqb_spec pc (make_piece c ALL_PIECES)); [contradiction |].
        rewrite Hcol. f_equal. lia.
    + intros z Hz. pose proof (is_piece_range z Hz) as [Hzr _].
      erewrite occurrences_set; [| exact Hempty | reflexivity].
      unfold NO_PIECE. destruct (Z.eqb_spec 0 z); [lia |].
      destruct (pc =? z); lia.
  - destruct (remove_piece_fits_result b s Hinv Hfit)
      as (pc & n & row & last & i & m & Hpc & Hs & _ & _ & Hbs & Hn & _ & _ & _ & _ & _ & Hm & Hrem).
    pose proof (is_piece_range pc Hpc) as [Hpcr Hpc8].
    pose proof (rd_Ok_range _ _ _ Hn) as Hpc16.
    rewrite Hrem in Hb'. injection Hb' as <-. fields.
    rewrite (colour_total_step b _ pc (-1) c); [| | exact Hpc].
    + pose proof (all_pieces_slot pc) as Hslot. pose proof (all_pieces_slot_not_piece pc pc Hpc).
      rewrite rd_set by (rewrite length_insert; destruct Hslot as [-> | ->]; lia).
      rewrite all_slot_colour by lia.
      destruct (Color_eqb (color_of pc) c) eqn:Hc.
      * f_equal. specialize (Hcol c).
        assert (color_of pc = c) by (apply Color_eqb_eq; exact Hc).
        subst c. rewrite Hm in Hcol. injection Hcol as ->. lia.
      * rewrite rd_set by lia.
        assert (pc ≠ make_piece c ALL_PIECES)
          by (destruct c;
              [change (make_piece WHITE ALL_PIECES) with 0
              | change (make_piece BLACK ALL_PIECES) with 8]; lia).
        destruct (Z.eqb_spec pc (make_piece c ALL_PIECES)); [contradiction |].
        rewrite Hcol. f_equal. lia.
    + intros z Hz. pose proof (is_piece_range z Hz) as [Hzr _].
      erewrite occurrences_set; [| exact Hbs | reflexivity].
      unfold NO_PIECE. destruct (Z.eqb_spec 0 z); [lia |].
      destruct (pc =? z); lia.
Qed.

Lemma run_ops_colour_counted (ops : list BoardOp) :
  ∀ b, board_inv b → colour_counted b → all_ops op_fits ops b = true →
       ∃ b', run_ops ops b = Ok b' ∧ board_inv b' ∧ colour_counted b'.
Proof.
  induction ops as [| op r IH]; intros b Hinv Hcol Hall; cbn [run_ops all_ops] in *.
  - exists b. auto.
  - apply andb_true_iff in Hall as [Hfit Hrest].
    destruct (do_op_colour_counted b op Hinv Hcol Hfit) as (b1 & Hb1 & Hinv1 & Hcol1).
    rewrite Hb1 in Hrest |- *. ostep. apply IH; assumption.
Qed.

(** After any run, from the cleared board, of operations that fit, the
    slot [make_piece(c, ALL_PIECES)] of [pieceCount] holds the number of
    squares with a piece of colour [c], for both colours. *)
Theorem colour_counts_agree (ops : list BoardOp) :
  all_ops op_fits ops Board2D.cleared = true →
  ∃ b, run_ops ops Board2D.cleared = Ok b ∧ colour_counted b.
Proof.
  intros Hall.
  destruct (run_ops_colour_counted ops Board2D.cleared
              board_inv_cleared colour_counted_cleared Hall) as (b & Hb & _ & Hcol).
  exists b. auto.
Qed.

Lemma colour_counts_agree_witness :
  ∃ b, run_ops test_ops Board2D.cleared = Ok b ∧ colour_counted b.
Proof. apply (colour_counts_agree test_ops). vm_compute. reflexivity. Defined.

(** ** Balance without a change of the turn: an instance *)

Lemma balance_kept_by_one_mover_witness : balanced white_twice_position = true.
Proof.
  apply (balance_kept_by_one_mover [MkCall WHITE 0 1; MkCall WHITE 0 1]
           test_position white_twice_position).
  - repeat split; vm_compute; reflexivity.
  - repeat constructor.
  - vm_compute. reflexivity.
Defined.
